(** * nbai: cache-aware article summarisation and its benchmark driver

    A shallow embedding of [scripts/article_processor.py] and
    [scripts/llmbench.py], and the properties of the specification that
    can be settled on it.

    - [PyStr]     Python [str] values as sequences of code points.
    - [Re]        the fragment of Python's [re] used by the scripts: a
                  backtracking matcher and [re.sub].
    - [Cleaner]   [clean_text].
    - [Processor] the orchestrator [article_processor.main] as a program
                  in a state-and-exit monad over an oracle for the outside
                  world (inference server, web, clock).
    - [Bench]     the benchmark driver [llmbench.main].
    - [Numeric]   its statistics with the functions of numpy left open,
                  and the report as it is read back. *)

From Stdlib Require Import List Bool Arith ZArith NArith QArith Lia.
From Stdlib Require Import Ascii String DecimalString.
Import ListNotations.

Set Implicit Arguments.
Close Scope Q_scope.
Open Scope nat_scope.

(* ===================================================================== *)
(** * Python strings *)
(* ===================================================================== *)

Module PyStr.

(** A Python [str] is a sequence of Unicode code points. *)
Definition char := N.
Bind Scope N_scope with char.
Definition pystr := list char.

(** Literals of the scripts are ASCII; [py "..."] reads one. *)
Definition py (s : string) : pystr :=
  List.map N_of_ascii (list_ascii_of_string s).

Definition chr_eqb (a b : char) : bool := N.eqb a b.

Fixpoint str_eqb (a b : pystr) : bool :=
  match a, b with
  | [], [] => true
  | x :: a', y :: b' => chr_eqb x y && str_eqb a' b'
  | _, _ => false
  end.

(** [Py_UNICODE_ISSPACE]: the characters matched by [\s] in a [str]
    pattern and removed by [str.strip()]. *)
Definition py_isspace (c : char) : bool :=
  ((9 <=? c) && (c <=? 13)              (* \t \n \v \f \r *)
   || (28 <=? c) && (c <=? 32)          (* FS GS RS US and space *)
   || (c =? 133) || (c =? 160)          (* NEL, NBSP *)
   || (c =? 5760)                       (* U+1680 *)
   || (8192 <=? c) && (c <=? 8202)      (* U+2000 .. U+200A *)
   || (c =? 8232) || (c =? 8233)        (* U+2028, U+2029 *)
   || (c =? 8239) || (c =? 8287)        (* U+202F, U+205F *)
   || (c =? 12288))%N.                  (* U+3000 *)

Definition SPACE : char := 32%N.
Definition TAB : char := 9%N.
Definition NL : char := 10%N.
Definition CR : char := 13%N.

Fixpoint drop_while (p : char -> bool) (s : pystr) : pystr :=
  match s with
  | c :: s' => if p c then drop_while p s' else s
  | [] => []
  end.

(** [s.lstrip()], [s.rstrip()] and [s.strip()] without argument. *)
Definition lstrip (s : pystr) : pystr := drop_while py_isspace s.
Definition rstrip (s : pystr) : pystr := rev (drop_while py_isspace (rev s)).
Definition strip (s : pystr) : pystr := rstrip (lstrip s).

(** [s.startswith(p)]. *)
Fixpoint startswith (p s : pystr) : bool :=
  match p, s with
  | [], _ => true
  | x :: p', y :: s' => chr_eqb x y && startswith p' s'
  | _ :: _, [] => false
  end.

(** [p in s] for strings. *)
Fixpoint contains (p s : pystr) : bool :=
  startswith p s ||
  match s with
  | [] => false
  | _ :: s' => contains p s'
  end.

(** [s.split(sep)] for a one-character separator. *)
Fixpoint split_on (sep : char) (s : pystr) : list pystr :=
  match s with
  | [] => [[]]
  | c :: s' =>
      if chr_eqb c sep then [] :: split_on sep s'
      else match split_on sep s' with
           | w :: ws => (c :: w) :: ws
           | [] => [[c]]
           end
  end.

(** [str(n)] for an [int]. *)
Definition str_of_Z (z : Z) : pystr := py (NilZero.string_of_int (Z.to_int z)).

End PyStr.
Import PyStr.

(* ===================================================================== *)
(** * The fragment of [re] used by [clean_text] *)
(* ===================================================================== *)

Module Re.

(** Patterns.  Repetition occurs in the scripts only over a single
    character class ([\s*], [[ \t]+], [.*?], ...), so the operand of a star
    is a class; every other construct of the five patterns is here. *)
Inductive regex : Type :=
| Cls (p : char -> bool)          (* one character of a class *)
| Star (p : char -> bool)         (* greedy   p*  *)
| LazyStar (p : char -> bool)     (* lazy     p*? *)
| Bol                             (* ^ under re.MULTILINE *)
| Eol                             (* $ under re.MULTILINE *)
| Cat (r1 r2 : regex)
| Alt (r1 r2 : regex).

Definition Plus (p : char -> bool) : regex := Cat (Cls p) (Star p).

(** A position in the subject is the character before it (if any) and
    the text after it. *)
Definition at_bol (prev : option char) : bool :=
  match prev with
  | None => true
  | Some c => chr_eqb c NL
  end.

Definition at_eol (s : pystr) : bool :=
  match s with
  | [] => true
  | c :: _ => chr_eqb c NL
  end.

Section Matcher.
Variable X : Type.
(** A continuation receives the position reached; [None] asks the
    matcher to backtrack. *)
Definition cont := option char -> pystr -> option X.

Fixpoint star_greedy (p : char -> bool) (prev : option char) (s : pystr)
         (k : cont) : option X :=
  match s with
  | c :: s' =>
      if p c then
        match star_greedy p (Some c) s' k with
        | Some x => Some x
        | None => k prev s
        end
      else k prev s
  | [] => k prev s
  end.

Fixpoint star_lazy (p : char -> bool) (prev : option char) (s : pystr)
         (k : cont) : option X :=
  match k prev s with
  | Some x => Some x
  | None =>
      match s with
      | c :: s' => if p c then star_lazy p (Some c) s' k else None
      | [] => None
      end
  end.

(** Backtracking match of [r] at a position: alternatives are tried in
    the order of Python's engine (left branch first, greedy longest
    first, lazy shortest first). *)
Fixpoint rmatch (r : regex) (prev : option char) (s : pystr) (k : cont)
  : option X :=
  match r with
  | Cls p =>
      match s with
      | c :: s' => if p c then k (Some c) s' else None
      | [] => None
      end
  | Star p => star_greedy p prev s k
  | LazyStar p => star_lazy p prev s k
  | Bol => if at_bol prev then k prev s else None
  | Eol => if at_eol s then k prev s else None
  | Cat r1 r2 => rmatch r1 prev s (fun prev' s' => rmatch r2 prev' s' k)
  | Alt r1 r2 =>
      match rmatch r1 prev s k with
      | Some x => Some x
      | None => rmatch r2 prev s k
      end
  end.
End Matcher.

(** Number of characters of the match of [r] that starts at this
    position, if there is one. *)
Definition match_len (r : regex) (prev : option char) (s : pystr) : option nat :=
  rmatch r prev s (fun _ rest => Some (List.length s - List.length rest)).

(** [re.sub(r, repl, s)] with a constant replacement: scan left to
    right, replace each leftmost match and resume after it.  [skip] counts
    the characters of the current match still to be passed over.  None of
    the five patterns of [clean_text] can match the empty string (lemma
    [CleanerFacts.no_empty_match]), so a match of length 0 is not looked for. *)
Fixpoint sub_scan (r : regex) (repl : pystr) (skip : nat)
         (prev : option char) (s : pystr) : pystr :=
  match s with
  | [] => []
  | c :: s' =>
      match skip with
      | S n => sub_scan r repl n (Some c) s'
      | O =>
          match match_len r prev s with
          | Some (S n) => repl ++ sub_scan r repl n (Some c) s'
          | _ => c :: sub_scan r repl 0 (Some c) s'
          end
      end
  end.

Definition sub (r : regex) (repl : pystr) (s : pystr) : pystr :=
  sub_scan r repl 0 None s.

(** Character classes. *)
Definition one (c : char) : char -> bool := fun x => chr_eqb x c.
Definition any_char : char -> bool := fun _ => true.        (* . under DOTALL *)
Definition blank (c : char) : bool := chr_eqb c SPACE || chr_eqb c TAB.

(** A letter under [re.IGNORECASE] in a [str] pattern.  Besides the two
    ASCII cases, 'i' also matches U+0130 and U+0131, and 'k' matches the
    Kelvin sign U+212A. *)
Definition ci (lower : char) : char -> bool :=
  fun x =>
    chr_eqb x lower || chr_eqb x (lower - 32)
    || (chr_eqb lower 105 && (chr_eqb x 304 || chr_eqb x 305))
    || (chr_eqb lower 107 && chr_eqb x 8490).

(** A literal character in a pattern compiled with [re.IGNORECASE]:
    letters match either case, the rest match themselves. *)
Definition lit_ci (c : char) : char -> bool :=
  if ((97 <=? c) && (c <=? 122))%N then ci c else one c.

Fixpoint seq_of (ps : list (char -> bool)) (tail : regex) : regex :=
  match ps with
  | [] => tail
  | p :: ps' => Cat (Cls p) (seq_of ps' tail)
  end.

(** The literal text [w] under [re.IGNORECASE], followed by [tail]. *)
Definition word_ci (w : string) (tail : regex) : regex :=
  seq_of (List.map lit_ci (py w)) tail.

End Re.

(* ===================================================================== *)
(** * [clean_text] *)
(* ===================================================================== *)

Module Cleaner.
Import Re.

(** [<\s*[Tt][Hh][Ii][Nn][Kk]\s*>.*?</\s*[Tt][Hh][Ii][Nn][Kk]\s*>],
    flags IGNORECASE | DOTALL. *)
Definition re_think_tag : regex :=
  Cat (Cls (one 60))                                (* < *)
  (Cat (Star py_isspace)
  (word_ci "think"
  (Cat (Star py_isspace)
  (Cat (Cls (one 62))                               (* > *)
  (Cat (LazyStar any_char)
  (Cat (Cls (one 60))                               (* < *)
  (Cat (Cls (one 47))                               (* / *)
  (Cat (Star py_isspace)
  (word_ci "think"
  (Cat (Star py_isspace)
       (Cls (one 62)))))))))))).                    (* > *)

(** [[Tt][Hh][Ii][Nn][Kk][\.\s]*\.+\s*done thinking\.], flag IGNORECASE. *)
Definition dot_or_space (c : char) : bool := chr_eqb c 46 || py_isspace c.

Definition re_think_done : regex :=
  word_ci "think"
  (Cat (Star dot_or_space)
  (Cat (Plus (one 46))
  (Cat (Star py_isspace)
  (word_ci "done thinking"
       (Cls (one 46)))))).

(** [^[ \t]*[Tt][Hh][Ii][Nn][Kk][Ii][Nn][Gg][ \t]*$],
    flags IGNORECASE | MULTILINE. *)
Definition re_thinking_line : regex :=
  Cat Bol
  (Cat (Star blank)
  (word_ci "thinking"
  (Cat (Star blank) Eol))).

(** [^[ \t]+|[ \t]+$], flag MULTILINE. *)
Definition re_line_trim : regex :=
  Alt (Cat Bol (Plus blank)) (Cat (Plus blank) Eol).

(** [\s+]. *)
Definition re_spaces : regex := Plus py_isspace.

(** Lines 31 to 33: the three removals of thinking markup. *)
Definition remove_markers (text : pystr) : pystr :=
  let text := sub re_think_tag [] text in
  let text := sub re_think_done [] text in
  sub re_thinking_line [] text.

(** Lines 34 and 35: per-line trimming, whitespace collapse, strip. *)
Definition normalize (text : pystr) : pystr :=
  let text := sub re_line_trim [] text in
  strip (sub re_spaces [SPACE] text).

Definition clean_text (text : pystr) : pystr :=
  match text with
  | [] => []                       (* if not text: return the empty string *)
  | _ => normalize (remove_markers text)
  end.

End Cleaner.

(* ===================================================================== *)
(** * Vocabulary for the statements about [clean_text] *)
(* ===================================================================== *)

Module CleanSpec.
Import Re Cleaner.

(** Least number of characters a match of [r] consumes. *)
Fixpoint min_len (r : regex) : nat :=
  match r with
  | Cls _ => 1
  | Star _ | LazyStar _ | Bol | Eol => 0
  | Cat r1 r2 => min_len r1 + min_len r2
  | Alt r1 r2 => Nat.min (min_len r1) (min_len r2)
  end.

(** Length of the longest prefix of [s] inside the class [p]. *)
Fixpoint run (p : char -> bool) (s : pystr) : nat :=
  match s with
  | c :: s' => if p c then S (run p s') else 0
  | [] => 0
  end.

(** What [re.sub(r'\s+', ' ', s)] computes, written as one pass:
    [in_run] tells that the previous character was whitespace. *)
Fixpoint collapse (in_run : bool) (s : pystr) : pystr :=
  match s with
  | [] => []
  | c :: s' =>
      if py_isspace c
      then (if in_run then collapse true s' else SPACE :: collapse true s')
      else c :: collapse false s'
  end.

(** Every whitespace character is one U+0020; [after_space] forbids a
    space in first position. *)
Fixpoint spaced (after_space : bool) (s : pystr) : Prop :=
  match s with
  | [] => True
  | c :: s' =>
      if py_isspace c
      then c = SPACE /\ after_space = false /\ spaced true s'
      else spaced false s'
  end.

(** Every whitespace character is one U+0020 followed by a character
    that is not whitespace. *)
Fixpoint inner_spaces (s : pystr) : Prop :=
  match s with
  | [] => True
  | c :: s' =>
      if py_isspace c
      then c = SPACE
           /\ match s' with [] => False | d :: _ => py_isspace d = false end
           /\ inner_spaces s'
      else inner_spaces s'
  end.

Definition starts_clean (s : pystr) : Prop :=
  match s with [] => True | c :: _ => py_isspace c = false end.

(** Normal form of cleaned text. *)
Definition normal (s : pystr) : Prop := starts_clean s /\ inner_spaces s.

(** The properties named by the specification. *)
Definition no_double_space (s : pystr) : Prop :=
  forall a b, s <> a ++ [SPACE; SPACE] ++ b.
Definition no_leading_space (s : pystr) : Prop :=
  forall c s', s = c :: s' -> py_isspace c = false.
Definition no_trailing_space (s : pystr) : Prop :=
  forall c s', s = s' ++ [c] -> py_isspace c = false.

(** The position reached after reading [u] from a position whose
    previous character is [prev]. *)
Definition prev_after (prev : option char) (u : pystr) : option char :=
  fold_left (fun _ c => Some c) u prev.

(** [u] spells the pattern text [w] under [re.IGNORECASE]. *)
Fixpoint all2 (ps : list (char -> bool)) (u : pystr) : bool :=
  match ps, u with
  | [], [] => true
  | p :: ps', c :: u' => p c && all2 ps' u'
  | _, _ => false
  end.

Definition spelled_ci (w : string) (u : pystr) : bool :=
  all2 (List.map lit_ci (py w)) u.


End CleanSpec.

(* ===================================================================== *)
(** * Facts about the matcher *)
(* ===================================================================== *)

(* ===================================================================== *)
(** * The orchestrator: [article_processor.main] *)
(* ===================================================================== *)

Module Processor.
Import Re Cleaner.

(** ** The outside world *)

(** Answers of the inference server, of the web and of the clock.  The
    [n]-th HTTP request of a run gets the answer at index [n]; the [n]-th
    reading of the clock gets [w_time n].  [None] is a
    [requests.RequestException] (connection error, timeout or an error
    status caught by [raise_for_status]). *)
Record world : Type := {
  w_time : nat -> Q;
  (* GET /api/tags: the names in the "models" array *)
  w_tags : nat -> pystr -> option (list pystr);
  (* GET /api/ps: the names of the resident models *)
  w_ps : nat -> pystr -> option (list pystr);
  (* POST /api/generate {model, empty prompt, keep_alive: 0} *)
  w_unload : nat -> pystr -> pystr -> bool;
  (* POST /api/generate {model, prompt, stream: false}: the "response"
     field of the body, if the body has one *)
  w_generate : nat -> pystr -> pystr -> pystr -> option (option pystr);
  (* GET url, followed by BeautifulSoup's get_text(separator=' ', strip=True) *)
  w_page : nat -> pystr -> option pystr
}.

(** Effects on the network and on the cache file, in order. *)
Inductive event : Type :=
| GetTags (host : pystr)
| GetPs (host : pystr)
| PostUnload (host model : pystr)
| PostGenerate (host model prompt : pystr)
| HttpGet (url : pystr)
| CacheRead
| CacheWrite (text : pystr).

(** Lines of narration on standard error. *)
Inductive diag : Type :=
| HostMissing (context : pystr)
| UsingSettings (host model : pystr) (summary_length : Z) (allow_repeated : pystr)
| CheckingServer | ServerOk | CannotConnect (host : pystr)
| CheckingModel (model : pystr) | ModelAvailable (model : pystr)
| ModelNotFound (model : pystr) (available : list pystr) | ModelCheckError
| CheckingLoaded | NoneLoaded | FoundLoaded (models : list pystr)
| Unloading (model : pystr) (ok : bool)
| UnloadFailed (errors : nat) | AllUnloaded | UnloadError
| CacheFileIs
| SkippingRepeatCheck | CacheAge (hours : Q)
| UsingCached | RefreshingExpired | FetchingNew | FetchError
| Generating | SendingRequest | InvalidResponse | ApiFailed
| EmptySummaryWarning
| SummaryLength (length : nat) (target : Z)
| ExceededWarning (target : Z) (length : nat).

Record pstate : Type := {
  st_cache : option (Q * pystr);   (* the cache file of the URL: mtime, text *)
  st_reqs : nat;                   (* HTTP requests issued so far *)
  st_reads : nat;                  (* clock readings so far *)
  st_trace : list event;
  st_out : list pystr;             (* lines printed on standard output *)
  st_err : list diag
}.

Definition init_state (cache : option (Q * pystr)) : pstate :=
  {| st_cache := cache; st_reqs := 0; st_reads := 0;
     st_trace := []; st_out := []; st_err := [] |}.

(** ** Programs that may call [sys.exit] *)

Inductive outcome (A : Type) : Type :=
| Done (a : A)
| Exited (code : Z).
Arguments Done {A} a.
Arguments Exited {A} code.

Definition prog (A : Type) : Type := pstate -> outcome A * pstate.

Definition ret {A} (a : A) : prog A := fun st => (Done a, st).

Definition bind {A B} (m : prog A) (f : A -> prog B) : prog B :=
  fun st =>
    match m st with
    | (Done a, st') => f a st'
    | (Exited code, st') => (Exited code, st')
    end.

Definition sys_exit {A} (code : Z) : prog A := fun st => (Exited code, st).

Declare Scope prog_scope.
Delimit Scope prog_scope with prog.
Notation "x <- m ;; k" := (bind m (fun x => k))
  (at level 61, m at next level, right associativity) : prog_scope.
Notation "m ;; k" := (bind m (fun _ => k))
  (at level 61, right associativity) : prog_scope.
Local Open Scope prog_scope.

Definition say (d : diag) : prog unit :=
  fun st => (Done tt,
             {| st_cache := st_cache st; st_reqs := st_reqs st;
                st_reads := st_reads st; st_trace := st_trace st;
                st_out := st_out st; st_err := st_err st ++ [d] |}).

Definition print (line : pystr) : prog unit :=
  fun st => (Done tt,
             {| st_cache := st_cache st; st_reqs := st_reqs st;
                st_reads := st_reads st; st_trace := st_trace st;
                st_out := st_out st ++ [line]; st_err := st_err st |}).

(** Issue an HTTP request: log it and take the world's next answer. *)
Definition request {A} (e : event) (answer : nat -> A) : prog A :=
  fun st => (Done (answer (st_reqs st)),
             {| st_cache := st_cache st; st_reqs := S (st_reqs st);
                st_reads := st_reads st; st_trace := st_trace st ++ [e];
                st_out := st_out st; st_err := st_err st |}).

Definition cache_stat : prog (option (Q * pystr)) :=
  fun st => (Done (st_cache st), st).

Definition cache_read_text (text : pystr) : prog pystr :=
  fun st => (Done text,
             {| st_cache := st_cache st; st_reqs := st_reqs st;
                st_reads := st_reads st; st_trace := st_trace st ++ [CacheRead];
                st_out := st_out st; st_err := st_err st |}).

Section Run.
Variable w : world.

(** [time.time()]. *)
Definition clock : prog Q :=
  fun st => (Done (w_time w (st_reads st)),
             {| st_cache := st_cache st; st_reqs := st_reqs st;
                st_reads := S (st_reads st); st_trace := st_trace st;
                st_out := st_out st; st_err := st_err st |}).

(** [cache_file.write_text(text)]: the file's modification time becomes
    the current time. *)
Definition cache_write_text (text : pystr) : prog unit :=
  fun st => (Done tt,
             {| st_cache := Some (w_time w (st_reads st), text);
                st_reqs := st_reqs st; st_reads := S (st_reads st);
                st_trace := st_trace st ++ [CacheWrite text];
                st_out := st_out st; st_err := st_err st |}).

Definition is_empty (A : Type) (s : list A) : bool :=
  match s with [] => true | _ => false end.

(** The freshness test of lines 178 and 197:
    [(current_time - file_mtime) / 3600 < 24]. *)
Definition cache_age_hours (current_time file_mtime : Q) : Q :=
  ((current_time - file_mtime) / 3600)%Q.

Definition Qltb (x y : Q) : bool := negb (Qle_bool y x).

Definition REPEATED : pystr := py "REPEATED".
Definition FALLBACK : pystr := py "[Error: No summary generated]".

Definition validate_ollama_host (host context : pystr) : prog unit :=
  if is_empty host
  then say (HostMissing context) ;; sys_exit 1
  else ret tt.

Definition check_ollama_server (host : pystr) : prog unit :=
  validate_ollama_host host (py "check_ollama_server") ;;
  say CheckingServer ;;
  r <- request (GetTags host) (fun n => w_tags w n host) ;;
  match r with
  | Some _ => say ServerOk
  | None => say (CannotConnect host) ;; sys_exit 1
  end.

Definition check_model_available (host model : pystr) : prog unit :=
  validate_ollama_host host (py "check_model_available") ;;
  say (CheckingModel model) ;;
  r <- request (GetTags host) (fun n => w_tags w n host) ;;
  match r with
  | Some models =>
      if negb (existsb (fun m => str_eqb m model) models)
      then say (ModelNotFound model models) ;; sys_exit 1
      else say (ModelAvailable model)
  | None => say ModelCheckError ;; sys_exit 1
  end.

(** The loop of lines 116 to 135; returns [unload_errors]. *)
Fixpoint unload_each (host : pystr) (models : list pystr) (errors : nat)
  : prog nat :=
  match models with
  | [] => ret errors
  | model_name :: rest =>
      ok <- request (PostUnload host model_name)
                    (fun n => w_unload w n host model_name) ;;
      if ok then
        r <- request (GetPs host) (fun n => w_ps w n host) ;;
        match r with
        | Some still =>
            if existsb (fun m => str_eqb m model_name) still
            then say (Unloading model_name false) ;;
                 unload_each host rest (S errors)
            else say (Unloading model_name true) ;;
                 unload_each host rest errors
        | None => say (Unloading model_name false) ;;
                  unload_each host rest (S errors)
        end
      else say (Unloading model_name false) ;;
           unload_each host rest (S errors)
  end.

Definition unload_ollama_models (host : pystr) : prog unit :=
  validate_ollama_host host (py "unload_ollama_models") ;;
  say CheckingLoaded ;;
  r <- request (GetPs host) (fun n => w_ps w n host) ;;
  match r with
  | Some models =>
      if is_empty models then say NoneLoaded
      else
        say (FoundLoaded models) ;;
        unload_errors <- unload_each host models 0 ;;
        if (0 <? unload_errors)%nat
        then say (UnloadFailed unload_errors)
        else say AllUnloaded
  | None => say UnloadError
  end.

(** The cache directory and the MD5 name of the file are not modelled:
    a run has one URL, hence one cache file, held in [st_cache]. *)
Definition get_cache_file (url : pystr) : prog unit := say CacheFileIs.

Definition check_repeated_content (allow_repeated : pystr)
  : prog (option pystr) :=
  if str_eqb allow_repeated REPEATED
  then say SkippingRepeatCheck ;; ret None
  else
    f <- cache_stat ;;
    match f with
    | Some (file_mtime, _) =>
        current_time <- clock ;;
        let age := cache_age_hours current_time file_mtime in
        say (CacheAge age) ;;
        if Qltb age 24 then ret (Some REPEATED) else ret None
    | None => ret None
    end.

(** Lines 202 to 218. *)
Definition fetch_new_content (url : pystr) : prog pystr :=
  say FetchingNew ;;
  r <- request (HttpGet url) (fun n => w_page w n url) ;;
  match r with
  | Some text =>
      let text := strip (sub re_spaces [SPACE] text) in
      cache_write_text text ;;
      ret text
  | None => say FetchError ;; sys_exit 1
  end.

Definition fetch_article_content (url : pystr) : prog pystr :=
  f <- cache_stat ;;
  match f with
  | Some (file_mtime, cached) =>
      current_time <- clock ;;
      let age := cache_age_hours current_time file_mtime in
      say (CacheAge age) ;;
      if Qltb age 24
      then say UsingCached ;; cache_read_text cached
      else say RefreshingExpired ;; fetch_new_content url
  | None => fetch_new_content url
  end.

Definition generate_summary (host model prompt content : pystr) : prog pystr :=
  validate_ollama_host host (py "generate_summary") ;;
  let full_prompt := prompt ++ [NL; NL] ++ content in
  say Generating ;;
  say SendingRequest ;;
  r <- request (PostGenerate host model full_prompt)
               (fun n => w_generate w n host model full_prompt) ;;
  match r with
  | Some (Some (c :: result)) => ret (clean_text (c :: result))
  | Some _ => say InvalidResponse ;; sys_exit 1      (* if not result *)
  | None => say ApiFailed ;; sys_exit 1
  end.

(** The prompt of lines 286 to 296. *)
Definition summary_prompt (summary_length : Z) : pystr :=
  let n := str_of_Z summary_length in
  py "Respond ONLY with the " ++ n
  ++ py "-character summary. No thinking output. Summary: "
  ++ py "Provide a **strictly " ++ n
  ++ py "-character** summary of this article. "
  ++ py "Structure: [Main Event] - [Key Detail] - [Outcome]. "
  ++ py "Example: " ++ [34%N]
  ++ py "Israel approves new Gaza offensive amid ceasefire talks; military plans phased operations while US seeks deal."
  ++ [34%N] ++ py " "
  ++ py "**Rules:** "
  ++ py "1. **EXACTLY " ++ n ++ py " chars** (count precisely). "
  ++ py "2. **No incomplete words** (truncate mid-sentence if needed). "
  ++ py "3. **No sources, dates, or author names.** "
  ++ py "4. **If over limit, rewrite shorter.**".

(** The command line after the arity check of line 253 and [int()] of
    line 260; the last three arguments are optional. *)
Record args : Type := {
  arg_host : pystr;
  arg_url : pystr;
  arg_model : option pystr;
  arg_length : option Z;
  arg_repeated : option pystr
}.

Definition ollama_model (a : args) : pystr :=
  match arg_model a with Some m => m | None => py "qwen3:1.7b" end.
Definition summary_length (a : args) : Z :=
  match arg_length a with Some n => n | None => 257%Z end.
Definition allow_repeated (a : args) : pystr :=
  match arg_repeated a with Some r => r | None => py "no" end.

(** Lines 263 to 299: everything up to the cleaned summary.  A fresh
    cache entry ends the run at line 277. *)
Definition summarize (a : args) : prog pystr :=
  say (UsingSettings (arg_host a) (ollama_model a) (summary_length a)
         (allow_repeated a)) ;;
  check_ollama_server (arg_host a) ;;
  check_model_available (arg_host a) (ollama_model a) ;;
  get_cache_file (arg_url a) ;;
  repeated_result <- check_repeated_content (allow_repeated a) ;;
  match repeated_result with
  | Some (c :: r) => print (c :: r) ;; sys_exit 0
  | _ =>
      unload_ollama_models (arg_host a) ;;
      content <- fetch_article_content (arg_url a) ;;
      generate_summary (arg_host a) (ollama_model a)
        (summary_prompt (summary_length a)) content
  end.

(** Lines 301 to 317: fallback, length report, output and exit status. *)
Definition emit_summary (a : args) (summary : pystr) : prog unit :=
  summary <- (if is_empty summary || is_empty (strip summary)
              then say EmptySummaryWarning ;; ret FALLBACK
              else ret summary) ;;
  let length := List.length summary in
  say (SummaryLength length (summary_length a)) ;;
  (if (summary_length a <? Z.of_nat length)%Z
   then say (ExceededWarning (summary_length a) length)
   else ret tt) ;;
  print summary ;;
  unload_ollama_models (arg_host a) ;;
  sys_exit (if negb (startswith (py "[Error") summary) then 0 else 1)%Z.

Definition main (a : args) : prog unit :=
  summary <- summarize a ;;
  emit_summary a summary.

End Run.

(** A run from a given state of the cache file. *)
Definition run_main (w : world) (a : args) (cache : option (Q * pystr))
  : outcome unit * pstate :=
  main w a (init_state cache).

Definition exit_status {A} (r : outcome A * pstate) : option Z :=
  match fst r with Exited code => Some code | Done _ => None end.

(** A step is [silent] when, if it returns, it has printed nothing. *)
Definition silent {A} (m : prog A) : Prop :=
  forall st a st', m st = (Done a, st') -> st_out st' = st_out st.


(** Events that reach outside the inference server's model listing. *)
Definition is_fetch (e : event) : bool :=
  match e with HttpGet _ => true | _ => false end.
Definition is_generate (e : event) : bool :=
  match e with PostGenerate _ _ _ => true | _ => false end.
Definition is_unload (e : event) : bool :=
  match e with GetPs _ | PostUnload _ _ => true | _ => false end.
Definition is_cache_write (e : event) : bool :=
  match e with CacheWrite _ => true | _ => false end.
Definition is_fallback_warning (d : diag) : bool :=
  match d with EmptySummaryWarning => true | _ => false end.

(** A world whose answers do not change during the run: the clock
    stands at [now], the server lists [models] and has none resident, every
    page reads [page] and every generation answers [answer]. *)
Definition steady_world (now : Q) (models : list pystr) (page : option pystr)
           (answer : option (option pystr)) : world :=
  {| w_time := fun _ => now;
     w_tags := fun _ _ => Some models;
     w_ps := fun _ _ => Some [];
     w_unload := fun _ _ _ => true;
     w_generate := fun _ _ _ _ => answer;
     w_page := fun _ _ => page |}.

Definition sample_args (repeated : option pystr) : args :=
  {| arg_host := py "localhost:11434";
     arg_url := py "https://example.org/news";
     arg_model := Some (py "qwen3:1.7b");
     arg_length := Some 257%Z;
     arg_repeated := repeated |}.

End Processor.

(* ===================================================================== *)
(** * The benchmark driver: [llmbench.main] *)
(* ===================================================================== *)

Module Bench.

(** Times are exact rationals, and [mean] is their arithmetic mean:
    what [np.mean] gives when float64 does not round.  [Numeric] has the
    statistics with the functions of numpy left open. *)
Definition Qsum (xs : list Q) : Q := fold_right Qplus 0%Q xs.
Definition Qlen (xs : list Q) : Q := inject_Z (Z.of_nat (List.length xs)).
Definition mean (xs : list Q) : Q := Qred (Qsum xs / Qlen xs).

(** [np.std(xs) ** 2]: the population variance. *)
Definition variance (xs : list Q) : Q :=
  let m := mean xs in
  Qred (Qsum (List.map (fun x => (x - m) * (x - m))%Q xs) / Qlen xs).

(** The value read back from the text [f"{t:.2f}"]: [t] rounded to two
    decimals, ties to even. *)
Definition round2 (t : Q) : Q :=
  let n := (Qnum t * 100)%Z in
  let d := Zpos (Qden t) in
  let f := (n / d)%Z in
  let r := (n mod d)%Z in
  let k := if (2 * r <? d)%Z then f
           else if (d <? 2 * r)%Z then (f + 1)%Z
           else if Z.even f then f else (f + 1)%Z in
  Qred (k # 100).

(** How [subprocess.run(cmd, capture_output=True, text=True, timeout=300)]
    ends, with the wall-clock time it took. *)
Inductive proc_result : Type :=
| Returned (returncode : Z) (stdout stderr : pystr) (elapsed : Q)
| TimeoutExpired
| Raised (message : pystr) (elapsed : Q).

Record run_result : Type := {
  success : bool;
  summary : option pystr;
  time : Q;
  error : option pystr;
  r_stdout : pystr;
  r_stderr : pystr
}.

(** The command line of one run: [./article3.sh host url model length
    REPEATED]. *)
Record command : Type := {
  cmd_host : pystr;
  cmd_url : pystr;
  cmd_model : pystr;
  cmd_length : pystr;
  cmd_flag : pystr
}.

Definition article3_command (host url model : pystr) (summary_length : Z)
  : command :=
  {| cmd_host := host; cmd_url := url; cmd_model := model;
     cmd_length := str_of_Z summary_length; cmd_flag := py "REPEATED" |}.

Definition run_article3_script (p : proc_result) : run_result :=
  match p with
  | Returned returncode stdout stderr elapsed =>
      if (returncode =? 0)%Z
      then {| success := true; summary := Some (strip stdout);
              time := elapsed; error := None;
              r_stdout := stdout; r_stderr := stderr |}
      else {| success := false; summary := None; time := elapsed;
              error := Some (py "Script failed with return code "
                             ++ str_of_Z returncode);
              r_stdout := stdout; r_stderr := stderr |}
  | TimeoutExpired =>
      {| success := false; summary := None; time := 300%Q;
         error := Some (py "Timeout after 300 seconds");
         r_stdout := []; r_stderr := py "Timeout expired" |}
  | Raised message elapsed =>
      {| success := false; summary := None; time := elapsed;
         error := Some (py "Execution error: " ++ message);
         r_stdout := []; r_stderr := message |}
  end.

(** Where a list argument comes from: the lines of a file, or the text
    of the option. *)
Inductive list_source : Type :=
| FromFile (lines : list pystr)
| FromArg (arg : pystr).

Definition parse_list (src : list_source) : list pystr :=
  match src with
  | FromFile lines =>
      List.map strip
        (filter (fun line => negb (Processor.is_empty (strip line))
                             && negb (startswith (py "#") line)) lines)
  | FromArg arg => split_on 44%N arg
  end.

Record bench_args : Type := {
  b_host : pystr;
  b_max_length : Z;
  b_models : list_source;
  b_urls : list_source;
  b_runs : Z
}.

Record bench_world : Type := {
  script_exists : bool;
  script_executable : bool;
  (* age in hours of the cache file of a URL, if it exists *)
  cache_age : pystr -> option Q;
  (* how the [n]-th run of the script ends *)
  proc : nat -> command -> proc_result
}.

(** One row of the CSV report. *)
Record row : Type := {
  c_url : pystr;
  c_model : pystr;
  c_run : nat;
  c_time : Q;
  c_success : bool;
  c_summary_length : nat;
  c_target_length : Z;
  c_length_match : bool;
  c_cache_used : bool;
  c_cache_age : Q;
  c_error : pystr;
  c_summary : pystr
}.

Definition or_empty (s : option pystr) : pystr :=
  match s with Some x => x | None => [] end.

(** Line 207. *)
Definition summary_excerpt (s : option pystr) : pystr :=
  match s with
  | Some (c :: x) =>
      if (100 <? List.length (c :: x))%nat
      then firstn 100 (c :: x) ++ py "..."
      else c :: x
  | _ => or_empty s
  end.

Definition make_row (a : bench_args) (url model : pystr) (run : nat)
           (cache : option Q) (result : run_result) : row :=
  let summary_length :=
    if success result
    then match summary result with
         | Some s => List.length s
         | None => 0%nat
         end
    else 0%nat in
  let length_match :=
    if success result then (Z.of_nat summary_length <=? b_max_length a)%Z
    else false in
  {| c_url := url; c_model := model; c_run := S run;
     c_time := round2 (time result);
     c_success := success result;
     c_summary_length := summary_length;
     c_target_length := b_max_length a;
     c_length_match := length_match;
     c_cache_used := match cache with Some _ => true | None => false end;
     c_cache_age := match cache with
                    | Some age => if Qeq_bool age 0 then 0%Q else age
                    | None => 0%Q
                    end;
     c_error := or_empty (error result);
     c_summary := summary_excerpt (summary result) |}.

(** The line printed after the runs of one (url, model) pair. *)
Record pair_stats : Type := {
  mean_time : Q;
  var_time : Q;                  (* the square of the printed std_time *)
  successful_runs : nat;
  total_runs : Z
}.

(** What the driver has done so far. *)
Record sweep : Type := {
  issued : list command;                            (* runs started *)
  rows : list row;                                  (* rows written *)
  stats : list (pystr * pystr * option pair_stats)  (* url, model, stats line *)
}.

Definition empty_sweep : sweep := {| issued := []; rows := []; stats := [] |}.

(** Lines 169 to 209: the runs of one (url, model) pair.  [results]
    collects the result of each run, in order. *)
Fixpoint run_pair (w : bench_world) (a : bench_args) (url model : pystr)
         (cache : option Q) (todo run : nat) (sw : sweep)
         (results : list run_result) : sweep * list run_result :=
  match todo with
  | O => (sw, results)
  | S todo' =>
      let cmd := article3_command (b_host a) url model (b_max_length a) in
      let result := run_article3_script (proc w (List.length (issued sw)) cmd) in
      run_pair w a url model cache todo' (S run)
        {| issued := issued sw ++ [cmd];
           rows := rows sw ++ [make_row a url model run cache result];
           stats := stats sw |}
        (results ++ [result])
  end.

Definition last_result (results : list run_result) : option run_result :=
  match rev results with
  | r :: _ => Some r
  | [] => None
  end.

(** Lines 211 to 217.  In the comprehension
    [[times[i] for i in range(len(times)) if result['success']]] the
    name [result] is the variable of the loop above: the last run. *)
Definition pair_statistics (a : bench_args) (results : list run_result)
  : option pair_stats :=
  let times := List.map time results in
  let successful_runs := List.length (filter success results) in
  if (0 <? successful_runs)%nat then
    match last_result results with
    | Some result =>
        let successful_times :=
          List.map (fun i => nth i times 0%Q)
            (filter (fun _ => success result) (seq 0 (List.length times))) in
        if negb (Processor.is_empty successful_times)
        then Some {| mean_time := mean successful_times;
                     var_time := if (1 <? List.length successful_times)%nat
                                 then variance successful_times else 0%Q;
                     successful_runs := successful_runs;
                     total_runs := b_runs a |}
        else None
    | None => None
    end
  else None.

Definition sweep_models (w : bench_world) (a : bench_args) (url : pystr)
           (models : list pystr) (sw : sweep) : sweep :=
  fold_left
    (fun sw model =>
       let (sw', results) :=
         run_pair w a url model (cache_age w url) (Z.to_nat (b_runs a)) 0 sw []
       in {| issued := issued sw'; rows := rows sw';
             stats := stats sw' ++ [(url, model, pair_statistics a results)] |})
    models sw.

Definition sweep_urls (w : bench_world) (a : bench_args)
           (urls models : list pystr) : sweep :=
  fold_left (fun sw url => sweep_models w a url models sw) urls empty_sweep.

(** Lines 224 to 243: the rows are read back and grouped in a
    dictionary keyed by (model, url); a dictionary keeps its keys in
    order of insertion.  Here the rows are taken as they were written;
    [Numeric.summary_lines] reads them back first. *)
Definition key_eqb (k1 k2 : pystr * pystr) : bool :=
  str_eqb (fst k1) (fst k2) && str_eqb (snd k1) (snd k2).

Fixpoint group_add (key : pystr * pystr) (t : Q)
         (groups : list (pystr * pystr * list Q))
  : list (pystr * pystr * list Q) :=
  match groups with
  | [] => [(key, [t])]
  | (k, ts) :: rest =>
      if key_eqb k key then (k, ts ++ [t]) :: rest
      else (k, ts) :: group_add key t rest
  end.

Definition model_stats (rs : list row) : list (pystr * pystr * list Q) :=
  fold_left
    (fun groups r =>
       if c_success r then group_add (c_model r, c_url r) (c_time r) groups
       else groups)
    rs [].

(** One line of the final view: model, url, average time, number of runs. *)
Definition summary_view (rs : list row) : list (pystr * pystr * Q * nat) :=
  List.map (fun g => (fst g, mean (snd g), List.length (snd g)))
    (filter (fun g => negb (Processor.is_empty (snd g))) (model_stats rs)).

Inductive bench_error : Type :=
| ScriptNotFound | ScriptNotExecutable | NoValidModels | NoUrls.

(** [main] prints an error and returns 1, or runs the whole sweep. *)
Inductive bench_outcome : Type :=
| Refused (e : bench_error)
| Completed (sw : sweep) (view : list (pystr * pystr * Q * nat)).

Definition EMBEDDING : pystr := py "-embedding".

(** Line 123. *)
Definition selected_models (a : bench_args) : list pystr :=
  filter (fun m => negb (Processor.is_empty m) && negb (contains EMBEDDING m))
    (parse_list (b_models a)).

Definition main (w : bench_world) (a : bench_args) : bench_outcome :=
  if negb (script_exists w) then Refused ScriptNotFound
  else if negb (script_executable w) then Refused ScriptNotExecutable
  else
    let models := selected_models a in
    let urls := parse_list (b_urls a) in
    if Processor.is_empty models then Refused NoValidModels
    else if Processor.is_empty urls then Refused NoUrls
    else
      let sw := sweep_urls w a urls models in
      Completed sw (summary_view (rows sw)).

Definition runs_started (o : bench_outcome) : list command :=
  match o with Completed sw _ => issued sw | Refused _ => [] end.
Definition rows_written (o : bench_outcome) : list row :=
  match o with Completed sw _ => rows sw | Refused _ => [] end.
Definition stats_printed (o : bench_outcome)
  : list (pystr * pystr * option pair_stats) :=
  match o with Completed sw _ => stats sw | Refused _ => [] end.
Definition final_view (o : bench_outcome) : list (pystr * pystr * Q * nat) :=
  match o with Completed _ view => view | Refused _ => [] end.

(** The runs the sweep is meant to make: every URL, every model, the
    configured number of times. *)
Definition planned_commands (a : bench_args) (urls models : list pystr)
  : list command :=
  flat_map
    (fun url =>
       flat_map
         (fun model =>
            repeat (article3_command (b_host a) url model (b_max_length a))
                   (Z.to_nat (b_runs a)))
         models)
    urls.

(** A run that did not end with return code 0. *)
Definition failed (p : proc_result) : bool :=
  match p with
  | Returned returncode _ _ _ => negb (returncode =? 0)%Z
  | TimeoutExpired | Raised _ _ => true
  end.

(** The statistic the specification describes: over the elapsed times
    of the successful runs only. *)
Definition successful_times_spec (results : list run_result) : list Q :=
  List.map time (filter success results).

(** Row [r] is the record of the [n]-th run, started with [cmd]. *)
Definition row_records (w : bench_world) (n : nat) (cmd : command) (r : row)
  : Prop :=
  c_url r = cmd_url cmd /\ c_model r = cmd_model cmd
  /\ c_success r = success (run_article3_script (proc w n cmd))
  /\ c_error r = or_empty (error (run_article3_script (proc w n cmd))).

(** Every run started has its row, in order. *)
Definition recorded (w : bench_world) (cmds : list command) (rs : list row)
  : Prop :=
  List.length rs = List.length cmds
  /\ forall n cmd, nth_error cmds n = Some cmd ->
       exists r, nth_error rs n = Some r /\ row_records w n cmd r.

(** A world with a runnable script and no cache, whose runs end as
    [outcomes] tells, in order, and succeed in one second afterwards. *)
Definition scripted_world (outcomes : list proc_result) : bench_world :=
  {| script_exists := true; script_executable := true;
     cache_age := fun _ => None;
     proc := fun n _ => nth n outcomes (Returned 0 (py "late summary") [] 1%Q) |}.

Definition sample_bench (models : pystr) (runs : Z) : bench_args :=
  {| b_host := py "localhost:11434"; b_max_length := 257%Z;
     b_models := FromArg models;
     b_urls := FromArg (py "https://example.org/news");
     b_runs := runs |}.

End Bench.

(* ===================================================================== *)
(** * Further vocabulary *)
(* ===================================================================== *)

Module MoreSpec.
Import Re Cleaner CleanSpec.

(** [s] begins with characters of the classes [ps], in order. *)
Fixpoint prefix_cls (ps : list (char -> bool)) (s : pystr) : bool :=
  match ps, s with
  | [], _ => true
  | p :: ps', c :: s' => p c && prefix_cls ps' s'
  | _ :: _, [] => false
  end.

(** The word "think" occurs in [s], in some letter case. *)
Fixpoint mentions_think (s : pystr) : bool :=
  prefix_cls (List.map lit_ci (py "think")) s
  || match s with
     | [] => false
     | _ :: s' => mentions_think s'
     end.

(** A text without markup: it holds no [<] and nowhere the word "think",
    in any letter case.  Every pattern of lines 31 to 33 needs one of the
    two. *)
Definition markup_free (s : pystr) : Prop :=
  Forall (fun c => one 60 c = false) s /\ mentions_think s = false.

(** The pattern has no [^]. *)
Fixpoint no_bol (r : regex) : bool :=
  match r with
  | Bol => false
  | Cat r1 r2 | Alt r1 r2 => no_bol r1 && no_bol r2
  | _ => true
  end.

(** A reasoning block with tags written without inner spaces:
    [<w1>body</w2>]. *)
Definition think_block (w1 body w2 : pystr) : pystr :=
  [60%N] ++ w1 ++ [62%N] ++ body ++ [60%N; 47%N] ++ w2 ++ [62%N].

(** The words of [s] (its maximal runs of characters that are not
    whitespace) separated by single spaces, in one pass: [started] tells
    that a word has been written, [pending] that whitespace has been read
    since. *)
Fixpoint squeeze (pending started : bool) (s : pystr) : pystr :=
  match s with
  | [] => []
  | c :: s' =>
      if py_isspace c then squeeze started started s'
      else (if pending then [SPACE; c] else [c]) ++ squeeze false true s'
  end.

(** [sep.join(parts)]. *)
Fixpoint join (sep : pystr) (parts : list pystr) : pystr :=
  match parts with
  | [] => []
  | [p] => p
  | p :: ps => p ++ sep ++ join sep ps
  end.

(** A step [fails_quietly] when it can stop the run only with status
    1 and without having printed anything. *)
Definition fails_quietly {A} (m : Processor.prog A) : Prop :=
  forall st code st',
    m st = (Processor.Exited code, st') ->
    code = 1%Z /\ Processor.st_out st' = Processor.st_out st.

(** The models for which a trace holds an unload request, in order. *)
Definition unload_posts (tr : list Processor.event) : list pystr :=
  flat_map (fun e => match e with
                     | Processor.PostUnload _ model => [model]
                     | _ => []
                     end) tr.

Definition ERROR_PREFIX : pystr := py "[Error".

(** The events of a trace other than those of unloading. *)
Definition besides_unloading (tr : list Processor.event) : list Processor.event :=
  filter (fun e => negb (Processor.is_unload e)) tr.

(** From [st] to [st'] the events [tr] happened, after [reqs] requests
    and [reads] readings of the clock, and neither the cache file nor
    standard output changed. *)
Definition advances (st st' : Processor.pstate) (tr : list Processor.event)
           (reqs reads : nat) : Prop :=
  Processor.st_trace st' = Processor.st_trace st ++ tr
  /\ Processor.st_reqs st' = Processor.st_reqs st + reqs
  /\ Processor.st_reads st' = Processor.st_reads st + reads
  /\ Processor.st_cache st' = Processor.st_cache st
  /\ Processor.st_out st' = Processor.st_out st.

(** What identifies a row of the report: URL, model and run number. *)
Definition row_key (r : Bench.row) : pystr * pystr * nat :=
  (Bench.c_url r, Bench.c_model r, Bench.c_run r).

(** The rows a sweep is meant to write: URL by URL, model by model, the
    runs numbered from 1. *)
Definition planned_keys (a : Bench.bench_args) (urls models : list pystr)
  : list (pystr * pystr * nat) :=
  flat_map
    (fun url =>
       flat_map
         (fun model =>
            List.map (fun i => (url, model, S i))
              (seq 0 (Z.to_nat (Bench.b_runs a))))
         models)
    urls.

(** The columns of a row agree with each other. *)
Definition row_ok (a : Bench.bench_args) (r : Bench.row) : Prop :=
  Bench.c_target_length r = Bench.b_max_length a
  /\ 1 <= Bench.c_run r
  /\ List.length (Bench.c_summary r) <= 103
  /\ if Bench.c_success r
     then Bench.c_error r = []
          /\ Bench.c_length_match r
             = (Z.of_nat (Bench.c_summary_length r) <=? Bench.b_max_length a)%Z
     else Bench.c_summary_length r = 0
          /\ Bench.c_length_match r = false
          /\ Bench.c_summary r = []
          /\ Bench.c_error r <> [].

(** The times of the successful rows of a (model, url) pair, in order. *)
Definition times_of (key : pystr * pystr) (rs : list Bench.row) : list Q :=
  List.map Bench.c_time
    (filter (fun r => Bench.c_success r
                      && Bench.key_eqb (Bench.c_model r, Bench.c_url r) key) rs).

(** The list filed under a key in the dictionary of line 232. *)
Fixpoint lookup_times (key : pystr * pystr)
         (groups : list (pystr * pystr * list Q)) : list Q :=
  match groups with
  | [] => []
  | (k, ts) :: rest =>
      if Bench.key_eqb k key then ts else lookup_times key rest
  end.

End MoreSpec.

(* ===================================================================== *)
(** * The statistics as numpy computes them, and the report read back *)
(* ===================================================================== *)

Module Numeric.
Import Bench.

(** Line 225 opens the report without [newline=""], although line 145
    wrote it with it: the text is read with universal newlines, so that CR
    LF and a lone CR come back as LF, also inside a quoted field.
    [after_cr] tells that the character before was a CR. *)
Fixpoint universal_newlines (after_cr : bool) (s : pystr) : pystr :=
  match s with
  | [] => []
  | c :: s' =>
      if chr_eqb c CR then NL :: universal_newlines true s'
      else if chr_eqb c NL && after_cr then universal_newlines false s'
      else c :: universal_newlines false s'
  end.

(** A row as [csv.DictReader] gives it back: the writer quotes a field
    that holds a comma, a quote, a CR or an LF, so that the fields come
    back as written but for the newlines. *)
Definition read_back (r : row) : row :=
  {| c_url := universal_newlines false (c_url r);
     c_model := universal_newlines false (c_model r);
     c_run := c_run r;
     c_time := c_time r;
     c_success := c_success r;
     c_summary_length := c_summary_length r;
     c_target_length := c_target_length r;
     c_length_match := c_length_match r;
     c_cache_used := c_cache_used r;
     c_cache_age := c_cache_age r;
     c_error := universal_newlines false (c_error r);
     c_summary := universal_newlines false (c_summary r) |}.

(** The calls of numpy, left as they are written. *)
Inductive np_call : Type :=
| NpMean (xs : list Q)
| NpStd (xs : list Q).

Section Numpy.

(** [np.mean] and [np.std] compute in float64 and round.  Nothing is
    assumed of them but that their result, a [float], is determined by the
    numbers they are given; these are floats (or the integer 300), taken
    at their exact value. *)
Variable float : Type.
Variables np_mean np_std : list Q -> float.

(** The line printed after the runs of one (url, model) pair, line 217. *)
Record stats_line : Type := {
  line_mean : float;
  line_std : option float;        (* [None]: the integer 0 of line 216 *)
  line_successful : nat;
  line_total : Z
}.

(** Lines 211 to 217. *)
Definition pair_line (a : bench_args) (results : list run_result)
  : option stats_line :=
  let times := List.map time results in
  let successful_runs := List.length (filter success results) in
  if (0 <? successful_runs)%nat then
    match last_result results with
    | Some result =>
        let successful_times :=
          List.map (fun i => nth i times 0%Q)
            (filter (fun _ => success result) (seq 0 (List.length times))) in
        if negb (Processor.is_empty successful_times)
        then Some {| line_mean := np_mean successful_times;
                     line_std := if (1 <? List.length successful_times)%nat
                                 then Some (np_std successful_times) else None;
                     line_successful := successful_runs;
                     line_total := b_runs a |}
        else None
    | None => None
    end
  else None.

(** Lines 224 to 243, on the rows written: they are read back, the
    successful ones are grouped by (model, url), and each group gives one
    line.  The times are the numbers written with two decimals; their
    conversion by [float] is part of [np_mean]. *)
Definition summary_lines (rs : list row) : list (pystr * pystr * float * nat) :=
  List.map (fun g => (fst g, np_mean (snd g), List.length (snd g)))
    (filter (fun g => negb (Processor.is_empty (snd g)))
       (model_stats (List.map read_back rs))).

End Numpy.

(** The line of [Bench.pair_statistics] that a line computed with the
    exact mean and variance stands for. *)
Definition exact_stats (l : stats_line Q) : pair_stats :=
  {| mean_time := line_mean l;
     var_time := match line_std l with Some v => v | None => 0%Q end;
     successful_runs := line_successful l;
     total_runs := line_total l |}.

(** The successful rows of a (model, url) pair as they are read back:
    their times, in order. *)
Definition times_read_back (key : pystr * pystr) (rs : list row) : list Q :=
  MoreSpec.times_of key (List.map read_back rs).

(** No CR in the model or the URL of any row. *)
Definition no_carriage_return (rs : list row) : Prop :=
  Forall (fun r => ~ In CR (c_model r) /\ ~ In CR (c_url r)) rs.

End Numeric.

Unset Implicit Arguments.

Module ReFacts.
Import Re CleanSpec.

Lemma star_greedy_reaches X p (k : cont X) x :
  forall s prev, star_greedy p prev s k = Some x ->
  exists n prev', n <= List.length s /\ k prev' (skipn n s) = Some x.
Proof.
  induction s as [|c s IH]; intros prev H; simpl in H.
  - exists 0, prev. split; [simpl; lia | exact H].
  - destruct (p c).
    + destruct (star_greedy p (Some c) s k) as [y|] eqn:E.
      * inversion H; subst y. destruct (IH _ E) as (n & q & Hn & Hk).
        exists (S n), q. split; [simpl; lia | exact Hk].
      * exists 0, prev. split; [simpl; lia | exact H].
    + exists 0, prev. split; [simpl; lia | exact H].
Qed.

Lemma star_lazy_reaches X p (k : cont X) x :
  forall s prev, star_lazy p prev s k = Some x ->
  exists n prev', n <= List.length s /\ k prev' (skipn n s) = Some x.
Proof.
  induction s as [|c s IH]; intros prev H; simpl in H.
  - destruct (k prev []) as [y|] eqn:E; [|discriminate].
    exists 0, prev. split; [simpl; lia | simpl; congruence].
  - destruct (k prev (c :: s)) as [y|] eqn:E.
    + exists 0, prev. split; [simpl; lia | simpl; congruence].
    + destruct (p c); [|discriminate].
      destruct (IH _ H) as (n & q & Hn & Hk).
      exists (S n), q. split; [simpl; lia | exact Hk].
Qed.

(** A successful match hands to its continuation a suffix of the
    subject, at least [min_len r] characters further on. *)
Lemma rmatch_reaches X r :
  forall prev s (k : cont X) x, rmatch r prev s k = Some x ->
  exists n prev',
    min_len r <= n /\ n <= List.length s /\ k prev' (skipn n s) = Some x.
Proof.
  induction r as [p|p|p| | |r1 IH1 r2 IH2|r1 IH1 r2 IH2];
    intros prev s k x H; simpl in H.
  - destruct s as [|c s]; [discriminate|].
    destruct (p c); [|discriminate].
    exists 1, (Some c). simpl. repeat split; [lia | lia | exact H].
  - destruct (star_greedy_reaches _ _ _ _ _ _ H) as (n & q & Hn & Hk).
    exists n, q. simpl. repeat split; [lia | lia | exact Hk].
  - destruct (star_lazy_reaches _ _ _ _ _ _ H) as (n & q & Hn & Hk).
    exists n, q. simpl. repeat split; [lia | lia | exact Hk].
  - destruct (at_bol prev); [|discriminate].
    exists 0, prev. simpl. repeat split; [lia | lia | exact H].
  - destruct (at_eol s); [|discriminate].
    exists 0, prev. simpl. repeat split; [lia | lia | exact H].
  - destruct (IH1 _ _ _ _ H) as (n1 & q1 & Hm1 & Hn1 & H1).
    destruct (IH2 _ _ _ _ H1) as (n2 & q2 & Hm2 & Hn2 & H2).
    rewrite length_skipn in Hn2. rewrite skipn_skipn in H2.
    exists (n2 + n1), q2. simpl. repeat split; [lia | lia | exact H2].
  - destruct (rmatch r1 prev s k) as [y|] eqn:E.
    + inversion H; subst y.
      destruct (IH1 _ _ _ _ E) as (n & q & Hm & Hn & Hk).
      exists n, q. simpl. repeat split; [lia | lia | exact Hk].
    + destruct (IH2 _ _ _ _ H) as (n & q & Hm & Hn & Hk).
      exists n, q. simpl. repeat split; [lia | lia | exact Hk].
Qed.

Lemma match_len_bounds r prev s n :
  match_len r prev s = Some n -> min_len r <= n /\ n <= List.length s.
Proof.
  unfold match_len. intros H.
  destruct (rmatch_reaches _ _ _ _ _ _ H) as (m & q & Hm & Hn & Hk).
  rewrite length_skipn in Hk. inversion Hk. lia.
Qed.


(** Passing over the rest of a match. *)
Lemma sub_scan_skip r repl :
  forall u v prev,
    sub_scan r repl (List.length u) prev (u ++ v)
    = sub_scan r repl 0 (prev_after prev u) v.
Proof.
  induction u as [|c u IH]; intros v prev; simpl.
  - destruct v; reflexivity.
  - apply IH.
Qed.

(** No match can start on a character outside the first class of the
    pattern. *)
Lemma sub_scan_first_class p r repl :
  forall u v prev,
    Forall (fun c => p c = false) u ->
    sub_scan (Cat (Cls p) r) repl 0 prev (u ++ v)
    = u ++ sub_scan (Cat (Cls p) r) repl 0 (prev_after prev u) v.
Proof.
  induction u as [|c u IH]; intros v prev H; simpl.
  - reflexivity.
  - inversion H; subst. unfold match_len. simpl.
    rewrite H2. f_equal. apply IH; assumption.
Qed.

Lemma sub_scan_nil r repl skip prev : sub_scan r repl skip prev [] = [].
Proof. reflexivity. Qed.

Lemma sub_scan_no_match r repl prev c s :
  match_len r prev (c :: s) = None ->
  sub_scan r repl 0 prev (c :: s) = c :: sub_scan r repl 0 (Some c) s.
Proof. intros H. cbn [sub_scan]. rewrite H. reflexivity. Qed.

Lemma sub_scan_match r repl prev c s n :
  match_len r prev (c :: s) = Some (S n) ->
  sub_scan r repl 0 prev (c :: s) = repl ++ sub_scan r repl n (Some c) s.
Proof. intros H. cbn [sub_scan]. rewrite H. reflexivity. Qed.



End ReFacts.

(* ===================================================================== *)
(** * Facts about [clean_text] *)
(* ===================================================================== *)

Module CleanerFacts.
Import Re Cleaner CleanSpec ReFacts.

(** ** Character classes *)

Ltac bool_to_prop :=
  repeat rewrite ?orb_true_iff, ?andb_true_iff, ?orb_false_iff,
    ?andb_false_iff, ?N.eqb_eq, ?N.eqb_neq, ?N.leb_le, ?N.leb_gt in *.

(** Decide the test [lit_ci] makes on a literal of the pattern. *)
Ltac settle_literals :=
  unfold lit_ci in *;
  repeat match goal with
    | |- context [if ?b then _ else _] =>
        let v := eval vm_compute in b in
        match v with true => idtac | false => idtac end;
        change b with v; cbv iota beta
    | H : context [if ?b then _ else _] |- _ =>
        let v := eval vm_compute in b in
        match v with true => idtac | false => idtac end;
        change b with v in H; cbv iota beta in H
    end.

Ltac class_fact :=
  settle_literals;
  unfold blank, dot_or_space, ci, one, any_char, chr_eqb, py_isspace,
    SPACE, TAB, NL, CR in *;
  cbv beta in *; bool_to_prop; lia.

Lemma isspace_SPACE : py_isspace SPACE = true.
Proof. reflexivity. Qed.

Lemma blank_isspace c : blank c = true -> py_isspace c = true.
Proof. intros H. class_fact. Qed.

Lemma not_space_not_blank c : py_isspace c = false -> blank c = false.
Proof.
  intros H. destruct (blank c) eqn:E; [|reflexivity].
  apply blank_isspace in E. congruence.
Qed.

Lemma not_space_not_NL c : py_isspace c = false -> chr_eqb c NL = false.
Proof. intros H. class_fact. Qed.

(** ** Generalities on [strip] *)

Lemma drop_while_suffix p s : exists a, s = a ++ drop_while p s.
Proof.
  induction s as [|c s [a IH]]; simpl.
  - exists []. reflexivity.
  - destruct (p c).
    + exists (c :: a). simpl. f_equal. exact IH.
    + exists []. reflexivity.
Qed.

Lemma drop_while_head s : starts_clean (drop_while py_isspace s).
Proof.
  induction s as [|c s IH]; simpl; [exact I|].
  destruct (py_isspace c) eqn:E; [exact IH | exact E].
Qed.

Lemma drop_while_clean s : starts_clean s -> drop_while py_isspace s = s.
Proof. destruct s as [|c s]; simpl; [reflexivity|]. intros ->. reflexivity. Qed.

Lemma rstrip_prefix u : exists b, u = rstrip u ++ b.
Proof.
  unfold rstrip. destruct (drop_while_suffix py_isspace (rev u)) as [a E].
  exists (rev a). rewrite <- rev_app_distr, <- E. symmetry. apply rev_involutive.
Qed.

Lemma rstrip_no_trailing u : no_trailing_space (rstrip u).
Proof.
  unfold rstrip. intros c s' E.
  apply (f_equal (@rev char)) in E.
  rewrite rev_involutive, rev_app_distr in E. simpl in E.
  pose proof (drop_while_head (rev u)) as H. rewrite E in H. exact H.
Qed.

Lemma strip_infix t : exists a b, t = a ++ strip t ++ b.
Proof.
  unfold strip, lstrip.
  destruct (drop_while_suffix py_isspace t) as [a Ea].
  destruct (rstrip_prefix (drop_while py_isspace t)) as [b Eb].
  exists a, b. rewrite <- Eb. exact Ea.
Qed.

Lemma strip_starts_clean t : starts_clean (strip t).
Proof.
  unfold strip, lstrip.
  pose proof (drop_while_head t) as H.
  destruct (rstrip_prefix (drop_while py_isspace t)) as [b Eb].
  destruct (rstrip (drop_while py_isspace t)) as [|c r]; [exact I|].
  rewrite Eb in H. exact H.
Qed.

Lemma strip_no_trailing t : no_trailing_space (strip t).
Proof. apply rstrip_no_trailing. Qed.

Lemma no_trailing_rev_clean s : no_trailing_space s -> starts_clean (rev s).
Proof.
  intros H. destruct (rev s) as [|c r] eqn:E; [exact I|].
  apply (H c (rev r)).
  rewrite <- (rev_involutive s), E. reflexivity.
Qed.

Lemma strip_fixed s : starts_clean s -> no_trailing_space s -> strip s = s.
Proof.
  intros H1 H2. unfold strip, lstrip, rstrip.
  rewrite (drop_while_clean _ H1).
  rewrite (drop_while_clean _ (no_trailing_rev_clean _ H2)).
  apply rev_involutive.
Qed.


(** ** The whitespace collapse *)

Lemma run_drop p s : run p s + List.length (drop_while p s) = List.length s.
Proof.
  induction s as [|c s IH]; simpl; [reflexivity|].
  destruct (p c); simpl; lia.
Qed.

Lemma star_greedy_total p (f : pystr -> nat) :
  forall s prev,
    star_greedy p prev s (fun _ rest => Some (f rest)) = Some (f (drop_while p s)).
Proof.
  induction s as [|c s IH]; intros prev; simpl; [reflexivity|].
  destruct (p c); [rewrite IH|]; reflexivity.
Qed.

Lemma match_len_spaces prev c s :
  match_len re_spaces prev (c :: s)
  = if py_isspace c then Some (S (run py_isspace s)) else None.
Proof.
  unfold match_len, re_spaces, Plus.
  change (rmatch (Cat (Cls py_isspace) (Star py_isspace)) prev (c :: s)
            (fun _ rest => Some (List.length (c :: s) - List.length rest)))
    with (if py_isspace c
          then star_greedy py_isspace (Some c) s
                 (fun _ rest => Some (List.length (c :: s) - List.length rest))
          else None).
  destruct (py_isspace c); [|reflexivity].
  rewrite (star_greedy_total py_isspace
             (fun rest => List.length (c :: s) - List.length rest)).
  f_equal. pose proof (run_drop py_isspace s).
  change (List.length (c :: s)) with (S (List.length s)). lia.
Qed.

Lemma sub_spaces_collapse :
  forall s prev,
    sub_scan re_spaces [SPACE] 0 prev s = collapse false s
    /\ sub_scan re_spaces [SPACE] (run py_isspace s) prev s = collapse true s.
Proof.
  induction s as [|c s IH]; intros prev; [split; reflexivity|].
  assert (E0 : sub_scan re_spaces [SPACE] 0 prev (c :: s) = collapse false (c :: s)).
  { cbn [sub_scan collapse]. rewrite match_len_spaces.
    destruct (py_isspace c).
    - simpl. f_equal. apply IH.
    - f_equal. apply IH. }
  split; [exact E0|].
  cbn [run]. destruct (py_isspace c) eqn:E.
  - cbn [sub_scan collapse]. rewrite E. apply IH.
  - rewrite E0. cbn [collapse]. rewrite E. reflexivity.
Qed.

Lemma collapse_spaced : forall s b, spaced b (collapse b s).
Proof.
  induction s as [|c s IH]; intros b; simpl; [exact I|].
  destruct (py_isspace c) eqn:E.
  - destruct b; [apply IH|].
    cbn [spaced]. rewrite isspace_SPACE. repeat split. apply IH.
  - simpl. rewrite E. apply IH.
Qed.


Lemma spaced_weaken s : spaced true s -> spaced false s.
Proof.
  destruct s as [|c s]; simpl; [auto|].
  destruct (py_isspace c); [|auto]. intros (_ & H & _). discriminate.
Qed.

Lemma spaced_suffix a : forall s b, spaced b (a ++ s) -> spaced false s.
Proof.
  induction a as [|c a IH]; intros s b H; simpl in H.
  - destruct b; [apply spaced_weaken|]; exact H.
  - destruct (py_isspace c); [destruct H as (_ & _ & H)|]; eauto.
Qed.

Lemma spaced_prefix a : forall s b, spaced b (s ++ a) -> spaced b s.
Proof.
  induction s as [|c s IH]; intros b H; simpl in *; [exact I|].
  destruct (py_isspace c); [|eauto].
  destruct H as (H1 & H2 & H3). repeat split; eauto.
Qed.

Lemma no_trailing_tail c s :
  s <> [] -> no_trailing_space (c :: s) -> no_trailing_space s.
Proof.
  intros _ H d s' E. apply (H d (c :: s')). rewrite E. reflexivity.
Qed.

Lemma spaced_inner : forall s b,
  spaced b s -> no_trailing_space s -> inner_spaces s.
Proof.
  induction s as [|c s IH]; intros b H T; simpl in *; [exact I|].
  destruct (py_isspace c) eqn:E.
  - destruct H as (H1 & H2 & H3). split; [exact H1|].
    destruct s as [|d s].
    + exfalso. specialize (T c [] eq_refl). congruence.
    + split.
      * simpl in H3. destruct (py_isspace d); [|reflexivity].
        destruct H3 as (_ & H3 & _). discriminate.
      * apply (IH true H3). apply (no_trailing_tail c); [discriminate | exact T].
  - destruct s as [|d s]; [exact I|].
    apply (IH false H). apply (no_trailing_tail c); [discriminate | exact T].
Qed.

(** ** The normal form and what it entails *)

Lemma inner_spaces_plain s c :
  inner_spaces s -> In c s -> py_isspace c = true -> c = SPACE.
Proof.
  induction s as [|d s IH]; simpl; [tauto|].
  intros H [->|Hin] Hc.
  - rewrite Hc in H. apply H.
  - destruct (py_isspace d); [destruct H as (_ & _ & H)|]; auto.
Qed.

Lemma inner_spaces_tail c s : inner_spaces (c :: s) -> inner_spaces s.
Proof. simpl. destruct (py_isspace c); [intros (_ & _ & H)|]; auto. Qed.

Lemma inner_no_double s : inner_spaces s -> no_double_space s.
Proof.
  intros H a. revert s H. induction a as [|c a IH]; intros s H b E; subst s.
  - cbn [app inner_spaces] in H. rewrite isspace_SPACE in H.
    destruct H as (_ & H & _). discriminate.
  - apply inner_spaces_tail in H. exact (IH _ H b eq_refl).
Qed.

Lemma inner_no_trailing s : inner_spaces s -> no_trailing_space s.
Proof.
  intros H c s'. revert s H. induction s' as [|d s' IH]; intros s H E; subst s.
  - simpl in H. destruct (py_isspace c); [|reflexivity]. destruct H as (_ & [] & _).
  - apply inner_spaces_tail in H. exact (IH _ H eq_refl).
Qed.

Lemma normalize_normal u : normal (normalize u).
Proof.
  unfold normalize, sub.
  rewrite (proj1 (sub_spaces_collapse _ None)).
  set (t := collapse false _).
  split; [apply strip_starts_clean|].
  apply spaced_inner with (b := false); [|apply strip_no_trailing].
  destruct (strip_infix t) as (a & b & E).
  pose proof (collapse_spaced (sub_scan re_line_trim [] 0 None u) false) as S.
  fold t in S. rewrite E in S.
  apply spaced_suffix in S. apply spaced_prefix in S. exact S.
Qed.

Lemma clean_text_eq s : clean_text s = normalize (remove_markers s).
Proof. destruct s; reflexivity. Qed.

(** None of the five patterns matches the empty string, so the rule of
    [re.sub] for empty matches never applies in [clean_text]. *)
Lemma no_empty_match r prev s :
  In r [re_think_tag; re_think_done; re_thinking_line; re_line_trim; re_spaces] ->
  match_len r prev s <> Some 0.
Proof.
  intros Hin H. apply match_len_bounds in H.
  assert (1 <= min_len r).
  { simpl in Hin.
    destruct Hin as [<-|[<-|[<-|[<-|[<-|[]]]]]]; vm_compute; lia. }
  lia.
Qed.

Lemma clean_text_normal x : normal (clean_text x).
Proof. rewrite clean_text_eq. apply normalize_normal. Qed.

End CleanerFacts.

Module CleanerFacts2.
Import Re Cleaner CleanSpec ReFacts CleanerFacts.

(** ** Cleaned text is a fixed point of the normalisation *)

Lemma line_trim_no_match prev c s :
  inner_spaces (c :: s) ->
  (prev = None -> py_isspace c = false) ->
  (forall p, prev = Some p -> chr_eqb p NL = false) ->
  match_len re_line_trim prev (c :: s) = None.
Proof.
  intros Hin Hstart Hprev.
  unfold match_len, re_line_trim, Plus. cbn [rmatch].
  destruct (blank c) eqn:B.
  - pose proof (blank_isspace _ B) as W.
    cbn [inner_spaces] in Hin. rewrite W in Hin.
    destruct Hin as (_ & Hnext & _).
    destruct s as [|d s]; [contradiction|].
    assert (Hbol : at_bol prev = false).
    { destruct prev as [p|]; simpl.
      - apply Hprev. reflexivity.
      - specialize (Hstart eq_refl). congruence. }
    rewrite Hbol. cbn [star_greedy].
    rewrite (not_space_not_blank _ Hnext). cbn [at_eol].
    rewrite (not_space_not_NL _ Hnext). reflexivity.
  - destruct (at_bol prev); reflexivity.
Qed.

Lemma line_trim_fixed :
  forall s prev,
    inner_spaces s ->
    (prev = None -> starts_clean s) ->
    (forall p, prev = Some p -> chr_eqb p NL = false) ->
    sub_scan re_line_trim [] 0 prev s = s.
Proof.
  induction s as [|c s IH]; intros prev Hin Hstart Hprev; [reflexivity|].
  cbn [sub_scan]. rewrite (line_trim_no_match _ _ _ Hin Hstart Hprev).
  f_equal. apply IH.
  - exact (inner_spaces_tail _ _ Hin).
  - discriminate.
  - intros p E. inversion E; subst p.
    destruct (py_isspace c) eqn:W.
    + cbn [inner_spaces] in Hin. rewrite W in Hin. destruct Hin as (-> & _). reflexivity.
    + apply not_space_not_NL. exact W.
Qed.

Lemma collapse_fixed :
  forall s, inner_spaces s ->
    collapse false s = s /\ (starts_clean s -> collapse true s = s).
Proof.
  induction s as [|c s IH]; intros Hin; [split; reflexivity|].
  pose proof (IH (inner_spaces_tail _ _ Hin)) as [IH1 IH2].
  cbn [inner_spaces] in Hin. cbn [collapse starts_clean].
  destruct (py_isspace c) eqn:W.
  - destruct Hin as (-> & Hnext & _). split; [|discriminate].
    f_equal. apply IH2. destruct s; [contradiction | exact Hnext].
  - split; [|intros _]; f_equal; exact IH1.
Qed.

Lemma normalize_fixed y : normal y -> normalize y = y.
Proof.
  intros [Hs Hi]. unfold normalize, sub.
  rewrite line_trim_fixed; [|exact Hi|intros _; exact Hs|discriminate].
  rewrite (proj1 (sub_spaces_collapse _ None)).
  rewrite (proj1 (collapse_fixed _ Hi)).
  apply strip_fixed; [exact Hs | apply inner_no_trailing; exact Hi].
Qed.


End CleanerFacts2.

(* ===================================================================== *)
(** * A line that holds only the word "thinking" *)
(* ===================================================================== *)

Module MarkerLineFacts.
Import Re Cleaner CleanSpec ReFacts CleanerFacts CleanerFacts2.

(** Unfold a pattern down to its character classes. *)
Ltac expose r :=
  let r' := eval cbv -[lit_ci one py_isspace blank dot_or_space any_char] in r in
  change r with r'.



(** ** The first two patterns find nothing *)

Lemma sub_first_class_fixed p r repl s :
  Forall (fun c => p c = false) s -> sub (Cat (Cls p) r) repl s = s.
Proof.
  intros H. unfold sub.
  pose proof (sub_scan_first_class p r repl s [] None H) as E.
  rewrite app_nil_r in E. rewrite E, sub_scan_nil. apply app_nil_r.
Qed.

Lemma think_tag_fixed s :
  Forall (fun c => one 60 c = false) s -> sub re_think_tag [] s = s.
Proof. intros H. expose re_think_tag. apply sub_first_class_fixed, H. Qed.


(** ** The marker-line pattern *)











(** ** All five steps on such an input *)


End MarkerLineFacts.

(* ===================================================================== *)
(** * Properties of the cleaning transform *)
(* ===================================================================== *)

Module CleaningProperties.
Import Re Cleaner CleanSpec ReFacts CleanerFacts CleanerFacts2 MarkerLineFacts.

(** C9.  For every input, the cleaned text holds no tab and no newline
    (no whitespace character at all other than U+0020), no two consecutive
    spaces, and neither begins nor ends with whitespace; the empty input
    gives the empty output. *)
Theorem clean_text_whitespace_invariant (x : pystr) :
  ~ In TAB (clean_text x) /\ ~ In NL (clean_text x)
  /\ (forall c, In c (clean_text x) -> py_isspace c = true -> c = SPACE)
  /\ no_double_space (clean_text x)
  /\ no_leading_space (clean_text x)
  /\ no_trailing_space (clean_text x)
  /\ clean_text [] = [].
Proof.
  destruct (clean_text_normal x) as [Hs Hi].
  assert (Hplain : forall c, In c (clean_text x) -> py_isspace c = true -> c = SPACE)
    by (intros c; apply inner_spaces_plain, Hi).
  repeat split.
  - intros H. specialize (Hplain TAB H eq_refl). discriminate.
  - intros H. specialize (Hplain NL H eq_refl). discriminate.
  - exact Hplain.
  - apply inner_no_double, Hi.
  - intros c s' E. rewrite E in Hs. exact Hs.
  - apply inner_no_trailing, Hi.
Qed.

(** C3, as the specification states it, fails: a "done thinking."
    phrase broken over two lines survives the first cleaning, is joined by
    the whitespace collapse, and is removed by the second cleaning. *)
Lemma clean_text_twice_differs :
  let x := py "think...done" ++ [NL] ++ py "thinking. ok" in
  clean_text x = py "think...done thinking. ok"
  /\ clean_text (clean_text x) = py "ok"
  /\ clean_text (clean_text x) <> clean_text x.
Proof.
  vm_compute. repeat split. discriminate.
Qed.




End CleaningProperties.

(* ===================================================================== *)
(** * Facts about the orchestrator *)
(* ===================================================================== *)

Module ProcessorFacts.
Import Re Cleaner CleanSpec CleanerFacts Processor.
Local Open Scope prog_scope.

Lemma bind_done A B (m : prog A) (f : A -> prog B) st b st2 :
  bind m f st = (Done b, st2) ->
  exists a st1, m st = (Done a, st1) /\ f a st1 = (Done b, st2).
Proof.
  unfold bind. destruct (m st) as [[a|code] st1]; intros H.
  - exists a, st1. split; [reflexivity | exact H].
  - discriminate.
Qed.

Lemma bind_step A B (m : prog A) (f : A -> prog B) st a st1 :
  m st = (Done a, st1) -> bind m f st = f a st1.
Proof. unfold bind. intros ->. reflexivity. Qed.

Lemma Qltb_lt x y : Qltb x y = true <-> (x < y)%Q.
Proof.
  unfold Qltb. rewrite negb_true_iff. split; intros H.
  - apply Qnot_le_lt. intros L. apply Qle_bool_iff in L. congruence.
  - destruct (Qle_bool y x) eqn:E; [|reflexivity].
    apply Qle_bool_iff in E. exfalso. exact (Qlt_not_le _ _ H E).
Qed.


(** ** What each step leaves on standard output and in the cache *)

Lemma silent_bind A B (m : prog A) (f : A -> prog B) :
  silent m -> (forall a, silent (f a)) -> silent (bind m f).
Proof.
  intros Hm Hf st b st2 H.
  destruct (bind_done _ _ _ _ _ _ _ H) as (a & st1 & H1 & H2).
  rewrite (Hf _ _ _ _ H2). exact (Hm _ _ _ H1).
Qed.

Lemma silent_ret A (a : A) : silent (ret a).
Proof. intros st b st' H. inversion H. reflexivity. Qed.

Lemma silent_exit A code : silent (@sys_exit A code).
Proof. intros st b st' H. discriminate. Qed.

Lemma silent_say d : silent (say d).
Proof. intros st b st' H. inversion H. reflexivity. Qed.

Lemma silent_request A e (answer : nat -> A) : silent (request e answer).
Proof. intros st b st' H. inversion H. reflexivity. Qed.

Lemma silent_clock w : silent (clock w).
Proof. intros st b st' H. inversion H. reflexivity. Qed.

Lemma silent_cache_stat : silent cache_stat.
Proof. intros st b st' H. inversion H. reflexivity. Qed.

Lemma silent_cache_read t : silent (cache_read_text t).
Proof. intros st b st' H. inversion H. reflexivity. Qed.

Lemma silent_cache_write w t : silent (cache_write_text w t).
Proof. intros st b st' H. inversion H. reflexivity. Qed.

Create HintDb silent_db.
#[local] Hint Resolve silent_ret silent_exit silent_say silent_request
  silent_clock silent_cache_stat silent_cache_read silent_cache_write
  : silent_db.

Ltac silent_step :=
  first
    [ apply silent_bind; [|intros ?]
    | solve [auto with silent_db]
    | match goal with
      | |- silent (if ?b then _ else _) => destruct b
      | |- silent (match ?x with _ => _ end) => destruct x
      end ].

Lemma silent_validate host context : silent (validate_ollama_host host context).
Proof. unfold validate_ollama_host. repeat silent_step. Qed.

Lemma silent_check_server w host : silent (check_ollama_server w host).
Proof.
  unfold check_ollama_server.
  apply silent_bind; [apply silent_validate|intros ?].
  repeat silent_step.
Qed.

Lemma silent_check_model w host model : silent (check_model_available w host model).
Proof.
  unfold check_model_available.
  apply silent_bind; [apply silent_validate|intros ?].
  repeat silent_step.
Qed.

Lemma silent_unload_each w host models :
  forall errors, silent (unload_each w host models errors).
Proof.
  induction models as [|m models IH]; intros errors; simpl.
  - apply silent_ret.
  - repeat first [apply IH | silent_step].
Qed.

Lemma silent_unload w host : silent (unload_ollama_models w host).
Proof.
  unfold unload_ollama_models.
  apply silent_bind; [apply silent_validate|intros ?].
  repeat first [apply silent_unload_each | silent_step].
Qed.

Lemma silent_check_repeated w allow : silent (check_repeated_content w allow).
Proof. unfold check_repeated_content. repeat silent_step. Qed.

Lemma silent_fetch_new w url : silent (fetch_new_content w url).
Proof. unfold fetch_new_content. repeat silent_step. Qed.

Lemma silent_fetch w url : silent (fetch_article_content w url).
Proof.
  unfold fetch_article_content.
  repeat first [apply silent_fetch_new | silent_step].
Qed.

Lemma silent_generate w host model prompt content :
  silent (generate_summary w host model prompt content).
Proof.
  unfold generate_summary.
  apply silent_bind; [apply silent_validate|intros ?].
  repeat silent_step.
Qed.

(** ** Steps that cannot stop a run with a reachable host *)

Lemma validate_ok host context st :
  is_empty host = false -> validate_ollama_host host context st = (Done tt, st).
Proof. unfold validate_ollama_host. intros ->. reflexivity. Qed.

Lemma unload_each_returns w host models :
  forall errors st, exists n st',
    unload_each w host models errors st = (Done n, st').
Proof.
  induction models as [|m models IH]; intros errors st; simpl.
  - exists errors, st. reflexivity.
  - unfold bind, request, say. simpl.
    destruct (w_unload w (st_reqs st) host m); simpl.
    + destruct (w_ps w (S (st_reqs st)) host) as [still|]; simpl.
      * destruct (existsb (fun m0 => str_eqb m0 m) still); simpl; apply IH.
      * apply IH.
    + apply IH.
Qed.

Lemma unload_returns w host st :
  is_empty host = false ->
  exists st', unload_ollama_models w host st = (Done tt, st')
              /\ st_out st' = st_out st.
Proof.
  intros Hh.
  assert (R : exists st', unload_ollama_models w host st = (Done tt, st')).
  { unfold unload_ollama_models.
    rewrite (bind_step _ _ _ _ _ _ _ (validate_ok host _ st Hh)).
    unfold bind at 1 2. unfold say at 1, request at 1. simpl.
    destruct (w_ps w (st_reqs st) host) as [models|]; simpl.
    - destruct (is_empty models); simpl.
      + eexists. reflexivity.
      + unfold bind at 1. unfold say at 1. simpl. unfold bind at 1.
        match goal with
        | |- context [unload_each w host ?ms ?e ?s] =>
            destruct (unload_each_returns w host ms e s) as (n & st1 & ->)
        end.
        destruct (0 <? n)%nat; eexists; reflexivity.
    - eexists. reflexivity. }
  destruct R as [st' R]. exists st'. split; [exact R|].
  exact (silent_unload w host _ _ _ R).
Qed.

(** ** Runs that reach a summary *)

Lemma check_server_done w host st st' :
  check_ollama_server w host st = (Done tt, st') -> is_empty host = false.
Proof.
  unfold check_ollama_server, validate_ollama_host.
  destruct (is_empty host); [|reflexivity].
  unfold bind, say, sys_exit. simpl. discriminate.
Qed.

Lemma generate_done w host model prompt content st s st' :
  generate_summary w host model prompt content st = (Done s, st') ->
  exists raw, s = clean_text raw.
Proof.
  unfold generate_summary. intros H.
  apply bind_done in H. destruct H as (? & st1 & _ & H).
  apply bind_done in H. destruct H as (? & st2 & _ & H).
  apply bind_done in H. destruct H as (? & st3 & _ & H).
  apply bind_done in H. destruct H as (r & st4 & _ & H).
  destruct r as [[[|c result]|]|].
  - apply bind_done in H. destruct H as (? & ? & _ & H). discriminate.
  - exists (c :: result). unfold ret in H. congruence.
  - apply bind_done in H. destruct H as (? & ? & _ & H). discriminate.
  - apply bind_done in H. destruct H as (? & ? & _ & H). discriminate.
Qed.

Lemma summarize_done w a st summary st1 :
  summarize w a st = (Done summary, st1) ->
  is_empty (arg_host a) = false
  /\ (exists raw, summary = clean_text raw)
  /\ st_out st1 = st_out st.
Proof.
  unfold summarize. intros H.
  apply bind_done in H. destruct H as (? & s1 & H1 & H).
  apply bind_done in H. destruct H as ([] & s2 & H2 & H).
  apply bind_done in H. destruct H as (? & s3 & H3 & H).
  apply bind_done in H. destruct H as (? & s4 & H4 & H).
  apply bind_done in H. destruct H as (rep & s5 & H5 & H).
  assert (Hout : st_out s5 = st_out st).
  { rewrite (silent_check_repeated _ _ _ _ _ H5).
    unfold get_cache_file in H4. rewrite (silent_say _ _ _ _ H4).
    rewrite (silent_check_model _ _ _ _ _ _ H3).
    rewrite (silent_check_server _ _ _ _ _ H2).
    exact (silent_say _ _ _ _ H1). }
  split; [exact (check_server_done _ _ _ _ H2)|].
  assert (Hrest : forall st5,
             st_out st5 = st_out st ->
             (unload_ollama_models w (arg_host a) ;;
              content <- fetch_article_content w (arg_url a) ;;
              generate_summary w (arg_host a) (ollama_model a)
                (summary_prompt (summary_length a)) content) st5
             = (Done summary, st1) ->
             (exists raw, summary = clean_text raw) /\ st_out st1 = st_out st).
  { intros st5 Ho K.
    apply bind_done in K. destruct K as (? & s6 & K6 & K).
    apply bind_done in K. destruct K as (content & s7 & K7 & K).
    split; [exact (generate_done _ _ _ _ _ _ _ _ K)|].
    rewrite (silent_generate _ _ _ _ _ _ _ _ K).
    rewrite (silent_fetch _ _ _ _ _ K7).
    rewrite (silent_unload _ _ _ _ _ K6). exact Ho. }
  destruct rep as [[|c r]|].
  - exact (Hrest _ Hout H).
  - apply bind_done in H. destruct H as (? & ? & _ & H). discriminate.
  - exact (Hrest _ Hout H).
Qed.

Lemma strip_clean_text raw : strip (clean_text raw) = clean_text raw.
Proof.
  destruct (clean_text_normal raw) as [Hs Hi].
  apply strip_fixed; [exact Hs | apply inner_no_trailing, Hi].
Qed.

End ProcessorFacts.

(* ===================================================================== *)
(** * Properties of the orchestrator *)
(* ===================================================================== *)

Module OrchestratorProperties.
Import Re Cleaner CleanSpec CleanerFacts Processor ProcessorFacts.
Local Open Scope prog_scope.

Ltac run_steps :=
  unfold run_main, main, summarize, check_ollama_server, check_model_available,
    get_cache_file, check_repeated_content, fetch_article_content,
    fetch_new_content, validate_ollama_host, init_state, exit_status;
  unfold bind, say, print, request, sys_exit, ret, clock, cache_stat,
    cache_read_text, cache_write_text;
  cbn [fst snd st_cache st_reqs st_reads st_trace st_out st_err].





(** C6.  When the request of the reachability check fails, the run
    ends with status 1 having issued at most that one request: no content
    fetch, no generation request, no cache write, nothing on standard
    output. *)
Theorem unreachable_server_aborts
        (w : world) (a : args) (cache : option (Q * pystr)) :
  w_tags w 0 (arg_host a) = None ->
  let r := run_main w a cache in
  exit_status r = Some 1%Z
  /\ st_trace (snd r)
     = (if is_empty (arg_host a) then [] else [GetTags (arg_host a)])
  /\ existsb is_fetch (st_trace (snd r)) = false
  /\ existsb is_generate (st_trace (snd r)) = false
  /\ existsb is_unload (st_trace (snd r)) = false
  /\ existsb is_cache_write (st_trace (snd r)) = false
  /\ st_cache (snd r) = cache
  /\ st_out (snd r) = [].
Proof.
  intros H r. subst r. run_steps.
  destruct (is_empty (arg_host a)); cbn.
  - repeat split.
  - rewrite H. cbn. repeat split.
Qed.

Lemma unreachable_server_aborts_witness :
  let w := {| w_time := fun _ => 0%Q;
              w_tags := fun _ _ => None;
              w_ps := fun _ _ => None;
              w_unload := fun _ _ _ => false;
              w_generate := fun _ _ _ _ => None;
              w_page := fun _ _ => None |} in
  w_tags w 0 (arg_host (sample_args None)) = None
  /\ exit_status (run_main w (sample_args None) None) = Some 1%Z
  /\ st_trace (snd (run_main w (sample_args None) None))
     = [GetTags (py "localhost:11434")].
Proof.
  split; [reflexivity|].
  pose proof (unreachable_server_aborts
                {| w_time := fun _ => 0%Q;
                   w_tags := fun _ _ => None;
                   w_ps := fun _ _ => None;
                   w_unload := fun _ _ _ => false;
                   w_generate := fun _ _ _ _ => None;
                   w_page := fun _ _ => None |}
                (sample_args None) None eq_refl) as H.
  split; [exact (proj1 H) | exact (proj1 (proj2 H))].
Defined.

(** C7.  When the server and the model checks pass, a cache entry
    younger than 24 hours exists and the override is not set, the run ends
    at the cache check with status 0: it prints the reuse sentinel and
    nothing else, and issues no request besides the two model listings: no
    content fetch, no unload, no generation, no cache access. *)
Theorem fresh_cache_short_circuits
        (w : world) (a : args) (mtime : Q) (text : pystr)
        (listed0 listed1 : list pystr) :
  is_empty (arg_host a) = false ->
  w_tags w 0 (arg_host a) = Some listed0 ->
  w_tags w 1 (arg_host a) = Some listed1 ->
  existsb (fun m => str_eqb m (ollama_model a)) listed1 = true ->
  str_eqb (allow_repeated a) REPEATED = false ->
  (cache_age_hours (w_time w 0) mtime < 24)%Q ->
  let r := run_main w a (Some (mtime, text)) in
  exit_status r = Some 0%Z
  /\ st_out (snd r) = [REPEATED]
  /\ st_trace (snd r) = [GetTags (arg_host a); GetTags (arg_host a)]
  /\ existsb is_fetch (st_trace (snd r)) = false
  /\ existsb is_unload (st_trace (snd r)) = false
  /\ existsb is_generate (st_trace (snd r)) = false
  /\ st_cache (snd r) = Some (mtime, text).
Proof.
  intros Hh H0 H1 Hm Hr Hage r. subst r.
  apply Qltb_lt in Hage. run_steps.
  unfold REPEATED in Hr. cbn in Hr.
  rewrite Hh. cbn. rewrite H0. cbn. rewrite H1. cbn. rewrite Hm. cbn.
  rewrite Hr. cbn. rewrite Hage. cbn. repeat split.
Qed.

Lemma fresh_cache_short_circuits_witness :
  let w := steady_world 3600 [py "qwen3:1.7b"] None None in
  exit_status (run_main w (sample_args None) (Some (0%Q, py "cached text")))
  = Some 0%Z
  /\ st_out (snd (run_main w (sample_args None) (Some (0%Q, py "cached text"))))
     = [REPEATED].
Proof.
  pose proof (fresh_cache_short_circuits
                (steady_world 3600 [py "qwen3:1.7b"] None None)
                (sample_args None) 0%Q (py "cached text")
                [py "qwen3:1.7b"] [py "qwen3:1.7b"]
                eq_refl eq_refl eq_refl eq_refl eq_refl eq_refl) as H.
  split; [exact (proj1 H) | exact (proj1 (proj2 H))].
Defined.

(** C5, as the specification states it, fails: a run that completes
    with a summary of its own (no fallback) that begins with "[Error"
    exits with status 1. *)
Lemma error_prefixed_summary_exits_nonzero :
  let w := steady_world 0 [py "qwen3:1.7b"] (Some (py "article text"))
             (Some (Some (py "[Error 503] The feed was down all day."))) in
  let r := run_main w (sample_args (Some REPEATED)) None in
  fst (summarize w (sample_args (Some REPEATED)) (init_state None))
  = Done (py "[Error 503] The feed was down all day.")
  /\ existsb is_fallback_warning (st_err (snd r)) = false
  /\ st_out (snd r) = [py "[Error 503] The feed was down all day."]
  /\ exit_status r = Some 1%Z.
Proof. vm_compute. repeat split. Qed.

(** C5, amended.  In every run that reaches a cleaned summary, an empty
    one is replaced by the fallback marker, the summary or the marker is
    printed, and the exit status is 1 exactly when the printed text begins
    with "[Error" (hence for every fallback) and 0 otherwise, whatever the
    length budget. *)
Theorem exit_status_follows_error_prefix
        (w : world) (a : args) (st st1 : pstate) (summary : pystr) :
  summarize w a st = (Done summary, st1) ->
  let emitted := if is_empty summary then FALLBACK else summary in
  let r := main w a st in
  st_out (snd r) = st_out st ++ [emitted]
  /\ exit_status r
     = Some (if startswith (py "[Error") emitted then 1%Z else 0%Z)
  /\ match summary with
     | [] => emitted = FALLBACK /\ exit_status r = Some 1%Z
     | _ :: _ => emitted = summary
     end.
Proof.
  intros H emitted r.
  destruct (summarize_done _ _ _ _ _ H) as (Hh & (raw & Hraw) & Hout).
  assert (Hstrip : strip summary = summary)
    by (rewrite Hraw; apply strip_clean_text).
  assert (Hr : exists st2,
             r = (Exited (if negb (startswith (py "[Error") emitted)
                          then 0%Z else 1%Z), st2)
             /\ st_out st2 = st_out st ++ [emitted]).
  { subst r. unfold main. rewrite (bind_step _ _ _ _ _ _ _ H).
    unfold emit_summary. rewrite Hstrip, orb_diag. fold emitted.
    assert (E : forall k : pystr -> prog unit,
               bind (if is_empty summary
                     then bind (say EmptySummaryWarning) (fun _ => ret FALLBACK)
                     else ret summary) k st1
               = k emitted
                   (if is_empty summary
                    then snd (say EmptySummaryWarning st1) else st1)).
    { intros k. subst emitted. destruct (is_empty summary); reflexivity. }
    rewrite E. set (st1' := if is_empty summary then _ else st1).
    assert (Hout' : st_out st1' = st_out st).
    { subst st1'. destruct (is_empty summary); exact Hout. }
    unfold bind at 1. unfold say at 1. cbn [fst snd].
    unfold bind at 1.
    match goal with
    | |- context [(if ?c then say ?d else ret tt) ?s] =>
        assert (E2 : exists s', (if c then say d else ret tt) s = (Done tt, s')
                                /\ st_out s' = st_out st)
          by (destruct c; eexists; split; try reflexivity; exact Hout')
    end.
    destruct E2 as (s2 & -> & Ho2).
    unfold bind at 1. unfold print at 1. cbn [fst snd].
    unfold bind at 1.
    match goal with
    | |- context [unload_ollama_models w ?h ?s] =>
        destruct (unload_returns w h s Hh) as (s3 & -> & Ho3)
    end.
    eexists. split; [reflexivity|].
    rewrite Ho3. cbn [st_out]. rewrite Ho2. reflexivity. }
  destruct Hr as (st2 & Er & Ho). rewrite Er. unfold exit_status. cbn [fst snd].
  repeat split.
  - exact Ho.
  - destruct (startswith (py "[Error") emitted); reflexivity.
  - subst emitted. destruct summary; [split; reflexivity | reflexivity].
Qed.

Lemma exit_status_follows_error_prefix_witness :
  let w := steady_world 0 [py "qwen3:1.7b"] (Some (py "article text"))
             (Some (Some (py "<think>hm</think>"))) in
  let r := main w (sample_args (Some REPEATED)) (init_state None) in
  st_out (snd r) = [FALLBACK] /\ exit_status r = Some 1%Z.
Proof.
  assert (H : exists st1,
             summarize
               (steady_world 0 [py "qwen3:1.7b"] (Some (py "article text"))
                  (Some (Some (py "<think>hm</think>"))))
               (sample_args (Some REPEATED)) (init_state None)
             = (Done [], st1)).
  { eexists. vm_compute. reflexivity. }
  destruct H as [st1 H].
  pose proof (exit_status_follows_error_prefix _ _ _ _ _ H) as K.
  split; [exact (proj1 K) | exact (proj1 (proj2 K))].
Defined.

End OrchestratorProperties.

(* ===================================================================== *)
(** * Facts about the benchmark driver *)
(* ===================================================================== *)

Module BenchFacts.
Import Bench.

Lemma recorded_nil w : recorded w [] [].
Proof.
  split; [reflexivity|]. intros n cmd H. destruct n; discriminate.
Qed.

Lemma recorded_snoc w cmds rs cmd r :
  recorded w cmds rs ->
  row_records w (List.length cmds) cmd r ->
  recorded w (cmds ++ [cmd]) (rs ++ [r]).
Proof.
  intros [Hlen Hrec] Hr. split.
  - rewrite !length_app, Hlen. reflexivity.
  - intros n c Hn.
    destruct (Nat.lt_ge_cases n (List.length cmds)) as [Hlt|Hge].
    + rewrite nth_error_app1 in Hn by exact Hlt.
      destruct (Hrec n c Hn) as (r' & Hr' & Hrow).
      exists r'. split; [|exact Hrow].
      rewrite nth_error_app1 by (rewrite Hlen; exact Hlt). exact Hr'.
    + rewrite nth_error_app2 in Hn by exact Hge.
      destruct (n - List.length cmds) as [|k] eqn:Ek.
      * assert (n = List.length cmds) by lia. subst n.
        simpl in Hn. inversion Hn; subst c.
        exists r. split; [|exact Hr].
        rewrite nth_error_app2 by (rewrite Hlen; apply Nat.le_refl).
        rewrite Hlen, Nat.sub_diag. reflexivity.
      * simpl in Hn. destruct k; discriminate.
Qed.

Lemma make_row_records w a url model run cache n :
  let cmd := article3_command (b_host a) url model (b_max_length a) in
  row_records w n cmd
    (make_row a url model run cache (run_article3_script (proc w n cmd))).
Proof. repeat split. Qed.

Lemma run_pair_spec w a url model cache :
  forall todo run sw results,
    recorded w (issued sw) (rows sw) ->
    let out := run_pair w a url model cache todo run sw results in
    issued (fst out)
    = issued sw
      ++ repeat (article3_command (b_host a) url model (b_max_length a)) todo
    /\ recorded w (issued (fst out)) (rows (fst out)).
Proof.
  induction todo as [|todo IH]; intros run sw results Hrec; simpl.
  - split; [symmetry; apply app_nil_r | exact Hrec].
  - match goal with
    | |- context [run_pair w a url model cache todo ?r ?s ?rs] =>
        destruct (IH r s rs) as [Hi Hr]
    end.
    + cbn [issued rows]. apply recorded_snoc; [exact Hrec|].
      apply make_row_records.
    + split; [|exact Hr].
      rewrite Hi. cbn [issued]. rewrite <- app_assoc. reflexivity.
Qed.

Lemma sweep_models_spec w a url :
  forall models sw,
    recorded w (issued sw) (rows sw) ->
    issued (sweep_models w a url models sw)
    = issued sw
      ++ flat_map
           (fun model =>
              repeat (article3_command (b_host a) url model (b_max_length a))
                     (Z.to_nat (b_runs a)))
           models
    /\ recorded w (issued (sweep_models w a url models sw))
                  (rows (sweep_models w a url models sw)).
Proof.
  unfold sweep_models.
  induction models as [|m models IH]; intros sw Hrec; simpl.
  - split; [symmetry; apply app_nil_r | exact Hrec].
  - pose proof (run_pair_spec w a url m (cache_age w url)
                  (Z.to_nat (b_runs a)) 0 sw [] Hrec) as [Hi Hr].
    destruct (run_pair w a url m (cache_age w url) (Z.to_nat (b_runs a)) 0 sw [])
      as [sw' results].
    cbn [fst] in Hi, Hr.
    match goal with
    | |- context [fold_left ?f models ?s] =>
        destruct (IH s) as [Hi' Hr']; [exact Hr|]
    end.
    split; [|exact Hr'].
    rewrite Hi'. cbn [issued]. rewrite Hi, <- app_assoc. reflexivity.
Qed.

Lemma sweep_urls_from w a models :
  forall urls sw,
    recorded w (issued sw) (rows sw) ->
    let out := fold_left (fun sw url => sweep_models w a url models sw) urls sw in
    issued out = issued sw ++ planned_commands a urls models
    /\ recorded w (issued out) (rows out).
Proof.
  induction urls as [|u urls IH]; intros sw Hrec; simpl.
  - split; [symmetry; apply app_nil_r | exact Hrec].
  - destruct (sweep_models_spec w a u models sw Hrec) as [Hi Hr].
    destruct (IH _ Hr) as [Hi' Hr'].
    split; [|exact Hr'].
    rewrite Hi', Hi, <- app_assoc. reflexivity.
Qed.

Lemma sweep_urls_spec w a urls models :
  issued (sweep_urls w a urls models) = planned_commands a urls models
  /\ recorded w (issued (sweep_urls w a urls models))
                (rows (sweep_urls w a urls models)).
Proof.
  exact (sweep_urls_from w a models urls empty_sweep (recorded_nil w)).
Qed.

Lemma failed_is_recorded_unsuccessful p :
  failed p = true ->
  success (run_article3_script p) = false
  /\ or_empty (error (run_article3_script p)) <> [].
Proof.
  destruct p as [rc out err t| |msg t]; simpl; intros H.
  - apply negb_true_iff in H. rewrite H. simpl. split; [reflexivity | discriminate].
  - split; [reflexivity | discriminate].
  - split; [reflexivity | discriminate].
Qed.

Lemma planned_models a urls models cmd :
  In cmd (planned_commands a urls models) -> In (cmd_model cmd) models.
Proof.
  unfold planned_commands. intros H.
  apply in_flat_map in H. destruct H as (u & _ & H).
  apply in_flat_map in H. destruct H as (m & Hm & H).
  apply repeat_spec in H. subst cmd. exact Hm.
Qed.

Lemma recorded_row_models w cmds rs r :
  recorded w cmds rs -> In r rs ->
  exists cmd, In cmd cmds /\ c_model r = cmd_model cmd.
Proof.
  intros [Hlen Hrec] Hin.
  destruct (In_nth_error _ _ Hin) as [n Hn].
  assert (Hlt : n < List.length cmds).
  { rewrite <- Hlen. apply nth_error_Some. congruence. }
  destruct (nth_error cmds n) as [cmd|] eqn:Ec.
  - destruct (Hrec n cmd Ec) as (r' & Hr' & _ & Hm & _).
    exists cmd. split; [exact (nth_error_In _ _ Ec)|]. congruence.
  - apply nth_error_None in Ec. lia.
Qed.

(** ** The statistic of a pair *)

Lemma map_nth_all (times : list Q) :
  forall pre,
    List.map (fun i => nth i (pre ++ times) 0%Q)
      (seq (List.length pre) (List.length times)) = times.
Proof.
  induction times as [|t times IH]; intros pre; simpl; [reflexivity|].
  f_equal.
  - rewrite app_nth2 by apply Nat.le_refl. rewrite Nat.sub_diag. reflexivity.
  - specialize (IH (pre ++ [t])).
    rewrite <- app_assoc, length_app, Nat.add_comm in IH. exact IH.
Qed.

(** The comprehension of line 213 keeps every time or none. *)
Lemma successful_times_all_or_none (b : bool) (times : list Q) :
  List.map (fun i => nth i times 0%Q)
    (filter (fun _ => b) (seq 0 (List.length times)))
  = if b then times else [].
Proof.
  destruct b.
  - assert (E : forall l : list nat, filter (fun _ => true) l = l)
      by (induction l; simpl; congruence).
    rewrite E. exact (map_nth_all times []).
  - assert (E : forall l : list nat, filter (fun _ => false) l = [])
      by (induction l; simpl; congruence).
    rewrite E. reflexivity.
Qed.

(** ** The final view *)

Lemma key_eqb_refl k : key_eqb k k = true.
Proof.
  assert (R : forall s, str_eqb s s = true).
  { induction s as [|c s IH]; simpl; [reflexivity|].
    unfold chr_eqb. rewrite N.eqb_refl. exact IH. }
  unfold key_eqb. rewrite !R. reflexivity.
Qed.

Lemma str_eqb_eq a b : str_eqb a b = true -> a = b.
Proof.
  revert b. induction a as [|x a IH]; intros [|y b]; simpl; try discriminate.
  - reflexivity.
  - intros H. apply andb_true_iff in H as [H1 H2].
    apply N.eqb_eq in H1. rewrite (IH _ H2), H1. reflexivity.
Qed.

Lemma key_eqb_eq k1 k2 : key_eqb k1 k2 = true -> k1 = k2.
Proof.
  destruct k1, k2. unfold key_eqb. simpl. intros H.
  apply andb_true_iff in H as [H1 H2].
  rewrite (str_eqb_eq _ _ H1), (str_eqb_eq _ _ H2). reflexivity.
Qed.

Lemma group_add_keys key t groups :
  NoDup (List.map fst groups) ->
  NoDup (List.map fst (group_add key t groups))
  /\ (forall k, In k (List.map fst (group_add key t groups))
                <-> k = key \/ In k (List.map fst groups)).
Proof.
  induction groups as [|[k ts] rest IH]; intros Hnd; simpl.
  - split.
    + constructor; [intros [] | constructor].
    + intros k. simpl. intuition auto.
  - inversion Hnd as [|? ? Hnotin Hrest]; subst.
    destruct (key_eqb k key) eqn:E; simpl.
    + apply key_eqb_eq in E. subst k. split; [exact Hnd|].
      intros k. intuition auto.
    + destruct (IH Hrest) as [IH1 IH2]. split.
      * constructor; [|exact IH1].
        intros Hin. apply IH2 in Hin. destruct Hin as [->|Hin].
        -- rewrite key_eqb_refl in E. discriminate.
        -- exact (Hnotin Hin).
      * intros k0. rewrite IH2. intuition auto.
Qed.

Lemma model_stats_from_keys rs :
  forall groups,
    NoDup (List.map fst groups) ->
    NoDup (List.map fst
             (fold_left
                (fun groups r =>
                   if c_success r
                   then group_add (c_model r, c_url r) (c_time r) groups
                   else groups)
                rs groups)).
Proof.
  induction rs as [|r rs IH]; intros groups Hnd; simpl; [exact Hnd|].
  apply IH. destruct (c_success r); [|exact Hnd].
  apply group_add_keys, Hnd.
Qed.

Lemma NoDup_map_filter A B (f : A -> B) (p : A -> bool) l :
  NoDup (List.map f l) -> NoDup (List.map f (filter p l)).
Proof.
  induction l as [|x l IH]; simpl; intros H; [constructor|].
  inversion H as [|? ? Hn Hr]; subst.
  destruct (p x); simpl; [|auto].
  constructor; [|auto].
  intros Hin. apply Hn. apply in_map_iff in Hin.
  destruct Hin as (y & Ey & Hy). apply filter_In in Hy.
  apply in_map_iff. exists y. tauto.
Qed.

(** A (model, url) pair has at most one line in the final view. *)
Lemma summary_view_keys rs :
  NoDup (List.map (fun line => fst (fst line)) (summary_view rs)).
Proof.
  unfold summary_view. rewrite map_map. simpl.
  apply NoDup_map_filter.
  apply (model_stats_from_keys rs []). constructor.
Qed.

End BenchFacts.

(* ===================================================================== *)
(** * Properties of the benchmark driver *)
(* ===================================================================== *)

Module BenchProperties.
Import Bench BenchFacts.

(** C8.  In every sweep, the runs started are exactly the planned ones
    (every URL, every model, the configured number of times), whatever
    the earlier runs did; each run has its row, and a run that timed out,
    raised, or ended with a nonzero return code is recorded as
    unsuccessful with a nonempty error message. *)
Theorem sweep_collects_and_continues
        (w : bench_world) (a : bench_args) (sw : sweep)
        (view : list (pystr * pystr * Q * nat)) :
  main w a = Completed sw view ->
  issued sw = planned_commands a (parse_list (b_urls a)) (selected_models a)
  /\ List.length (rows sw)
     = (List.length (parse_list (b_urls a)) * (List.length (selected_models a)
        * Z.to_nat (b_runs a)))%nat
  /\ forall n cmd,
       nth_error (issued sw) n = Some cmd ->
       exists r,
         nth_error (rows sw) n = Some r
         /\ row_records w n cmd r
         /\ (failed (proc w n cmd) = true ->
             c_success r = false /\ c_error r <> []).
Proof.
  unfold main. intros H.
  destruct (negb (script_exists w)); [discriminate|].
  destruct (negb (script_executable w)); [discriminate|].
  destruct (Processor.is_empty (selected_models a)); [discriminate|].
  destruct (Processor.is_empty (parse_list (b_urls a))); [discriminate|].
  inversion H; subst sw view. clear H.
  destruct (sweep_urls_spec w a (parse_list (b_urls a)) (selected_models a))
    as [Hi [Hlen Hrec]].
  split; [exact Hi|]. split.
  - rewrite Hlen, Hi. unfold planned_commands.
    generalize (parse_list (b_urls a)) as urls.
    induction urls as [|u urls IH]; simpl; [reflexivity|].
    rewrite length_app, IH. f_equal.
    generalize (selected_models a) as models.
    induction models as [|m models IHm]; simpl; [reflexivity|].
    rewrite length_app, repeat_length, IHm. reflexivity.
  - intros n cmd Hn. destruct (Hrec n cmd Hn) as (r & Hr & Hrow).
    exists r. split; [exact Hr|]. split; [exact Hrow|].
    intros Hf. destruct Hrow as (_ & _ & Hs & He).
    rewrite Hs, He. apply failed_is_recorded_unsuccessful, Hf.
Qed.

Lemma sweep_collects_and_continues_witness :
  let w := scripted_world [TimeoutExpired; Returned 1 [] (py "boom") 2%Q] in
  let a := sample_bench (py "m1,m2") 2 in
  List.map c_success (rows_written (main w a)) = [false; false; true; true]
  /\ List.length (runs_started (main w a)) = 4%nat.
Proof.
  assert (H : exists sw view,
             main (scripted_world [TimeoutExpired; Returned 1 [] (py "boom") 2%Q])
                  (sample_bench (py "m1,m2") 2)
             = Completed sw view).
  { eexists. eexists. vm_compute. reflexivity. }
  destruct H as (sw & view & H).
  pose proof (sweep_collects_and_continues _ _ _ _ H) as K.
  split.
  - vm_compute. reflexivity.
  - rewrite H. cbn [runs_started]. rewrite (proj1 K). vm_compute. reflexivity.
Defined.

(** C10.  The models of the sweep are the supplied names that are not
    empty and do not contain "-embedding"; no run is started and no row
    written for any other name; and when no supplied name is left the
    driver prints an error, returns 1 and runs nothing. *)
Theorem embedding_models_are_excluded (w : bench_world) (a : bench_args) :
  (forall m, In m (selected_models a)
             <-> In m (parse_list (b_models a))
                 /\ m <> [] /\ contains EMBEDDING m = false)
  /\ Forall (fun c => contains EMBEDDING (cmd_model c) = false)
       (runs_started (main w a))
  /\ Forall (fun r => contains EMBEDDING (c_model r) = false)
       (rows_written (main w a))
  /\ match selected_models a with
     | [] =>
         main w a
         = Refused (if negb (script_exists w) then ScriptNotFound
                    else if negb (script_executable w) then ScriptNotExecutable
                    else NoValidModels)
         /\ runs_started (main w a) = []
         /\ rows_written (main w a) = []
     | _ :: _ => True
     end.
Proof.
  assert (Hsel : forall m, In m (selected_models a)
                           <-> In m (parse_list (b_models a))
                               /\ m <> [] /\ contains EMBEDDING m = false).
  { intros m. unfold selected_models. rewrite filter_In, andb_true_iff,
      !negb_true_iff. destruct m; simpl; intuition congruence. }
  assert (Hruns : Forall (fun c => contains EMBEDDING (cmd_model c) = false)
                    (runs_started (main w a))
                  /\ Forall (fun r => contains EMBEDDING (c_model r) = false)
                       (rows_written (main w a))).
  { unfold main.
    destruct (negb (script_exists w)); [split; constructor|].
    destruct (negb (script_executable w)); [split; constructor|].
    destruct (Processor.is_empty (selected_models a)); [split; constructor|].
    destruct (Processor.is_empty (parse_list (b_urls a))); [split; constructor|].
    cbn [runs_started rows_written].
    destruct (sweep_urls_spec w a (parse_list (b_urls a)) (selected_models a))
      as [Hi Hrec].
    assert (Hc : forall c, In c (issued (sweep_urls w a (parse_list (b_urls a))
                                           (selected_models a))) ->
                           contains EMBEDDING (cmd_model c) = false).
    { intros c Hc. rewrite Hi in Hc. apply planned_models in Hc.
      apply Hsel in Hc. tauto. }
    split; apply Forall_forall.
    - exact Hc.
    - intros r Hr. destruct (recorded_row_models _ _ _ _ Hrec Hr) as (c & Hin & ->).
      apply Hc, Hin. }
  split; [exact Hsel|]. split; [apply Hruns|]. split; [apply Hruns|].
  unfold main. destruct (selected_models a); [|exact I].
  destruct (negb (script_exists w)); [repeat split|].
  destruct (negb (script_executable w)); repeat split.
Qed.

(** C2: the statistic of a pair with mixed outcomes.  With two runs, the
    first timing out (300 s) and the second succeeding in 1 s, the driver
    reports the mean 150.5 s, over both runs, where the mean over the
    successful runs is 1 s; with the outcomes in the other order it
    reports no statistic although one run succeeded. *)
Theorem statistics_ignore_which_runs_succeeded :
  let ok := Returned 0 (py "A summary.") [] 1%Q in
  let a := sample_bench (py "m1") 2 in
  let url := py "https://example.org/news" in
  stats_printed (main (scripted_world [TimeoutExpired; ok]) a)
  = [(url, py "m1",
      Some {| mean_time := (301 # 2)%Q; var_time := (89401 # 4)%Q;
              successful_runs := 1; total_runs := 2 |})]
  /\ mean (successful_times_spec
             (List.map run_article3_script [TimeoutExpired; ok])) = 1%Q
  /\ stats_printed (main (scripted_world [ok; TimeoutExpired]) a)
     = [(url, py "m1", None)]
  /\ successful_times_spec (List.map run_article3_script [ok; TimeoutExpired])
     = [1%Q].
Proof. vm_compute. repeat split. Qed.

(** What line 213 computes in general: the times of all the runs when
    the last run succeeded, and nothing otherwise. *)
Lemma pair_statistics_follow_last_run (a : bench_args) (results : list run_result) :
  pair_statistics a results
  = if (0 <? List.length (filter success results))%nat then
      match last_result results with
      | Some result =>
          let times := if success result then List.map time results else [] in
          if negb (Processor.is_empty times)
          then Some {| mean_time := mean times;
                       var_time := if (1 <? List.length times)%nat
                                   then variance times else 0%Q;
                       successful_runs := List.length (filter success results);
                       total_runs := b_runs a |}
          else None
      | None => None
      end
    else None.
Proof.
  unfold pair_statistics.
  destruct (0 <? List.length (filter success results))%nat; [|reflexivity].
  destruct (last_result results) as [result|]; [|reflexivity].
  rewrite successful_times_all_or_none. reflexivity.
Qed.

(** The parts of C2 that hold: a pair without a successful run has no
    statistic; three successful runs of 1, 2 and 3 seconds report the mean
    2; and the pair has exactly one line in the final view. *)
Lemma no_successful_run_no_statistic (a : bench_args) (results : list run_result) :
  filter success results = [] -> pair_statistics a results = None.
Proof. unfold pair_statistics. intros ->. reflexivity. Qed.

Lemma three_successful_runs_mean :
  let w := scripted_world
             [Returned 0 (py "s") [] 1%Q; Returned 0 (py "s") [] 2%Q;
              Returned 0 (py "s") [] 3%Q] in
  let a := sample_bench (py "m1") 3 in
  List.map (fun s => option_map mean_time (snd s)) (stats_printed (main w a))
  = [Some 2%Q]
  /\ final_view (main w a)
     = [(py "m1", py "https://example.org/news", 2%Q, 3%nat)].
Proof. vm_compute. repeat split. Qed.

End BenchProperties.

(* ===================================================================== *)
(** * Further properties of the cleaning transform *)
(* ===================================================================== *)

Module CleaningMore.
Import Re Cleaner CleanSpec MoreSpec ReFacts CleanerFacts CleanerFacts2
  MarkerLineFacts.

(** ** Cleaning only deletes, or turns whitespace into a space *)

Lemma sub_scan_length r repl :
  List.length repl <= 1 ->
  forall s skip prev,
    List.length (sub_scan r repl skip prev s) <= List.length s.
Proof.
  intros Hr. induction s as [|c s IH]; intros skip prev; simpl; [lia|].
  destruct skip as [|n].
  - destruct (match_len r prev (c :: s)) as [[|n]|]; simpl.
    + specialize (IH 0 (Some c)). lia.
    + rewrite length_app. specialize (IH n (Some c)). lia.
    + specialize (IH 0 (Some c)). lia.
  - specialize (IH n (Some c)). lia.
Qed.

Lemma drop_while_length p s : List.length (drop_while p s) <= List.length s.
Proof.
  induction s as [|c s IH]; simpl; [lia|]. destruct (p c); simpl; lia.
Qed.

Lemma strip_length s : List.length (strip s) <= List.length s.
Proof.
  unfold strip, rstrip, lstrip. rewrite length_rev.
  etransitivity; [apply drop_while_length|]. rewrite length_rev.
  apply drop_while_length.
Qed.

(** The cleaned text is never longer than the text given. *)
Theorem clean_text_never_longer (x : pystr) :
  List.length (clean_text x) <= List.length x.
Proof.
  rewrite clean_text_eq. unfold normalize, remove_markers, sub.
  etransitivity; [apply strip_length|].
  etransitivity; [apply sub_scan_length; simpl; lia|].
  etransitivity; [apply sub_scan_length; simpl; lia|].
  etransitivity; [apply sub_scan_length; simpl; lia|].
  etransitivity; [apply sub_scan_length; simpl; lia|].
  apply sub_scan_length; simpl; lia.
Qed.

Lemma sub_scan_keeps_repl (P : char -> Prop) r repl :
  Forall P repl ->
  forall s skip prev, Forall P s -> Forall P (sub_scan r repl skip prev s).
Proof.
  intros Hr. induction s as [|c s IH]; intros skip prev H; simpl; [constructor|].
  inversion H; subst.
  destruct skip; [|auto].
  destruct (match_len r prev (c :: s)) as [[|n]|]; simpl; auto.
  apply Forall_app. split; auto.
Qed.

Lemma strip_keeps (P : char -> Prop) t : Forall P t -> Forall P (strip t).
Proof.
  intros H. destruct (strip_infix t) as (a & b & E). rewrite E in H.
  apply Forall_app in H. destruct H as [_ H].
  apply Forall_app in H. apply H.
Qed.

(** Every character of the cleaned text is a character of the text
    given, or a space. *)
Theorem clean_text_invents_only_spaces (x : pystr) :
  Forall (fun c => c = SPACE \/ In c x) (clean_text x).
Proof.
  rewrite clean_text_eq. unfold normalize, remove_markers, sub.
  apply strip_keeps.
  apply sub_scan_keeps_repl; [repeat constructor; left; reflexivity|].
  do 4 (apply sub_scan_keeps_repl; [constructor|]).
  apply Forall_forall. intros c Hc. right. exact Hc.
Qed.

(** ** A tag that is never closed is kept *)

Lemma rmatch_fail_cont X r prev s (k : cont X) :
  (forall n prev', k prev' (skipn n s) = None) -> rmatch r prev s k = None.
Proof.
  intros H. destruct (rmatch r prev s k) as [x|] eqn:E; [|reflexivity].
  destruct (rmatch_reaches _ _ _ _ _ _ E) as (n & q & _ & _ & Hk).
  rewrite H in Hk. discriminate.
Qed.

Lemma rmatch_cat_fail X r1 r2 prev s (k : cont X) :
  (forall n prev', rmatch r2 prev' (skipn n s) k = None) ->
  rmatch (Cat r1 r2) prev s k = None.
Proof. intros H. simpl. apply rmatch_fail_cont. exact H. Qed.

Lemma rmatch_cls_fail X p r prev s (k : cont X) :
  Forall (fun c => p c = false) s -> rmatch (Cat (Cls p) r) prev s k = None.
Proof.
  intros H. simpl. destruct s as [|c s]; [reflexivity|].
  inversion H; subst. rewrite H2. reflexivity.
Qed.

Lemma Forall_skipn_keeps (P : char -> Prop) n :
  forall s, Forall P s -> Forall P (skipn n s).
Proof.
  induction n as [|n IH]; intros s H; simpl; [exact H|].
  destruct s as [|c s]; [constructor|]. inversion H; subst. auto.
Qed.

Lemma sub_scan_id r repl :
  forall s prev,
    (forall n prev', match_len r prev' (skipn n s) = None) ->
    sub_scan r repl 0 prev s = s.
Proof.
  induction s as [|c s IH]; intros prev H; [reflexivity|].
  rewrite sub_scan_no_match by exact (H 0 prev).
  f_equal. apply IH. intros n q. exact (H (S n) q).
Qed.

(** Line 31 removes nothing from a text without a slash: an opening
    tag that is never closed stays, with the reasoning after it. *)
Theorem unclosed_think_tag_is_kept (s : pystr) :
  Forall (fun c => one 47 c = false) s -> sub re_think_tag [] s = s.
Proof.
  intros H. apply sub_scan_id. intros n prev.
  unfold match_len. expose re_think_tag.
  do 11 (apply rmatch_cat_fail; intros ? ?).
  apply rmatch_cls_fail.
  repeat apply Forall_skipn_keeps. exact H.
Qed.

Lemma unclosed_think_tag_is_kept_witness :
  sub re_think_tag [] (py "<think>Let me count the words. The article")
  = py "<think>Let me count the words. The article".
Proof.
  apply (unclosed_think_tag_is_kept
           (py "<think>Let me count the words. The article")).
  repeat constructor.
Defined.

(** ** A pattern without [^] does not look behind *)

Lemma star_greedy_prev X p :
  forall s prev prev' (k k' : cont X),
    (forall q q' s', k q s' = k' q' s') ->
    star_greedy p prev s k = star_greedy p prev' s k'.
Proof.
  induction s as [|c s IH]; intros prev prev' k k' H; simpl; [apply H|].
  rewrite (IH (Some c) (Some c) k k' H), (H prev prev'). reflexivity.
Qed.

Lemma star_lazy_prev X p :
  forall s prev prev' (k k' : cont X),
    (forall q q' s', k q s' = k' q' s') ->
    star_lazy p prev s k = star_lazy p prev' s k'.
Proof.
  induction s as [|c s IH]; intros prev prev' k k' H; simpl.
  - rewrite (H prev prev'). reflexivity.
  - rewrite (IH (Some c) (Some c) k k' H), (H prev prev'). reflexivity.
Qed.

Lemma rmatch_prev X r :
  no_bol r = true ->
  forall prev prev' s (k k' : cont X),
    (forall q q' s', k q s' = k' q' s') ->
    rmatch r prev s k = rmatch r prev' s k'.
Proof.
  induction r as [p|p|p| | |r1 IH1 r2 IH2|r1 IH1 r2 IH2];
    intros Hb prev prev' s k k' H; simpl in *.
  - destruct s as [|c s]; [reflexivity|]. destruct (p c); [apply H | reflexivity].
  - apply star_greedy_prev, H.
  - apply star_lazy_prev, H.
  - discriminate.
  - destruct (at_eol s); [apply H | reflexivity].
  - apply andb_true_iff in Hb as [Hb1 Hb2].
    apply IH1; [exact Hb1|]. intros q q' s'. apply IH2; assumption.
  - apply andb_true_iff in Hb as [Hb1 Hb2].
    rewrite (IH1 Hb1 prev prev' s k k' H), (IH2 Hb2 prev prev' s k k' H).
    reflexivity.
Qed.

Lemma sub_scan_prev r repl :
  no_bol r = true ->
  forall s skip prev prev',
    sub_scan r repl skip prev s = sub_scan r repl skip prev' s.
Proof.
  intros Hb. induction s as [|c s IH]; intros skip prev prev'; simpl; [reflexivity|].
  destruct skip; [|reflexivity].
  assert (E : match_len r prev (c :: s) = match_len r prev' (c :: s)).
  { unfold match_len. apply rmatch_prev; [exact Hb | reflexivity]. }
  rewrite E. reflexivity.
Qed.

(** ** A closed reasoning block is removed *)

Lemma star_lazy_run X p (k : cont X) x :
  forall u v prev,
    Forall (fun c => p c = true) u ->
    (forall prev' c rest, In c u -> k prev' (c :: rest) = None) ->
    k (prev_after prev u) v = Some x ->
    star_lazy p prev (u ++ v) k = Some x.
Proof.
  induction u as [|c u IH]; intros v prev Hu Hfail Hk.
  - simpl in *. destruct v; simpl; rewrite Hk; reflexivity.
  - inversion Hu; subst. cbn [app star_lazy].
    rewrite (Hfail prev c (u ++ v) (or_introl eq_refl)), H1.
    apply IH; [assumption | | exact Hk].
    intros q d rest Hd. apply Hfail. right. exact Hd.
Qed.

Lemma spelled_think w :
  spelled_ci "think" w = true ->
  exists t h i n k,
    w = [t; h; i; n; k]
    /\ lit_ci 116 t = true /\ lit_ci 104 h = true /\ lit_ci 105 i = true
    /\ lit_ci 110 n = true /\ lit_ci 107 k = true.
Proof.
  unfold spelled_ci.
  let r := eval cbv -[lit_ci] in (List.map lit_ci (py "think")) in
  change (List.map lit_ci (py "think")) with r.
  intros H.
  do 5 (destruct w as [|? w];
        [cbn [all2] in H; rewrite ?andb_false_r in H; discriminate|]).
  cbn [all2] in H.
  repeat (apply andb_true_iff in H; destruct H as [? H]).
  destruct w; [|discriminate].
  do 5 eexists. repeat split; eassumption.
Qed.

Lemma think_block_match prev w1 body w2 post :
  spelled_ci "think" w1 = true -> spelled_ci "think" w2 = true ->
  Forall (fun c => one 60 c = false) body ->
  match_len re_think_tag prev (think_block w1 body w2 ++ post)
  = Some (List.length (think_block w1 body w2)).
Proof.
  intros H1 H2 Hbody.
  destruct (spelled_think w1 H1) as (t & h & i & n & k & -> & Ht & Hh & Hi & Hn & Hk).
  destruct (spelled_think w2 H2)
    as (t' & h' & i' & n' & k' & -> & Ht' & Hh' & Hi' & Hn' & Hk').
  assert (Wt : py_isspace t = false) by (clear - Ht; class_fact).
  assert (Wt' : py_isspace t' = false) by (clear - Ht'; class_fact).
  unfold think_block, match_len. rewrite <- !app_assoc. cbn [app].
  expose re_think_tag. cbn [rmatch star_greedy].
  change (one 60 60) with true. change (one 62 62) with true.
  change (py_isspace 62) with false. cbv iota.
  rewrite Wt, Ht, Hh, Hi, Hn, Hk.
  apply star_lazy_run.
  - apply Forall_forall. reflexivity.
  - intros q c rest Hc. rewrite Forall_forall in Hbody.
    rewrite (Hbody c Hc). reflexivity.
  - change (one 60 60) with true. change (one 47 47) with true. cbv iota.
    cbn [star_greedy]. rewrite Wt', Ht', Hh', Hi', Hn', Hk'.
    cbn [star_greedy].
    change (one 62 62) with true. change (py_isspace 62) with false. cbv iota.
    f_equal. cbn [List.length]. rewrite !length_app. cbn [List.length]. lia.
Qed.

Lemma think_block_removal (pre w1 body w2 post : pystr) :
  Forall (fun c => one 60 c = false) pre ->
  spelled_ci "think" w1 = true -> spelled_ci "think" w2 = true ->
  Forall (fun c => one 60 c = false) body ->
  sub re_think_tag [] (pre ++ think_block w1 body w2 ++ post)
  = pre ++ sub re_think_tag [] post.
Proof.
  intros Hpre H1 H2 Hbody.
  pose proof (think_block_match (prev_after None pre) w1 body w2 post H1 H2 Hbody) as M.
  assert (Hb : no_bol re_think_tag = true) by reflexivity.
  unfold sub.
  replace (sub_scan re_think_tag [] 0 None (pre ++ think_block w1 body w2 ++ post))
    with (pre ++ sub_scan re_think_tag [] 0 (prev_after None pre)
                   (think_block w1 body w2 ++ post)).
  - f_equal.
    unfold think_block in *. cbn [app List.length] in *.
    rewrite (sub_scan_match _ _ _ _ _ _ M). cbn [app].
    rewrite sub_scan_skip. apply sub_scan_prev, Hb.
  - symmetry. expose re_think_tag.
    apply (sub_scan_first_class (one 60)). exact Hpre.
Qed.

(** A block [<think>body</think>] whose body holds no [<] is removed
    together with its tags, whatever the letter case of the tag names, from
    a text that holds no [<] before it. *)
Theorem think_block_is_removed (pre w1 body w2 post : pystr) :
  Forall (fun c => one 60 c = false) pre ->
  spelled_ci "think" w1 = true -> spelled_ci "think" w2 = true ->
  Forall (fun c => one 60 c = false) body ->
  sub re_think_tag [] (pre ++ think_block w1 body w2 ++ post)
  = pre ++ sub re_think_tag [] post.
Proof. exact (think_block_removal pre w1 body w2 post). Qed.

Lemma think_block_is_removed_witness :
  sub re_think_tag []
    (py "Note: " ++ think_block (py "THINK") (py "step 1 > step 2") (py "Think")
     ++ py " done <b>")
  = py "Note: " ++ sub re_think_tag [] (py " done <b>").
Proof.
  apply (think_block_is_removed (py "Note: ") (py "THINK")
           (py "step 1 > step 2") (py "Think") (py " done <b>")).
  - repeat constructor.
  - reflexivity.
  - reflexivity.
  - repeat constructor.
Defined.

(** A reasoning block at the head of the answer leaves no trace: the
    cleaned text is that of the answer alone. *)
Theorem leading_think_block_is_dropped (w1 body w2 answer : pystr) :
  spelled_ci "think" w1 = true -> spelled_ci "think" w2 = true ->
  Forall (fun c => one 60 c = false) body ->
  clean_text (think_block w1 body w2 ++ answer) = clean_text answer.
Proof.
  intros H1 H2 Hbody. rewrite !clean_text_eq. unfold remove_markers.
  pose proof (think_block_removal [] w1 body w2 answer (Forall_nil _) H1 H2 Hbody)
    as E.
  cbn [app] in E. rewrite E. reflexivity.
Qed.

Lemma leading_think_block_is_dropped_witness :
  clean_text (think_block (py "think") (py "internal reasoning") (py "think")
              ++ py "Final answer here")
  = clean_text (py "Final answer here").
Proof.
  apply (leading_think_block_is_dropped (py "think") (py "internal reasoning")
           (py "think") (py "Final answer here")).
  - reflexivity.
  - reflexivity.
  - repeat constructor.
Defined.

(** ** Text without markup *)

Lemma seq_of_fail X ps tail :
  forall prev s (k : cont X),
    prefix_cls ps s = false -> rmatch (seq_of ps tail) prev s k = None.
Proof.
  induction ps as [|p ps IH]; intros prev s k H; simpl in *; [discriminate|].
  destruct s as [|c s]; [reflexivity|].
  destruct (p c); [apply IH; exact H | reflexivity].
Qed.

Lemma prefix_cls_app_false ps qs :
  forall s, prefix_cls ps s = false -> prefix_cls (ps ++ qs) s = false.
Proof.
  induction ps as [|p ps IH]; intros s H; simpl in *; [discriminate|].
  destruct s as [|c s]; [reflexivity|].
  destruct (p c); simpl in *; [apply IH; exact H | reflexivity].
Qed.

Lemma mentions_think_here s :
  mentions_think s = false ->
  prefix_cls (List.map lit_ci (py "think")) s = false.
Proof.
  destruct s as [|c s]; intros H; [reflexivity|].
  cbn [mentions_think] in H. apply orb_false_iff in H. apply H.
Qed.

Lemma mentions_think_skipn n :
  forall s, mentions_think s = false -> mentions_think (skipn n s) = false.
Proof.
  induction n as [|n IH]; intros s H; simpl; [exact H|].
  destruct s as [|c s]; [exact H|].
  apply IH. cbn [mentions_think] in H. apply orb_false_iff in H. apply H.
Qed.

Lemma think_done_needs_think s prev :
  mentions_think s = false -> match_len re_think_done prev s = None.
Proof.
  intros H. unfold match_len, re_think_done, word_ci.
  apply seq_of_fail, mentions_think_here, H.
Qed.

Lemma thinking_line_needs_think s prev :
  mentions_think s = false -> match_len re_thinking_line prev s = None.
Proof.
  intros H. unfold match_len, re_thinking_line.
  do 2 (apply rmatch_cat_fail; intros ? ?).
  unfold word_ci. apply seq_of_fail.
  change (List.map lit_ci (py "thinking"))
    with (List.map lit_ci (py "think") ++ List.map lit_ci (py "ing")).
  apply prefix_cls_app_false, mentions_think_here.
  do 2 apply mentions_think_skipn. exact H.
Qed.

Lemma markup_free_is_untouched x :
  Forall (fun c => one 60 c = false) x -> mentions_think x = false ->
  remove_markers x = x.
Proof.
  intros Hlt Hth. unfold remove_markers.
  rewrite (think_tag_fixed x Hlt).
  assert (E : sub re_think_done [] x = x).
  { apply sub_scan_id. intros n q.
    apply think_done_needs_think, mentions_think_skipn, Hth. }
  rewrite E. apply sub_scan_id. intros n q.
  apply thinking_line_needs_think, mentions_think_skipn, Hth.
Qed.

(** A text with no [<] and no word "think" (in any letter case) is
    only normalised: lines 31 to 33 leave it as it is. *)
Theorem markup_free_text_is_only_normalized (x : pystr) :
  Forall (fun c => one 60 c = false) x -> mentions_think x = false ->
  clean_text x = normalize x.
Proof.
  intros Hlt Hth. rewrite clean_text_eq, (markup_free_is_untouched x Hlt Hth).
  reflexivity.
Qed.

Lemma markup_free_text_is_only_normalized_witness :
  clean_text (py "  Rates   rise " ++ [NL; TAB] ++ py "again. ")
  = normalize (py "  Rates   rise " ++ [NL; TAB] ++ py "again. ").
Proof.
  apply (markup_free_text_is_only_normalized
           (py "  Rates   rise " ++ [NL; TAB] ++ py "again. ")).
  - repeat constructor.
  - reflexivity.
Defined.

(** A summary that is already clean (no markup, single spaces, no
    whitespace at either end) comes out of the cleaning unchanged. *)
Theorem clean_summary_is_unchanged (x : pystr) :
  Forall (fun c => one 60 c = false) x -> mentions_think x = false ->
  normal x ->
  clean_text x = x.
Proof.
  intros Hlt Hth Hn.
  rewrite clean_text_eq, (markup_free_is_untouched x Hlt Hth).
  apply normalize_fixed, Hn.
Qed.

Lemma clean_summary_is_unchanged_witness :
  clean_text (py "Court backs the merger; shares rise 4%.")
  = py "Court backs the merger; shares rise 4%.".
Proof.
  apply (clean_summary_is_unchanged (py "Court backs the merger; shares rise 4%.")).
  - repeat constructor.
  - reflexivity.
  - vm_compute. repeat split.
Defined.

(** ** The per-line trimming changes nothing in the end *)

Lemma drop_while_app p (a b : pystr) :
  drop_while p (a ++ b)
  = if forallb p a then drop_while p b else drop_while p a ++ b.
Proof.
  induction a as [|c a IH]; simpl; [reflexivity|].
  destruct (p c); simpl; [exact IH | reflexivity].
Qed.

Lemma forallb_rev (p : char -> bool) (s : pystr) : forallb p (rev s) = forallb p s.
Proof.
  induction s as [|c s IH]; simpl; [reflexivity|].
  rewrite forallb_app, IH. simpl. rewrite andb_true_r. apply andb_comm.
Qed.

Lemma rstrip_all_space u : forallb py_isspace u = true -> rstrip u = [].
Proof.
  intros H. unfold rstrip.
  assert (E : drop_while py_isspace (rev u) = []).
  { rewrite <- forallb_rev in H. revert H. generalize (rev u) as v.
    induction v as [|c v IH]; simpl; [reflexivity|].
    intros H. apply andb_true_iff in H as [H1 H2]. rewrite H1. auto. }
  rewrite E. reflexivity.
Qed.

Lemma rstrip_cons c u :
  rstrip (c :: u)
  = if py_isspace c && forallb py_isspace u then [] else c :: rstrip u.
Proof.
  unfold rstrip. simpl rev. rewrite drop_while_app, forallb_rev.
  destruct (forallb py_isspace u) eqn:A.
  - pose proof (rstrip_all_space u A) as R. unfold rstrip in R.
    simpl. destruct (py_isspace c); simpl; [reflexivity|].
    rewrite R. reflexivity.
  - rewrite andb_false_r, rev_app_distr. reflexivity.
Qed.

Lemma collapse_true_starts_clean t : starts_clean (collapse true t).
Proof.
  induction t as [|c t IH]; simpl; [exact I|].
  destruct (py_isspace c) eqn:E; [exact IH | simpl; exact E].
Qed.

Lemma lstrip_collapse t : lstrip (collapse false t) = collapse true t.
Proof.
  unfold lstrip. destruct t as [|c t]; [reflexivity|]. simpl.
  destruct (py_isspace c) eqn:E.
  - simpl. apply drop_while_clean, collapse_true_starts_clean.
  - simpl. rewrite E. reflexivity.
Qed.

Lemma rstrip_collapse_squeeze :
  forall t,
    rstrip (collapse false t) = squeeze false true t
    /\ rstrip (SPACE :: collapse true t) = squeeze true true t
    /\ rstrip (collapse true t) = squeeze false false t.
Proof.
  induction t as [|c t (IHa & IHb & IHs)]; [repeat split|].
  cbn [collapse squeeze]. destruct (py_isspace c) eqn:E.
  - repeat split; assumption.
  - assert (R : forall u, rstrip (c :: u) = c :: rstrip u).
    { intros u. rewrite rstrip_cons, E. reflexivity. }
    repeat split.
    + rewrite R, IHa. reflexivity.
    + rewrite rstrip_cons. cbn [forallb]. rewrite E, andb_false_r.
      rewrite R, IHa. reflexivity.
    + rewrite R, IHa. reflexivity.
Qed.

Lemma strip_collapse_squeeze t : strip (collapse false t) = squeeze false false t.
Proof.
  unfold strip. rewrite lstrip_collapse. apply rstrip_collapse_squeeze.
Qed.

Lemma star_greedy_eol (f : pystr -> nat) :
  forall s prev,
    star_greedy blank prev s
      (fun _ rest => if at_eol rest then Some (f rest) else None)
    = if at_eol (drop_while blank s) then Some (f (drop_while blank s)) else None.
Proof.
  induction s as [|c s IH]; intros prev; [reflexivity|].
  cbn [star_greedy drop_while]. destruct (blank c) eqn:B; [|reflexivity].
  rewrite IH. destruct (at_eol (drop_while blank s)); [reflexivity|].
  cbn [at_eol].
  assert (N : chr_eqb c NL = false) by (clear - B; class_fact).
  rewrite N. reflexivity.
Qed.

Lemma match_len_line_trim prev c s :
  match_len re_line_trim prev (c :: s)
  = if blank c && (at_bol prev || at_eol (drop_while blank s))
    then Some (S (run blank s)) else None.
Proof.
  assert (L : List.length (c :: s) - List.length (drop_while blank s)
              = S (run blank s)).
  { pose proof (run_drop blank s).
    change (List.length (c :: s)) with (S (List.length s)). lia. }
  unfold match_len, re_line_trim, Plus. cbn [rmatch].
  destruct (blank c); [|destruct (at_bol prev); reflexivity].
  rewrite (star_greedy_total blank
             (fun rest => List.length (c :: s) - List.length rest)).
  rewrite (star_greedy_eol
             (fun rest => List.length (c :: s) - List.length rest)).
  rewrite L.
  destruct (at_bol prev); [reflexivity|].
  destruct (at_eol (drop_while blank s)); reflexivity.
Qed.

Lemma skipn_run_blank s : skipn (run blank s) s = drop_while blank s.
Proof.
  induction s as [|c s IH]; simpl; [reflexivity|].
  destruct (blank c); simpl; [exact IH | reflexivity].
Qed.

Lemma firstn_run_blank s : Forall (fun c => blank c = true) (firstn (run blank s) s).
Proof.
  induction s as [|c s IH]; simpl; [constructor|].
  destruct (blank c) eqn:B; simpl; [constructor; assumption | constructor].
Qed.

Lemma squeeze_blanks st s :
  squeeze st st s = squeeze st st (drop_while blank s).
Proof.
  induction s as [|c s IH]; simpl; [reflexivity|].
  destruct (blank c) eqn:B; [|reflexivity].
  rewrite (blank_isspace c B). exact IH.
Qed.

Lemma squeeze_at_eol p st rest :
  at_eol rest = true -> squeeze p st rest = squeeze st st rest.
Proof.
  destruct rest as [|d rest]; [reflexivity|]. simpl. intros H.
  apply N.eqb_eq in H. subst d. reflexivity.
Qed.

(** The words of the text are the same before and after the trimming
    of line 34, from any point of the scan. *)
Lemma squeeze_line_trim :
  forall s skip prev p st,
    (skip = 0 -> at_bol prev = true -> p = st) ->
    Forall (fun c => blank c = true) (firstn skip s) ->
    squeeze p st (sub_scan re_line_trim [] skip prev s)
    = squeeze p st (skipn skip s).
Proof.
  induction s as [|c s IH]; intros skip prev p st Hinv Hbl.
  - destruct skip; reflexivity.
  - destruct skip as [|n].
    + cbn [sub_scan skipn]. rewrite match_len_line_trim.
      destruct (blank c && (at_bol prev || at_eol (drop_while blank s))) eqn:M.
      * apply andb_true_iff in M. destruct M as [B M].
        cbn [app]. rewrite IH.
        -- rewrite skipn_run_blank. cbn [squeeze].
           rewrite (blank_isspace c B), (squeeze_blanks st s).
           apply orb_true_iff in M. destruct M as [M|M].
           ++ rewrite (Hinv eq_refl M). reflexivity.
           ++ apply squeeze_at_eol, M.
        -- intros _ Hb. exfalso. simpl in Hb.
           assert (N : chr_eqb c NL = false) by (clear - B; class_fact).
           congruence.
        -- apply firstn_run_blank.
      * cbn [squeeze]. destruct (py_isspace c) eqn:W.
        -- apply (IH 0 (Some c) st st); [reflexivity | constructor].
        -- f_equal. apply (IH 0 (Some c) false true); [|constructor].
           intros _ Hb. simpl in Hb. rewrite (not_space_not_NL c W) in Hb.
           discriminate.
    + cbn [sub_scan skipn]. cbn [firstn] in Hbl. inversion Hbl; subst.
      apply IH; [|assumption].
      intros _ Hb. exfalso. simpl in Hb.
      assert (N : chr_eqb c NL = false)
        by (match goal with B : blank c = true |- _ => clear - B; class_fact end).
      congruence.
Qed.

(** The normalisation of lines 34 and 35 gives the words of the text
    separated by single spaces.  The trimming of each line (line 34) never
    changes the result: collapsing the whitespace and stripping (line 35)
    gives the same text without it. *)
Theorem line_trim_is_redundant (t : pystr) :
  normalize t = squeeze false false t
  /\ normalize t = strip (sub re_spaces [SPACE] t).
Proof.
  assert (E : normalize t = squeeze false false t).
  { unfold normalize, sub.
    rewrite (proj1 (sub_spaces_collapse _ None)), strip_collapse_squeeze.
    rewrite (squeeze_line_trim t 0 None false false);
      [reflexivity | reflexivity | constructor]. }
  split; [exact E|].
  rewrite E. unfold sub.
  rewrite (proj1 (sub_spaces_collapse _ None)), strip_collapse_squeeze.
  reflexivity.
Qed.

Lemma no_empty_match_witness :
  match_len re_line_trim None (py "  two leading blanks") <> Some 0.
Proof.
  apply (no_empty_match re_line_trim None (py "  two leading blanks")).
  simpl. tauto.
Defined.

End CleaningMore.

(* ===================================================================== *)
(** * Cleaning twice *)
(* ===================================================================== *)

Module CleaningTwice.
Import Re Cleaner CleanSpec MoreSpec ReFacts CleanerFacts CleanerFacts2
  MarkerLineFacts CleaningMore.

Lemma normalize_squeeze t : normalize t = squeeze false false t.
Proof.
  unfold normalize, sub.
  rewrite (proj1 (sub_spaces_collapse _ None)), strip_collapse_squeeze.
  rewrite (squeeze_line_trim t 0 None false false);
    [reflexivity | reflexivity | constructor].
Qed.

(** After whitespace, the squeezed text goes on with a space, or ends. *)
Lemma squeeze_pending_head s :
  squeeze true true s = [] \/ exists t, squeeze true true s = SPACE :: t.
Proof.
  induction s as [|c s IH]; simpl; [left; reflexivity|].
  destruct (py_isspace c); [exact IH | right; eexists; reflexivity].
Qed.

Lemma squeeze_keeps (P : char -> Prop) :
  P SPACE ->
  forall s pending started, Forall P s -> Forall P (squeeze pending started s).
Proof.
  intros Hsp. induction s as [|c s IH]; intros pending started H; simpl;
    [constructor|].
  inversion H; subst.
  destruct (py_isspace c); [auto|].
  apply Forall_app. split; [|auto].
  destruct pending; repeat constructor; assumption.
Qed.

(** Squeezing brings no two characters together that whitespace kept
    apart: a run of characters, none of them a space, that the squeezed
    text begins with is one the text began with. *)
Lemma prefix_cls_squeeze ps :
  Forall (fun p : char -> bool => p SPACE = false) ps ->
  forall s,
    prefix_cls ps (squeeze false true s) = true -> prefix_cls ps s = true.
Proof.
  induction ps as [|p ps IH]; intros Hps s H; [reflexivity|].
  inversion Hps as [|? ? Hp Hrest]; subst.
  destruct s as [|d s]; [discriminate H|].
  cbn [squeeze] in H. destruct (py_isspace d) eqn:W.
  - exfalso. destruct (squeeze_pending_head s) as [E|[t E]]; rewrite E in H.
    + discriminate H.
    + cbn [prefix_cls] in H. rewrite Hp in H. discriminate H.
  - cbn [app prefix_cls] in *.
    apply andb_true_iff in H. destruct H as [H1 H2].
    rewrite H1, (IH Hrest s H2). reflexivity.
Qed.

Lemma think_classes :
  exists t rest,
    List.map lit_ci (py "think") = t :: rest
    /\ t SPACE = false
    /\ Forall (fun p : char -> bool => p SPACE = false) rest.
Proof.
  eexists. eexists. split; [reflexivity|].
  split; [reflexivity | repeat constructor].
Qed.

Lemma mentions_think_squeeze :
  forall s pending started,
    mentions_think s = false ->
    mentions_think (squeeze pending started s) = false.
Proof.
  destruct think_classes as (t & rest & ET & Ht & Hrest).
  induction s as [|c s IH]; intros pending started H; [exact H|].
  pose proof H as Hc.
  cbn [mentions_think] in H. apply orb_false_iff in H. destruct H as [Hhere Hs].
  cbn [squeeze]. destruct (py_isspace c) eqn:W; [apply IH, Hs|].
  assert (Hcons : mentions_think (c :: squeeze false true s) = false).
  { cbn [mentions_think]. apply orb_false_iff. split; [|apply IH, Hs].
    rewrite ET in *. cbn [prefix_cls] in *.
    destruct (t c); [|reflexivity]. cbn [andb] in *.
    destruct (prefix_cls rest (squeeze false true s)) eqn:P; [|reflexivity].
    rewrite (prefix_cls_squeeze rest Hrest s P) in Hhere. discriminate Hhere. }
  destruct pending; cbn [app]; [|exact Hcons].
  cbn [mentions_think]. apply orb_false_iff. split; [|exact Hcons].
  rewrite ET. cbn [prefix_cls]. rewrite Ht. reflexivity.
Qed.

(** C3, amended.  Normalising a cleaned text never changes it; cleaning
    twice gives the same as cleaning once whenever the text cleaned once
    holds no [<] and nowhere the word "think" (in any letter case); and
    that is so whenever the text given holds neither. *)
Theorem clean_text_idempotent_without_markup (x : pystr) :
  normalize (clean_text x) = clean_text x
  /\ (markup_free (clean_text x) -> clean_text (clean_text x) = clean_text x)
  /\ (markup_free x -> markup_free (clean_text x)).
Proof.
  assert (N : normalize (clean_text x) = clean_text x)
    by apply normalize_fixed, clean_text_normal.
  split; [exact N|]. split.
  - intros [Hlt Hth].
    rewrite (clean_text_eq (clean_text x)), (markup_free_is_untouched _ Hlt Hth).
    exact N.
  - intros [Hlt Hth].
    rewrite clean_text_eq, (markup_free_is_untouched x Hlt Hth), normalize_squeeze.
    split.
    + apply squeeze_keeps; [reflexivity | exact Hlt].
    + apply mentions_think_squeeze, Hth.
Qed.

Lemma clean_text_idempotent_without_markup_witness :
  let x := py "<think>plan</think>  Rates   rise" ++ [NL] ++ py " again " in
  clean_text x = py "Rates rise again"
  /\ markup_free (clean_text x)
  /\ clean_text (clean_text x) = clean_text x.
Proof.
  assert (F : markup_free
                (clean_text (py "<think>plan</think>  Rates   rise"
                             ++ [NL] ++ py " again "))).
  { split; [vm_compute; repeat constructor | vm_compute; reflexivity]. }
  split; [vm_compute; reflexivity|]. split; [exact F|].
  exact (proj1 (proj2 (clean_text_idempotent_without_markup
                         (py "<think>plan</think>  Rates   rise"
                          ++ [NL] ++ py " again "))) F).
Defined.

End CleaningTwice.

(* ===================================================================== *)
(** * Further properties of the orchestrator *)
(* ===================================================================== *)

Module OrchestratorMore.
Import Re Cleaner CleanSpec MoreSpec CleanerFacts CleanerFacts2 Processor
  ProcessorFacts.
Local Open Scope prog_scope.

(** ** Steps that stop a run do so with status 1 and in silence *)

Lemma bind_exit A B (m : prog A) (f : A -> prog B) st code st' :
  bind m f st = (Exited code, st') ->
  m st = (Exited code, st')
  \/ exists a st1, m st = (Done a, st1) /\ f a st1 = (Exited code, st').
Proof.
  unfold bind. destruct (m st) as [[a|c] st1]; intros H.
  - right. exists a, st1. split; [reflexivity | exact H].
  - left. inversion H. reflexivity.
Qed.

Lemma fq_bind A B (m : prog A) (f : A -> prog B) :
  fails_quietly m -> silent m -> (forall a, fails_quietly (f a)) ->
  fails_quietly (bind m f).
Proof.
  intros Hm Hs Hf st code st' H.
  destruct (bind_exit _ _ _ _ _ _ _ H) as [E|(a & st1 & E1 & E2)].
  - exact (Hm _ _ _ E).
  - destruct (Hf a _ _ _ E2) as [Hc Ho]. split; [exact Hc|].
    rewrite Ho. exact (Hs _ _ _ E1).
Qed.

Lemma fq_ret A (a : A) : fails_quietly (ret a).
Proof. intros st code st' H. discriminate. Qed.

Lemma fq_exit1 A : fails_quietly (@sys_exit A 1%Z).
Proof. intros st code st' H. inversion H. split; reflexivity. Qed.

Lemma fq_say d : fails_quietly (say d).
Proof. intros st code st' H. discriminate. Qed.

Lemma fq_request A e (answer : nat -> A) : fails_quietly (request e answer).
Proof. intros st code st' H. discriminate. Qed.

Lemma fq_clock w : fails_quietly (clock w).
Proof. intros st code st' H. discriminate. Qed.

Lemma fq_cache_stat : fails_quietly cache_stat.
Proof. intros st code st' H. discriminate. Qed.

Lemma fq_cache_read t : fails_quietly (cache_read_text t).
Proof. intros st code st' H. discriminate. Qed.

Lemma fq_cache_write w t : fails_quietly (cache_write_text w t).
Proof. intros st code st' H. discriminate. Qed.

Create HintDb fq_db.
#[local] Hint Resolve fq_ret fq_exit1 fq_say fq_request fq_clock fq_cache_stat
  fq_cache_read fq_cache_write : fq_db.
#[local] Hint Resolve silent_ret silent_exit silent_say silent_request
  silent_clock silent_cache_stat silent_cache_read silent_cache_write
  silent_validate silent_check_server silent_check_model silent_unload_each
  silent_unload silent_check_repeated silent_fetch_new silent_fetch
  silent_generate : fq_db.

Ltac fq_step :=
  first
    [ solve [auto with fq_db]
    | apply fq_bind; [ | solve [auto with fq_db] | intros ?]
    | match goal with
      | |- fails_quietly (if ?b then _ else _) => destruct b
      | |- fails_quietly (match ?x with _ => _ end) => destruct x
      end ].

Lemma fq_validate host context : fails_quietly (validate_ollama_host host context).
Proof. unfold validate_ollama_host. repeat fq_step. Qed.
#[local] Hint Resolve fq_validate : fq_db.

Lemma fq_check_server w host : fails_quietly (check_ollama_server w host).
Proof. unfold check_ollama_server. repeat fq_step. Qed.

Lemma fq_check_model w host model : fails_quietly (check_model_available w host model).
Proof. unfold check_model_available. repeat fq_step. Qed.

Lemma fq_unload_each w host models :
  forall errors, fails_quietly (unload_each w host models errors).
Proof.
  induction models as [|m models IH]; intros errors; simpl.
  - apply fq_ret.
  - repeat first [apply IH | fq_step].
Qed.
#[local] Hint Resolve fq_check_server fq_check_model fq_unload_each : fq_db.

Lemma fq_unload w host : fails_quietly (unload_ollama_models w host).
Proof. unfold unload_ollama_models. repeat fq_step. Qed.

Lemma fq_check_repeated w allow : fails_quietly (check_repeated_content w allow).
Proof. unfold check_repeated_content. repeat fq_step. Qed.

Lemma fq_fetch_new w url : fails_quietly (fetch_new_content w url).
Proof. unfold fetch_new_content. repeat fq_step. Qed.
#[local] Hint Resolve fq_unload fq_check_repeated fq_fetch_new : fq_db.

Lemma fq_fetch w url : fails_quietly (fetch_article_content w url).
Proof. unfold fetch_article_content. repeat fq_step. Qed.

Lemma fq_generate w host model prompt content :
  fails_quietly (generate_summary w host model prompt content).
Proof. unfold generate_summary. repeat fq_step. Qed.
#[local] Hint Resolve fq_fetch fq_generate : fq_db.

Lemma check_repeated_value w allow st s st' :
  check_repeated_content w allow st = (Done (Some s), st') -> s = REPEATED.
Proof.
  unfold check_repeated_content.
  destruct (str_eqb allow REPEATED).
  - unfold bind, say, ret. simpl. discriminate.
  - unfold bind, cache_stat, clock, say, ret. simpl.
    destruct (st_cache st) as [[mtime text]|]; [|discriminate].
    destruct (Qltb _ 24); intros H; inversion H. reflexivity.
Qed.

(** How [summarize] can stop a run: with status 1 and nothing printed,
    or at the cache check with status 0 and the reuse sentinel. *)
Lemma summarize_exits w a st code st' :
  summarize w a st = (Exited code, st') ->
  (code = 1%Z /\ st_out st' = st_out st)
  \/ (code = 0%Z /\ st_out st' = st_out st ++ [REPEATED]).
Proof.
  unfold summarize. intros H.
  apply bind_exit in H. destruct H as [H|(? & s1 & H1 & H)]; [discriminate|].
  pose proof (silent_say _ _ _ _ H1) as O1.
  apply bind_exit in H. destruct H as [H|(? & s2 & H2 & H)].
  { left. rewrite <- O1. exact (fq_check_server _ _ _ _ _ H). }
  pose proof (silent_check_server _ _ _ _ _ H2) as O2.
  apply bind_exit in H. destruct H as [H|(? & s3 & H3 & H)].
  { left. rewrite <- O1, <- O2. exact (fq_check_model _ _ _ _ _ _ H). }
  pose proof (silent_check_model _ _ _ _ _ _ H3) as O3.
  apply bind_exit in H. destruct H as [H|(? & s4 & H4 & H)]; [discriminate|].
  pose proof (silent_say _ _ _ _ H4) as O4.
  apply bind_exit in H. destruct H as [H|(rep & s5 & H5 & H)].
  { left. rewrite <- O1, <- O2, <- O3, <- O4.
    exact (fq_check_repeated _ _ _ _ _ H). }
  pose proof (silent_check_repeated _ _ _ _ _ H5) as O5.
  assert (O : st_out s5 = st_out st) by congruence.
  assert (Hrest : fails_quietly
                    (unload_ollama_models w (arg_host a) ;;
                     content <- fetch_article_content w (arg_url a) ;;
                     generate_summary w (arg_host a) (ollama_model a)
                       (summary_prompt (summary_length a)) content))
    by (repeat fq_step).
  destruct rep as [[|c r]|].
  - left. rewrite <- O. exact (Hrest _ _ _ H).
  - right. rewrite (check_repeated_value _ _ _ _ _ H5) in H.
    unfold bind, print, sys_exit in H. inversion H. simpl.
    split; [reflexivity | rewrite O; reflexivity].
  - left. rewrite <- O. exact (Hrest _ _ _ H).
Qed.

Lemma emit_summary_run w a summary st1 :
  is_empty (arg_host a) = false -> strip summary = summary ->
  exists st2,
    emit_summary w a summary st1
    = (Exited (if negb (startswith ERROR_PREFIX
                          (if is_empty summary then FALLBACK else summary))
               then 0%Z else 1%Z), st2)
    /\ st_out st2
       = st_out st1 ++ [if is_empty summary then FALLBACK else summary].
Proof.
  intros Hh Hstrip. unfold emit_summary. rewrite Hstrip, orb_diag.
  set (emitted := if is_empty summary then FALLBACK else summary).
  assert (E : forall k : pystr -> prog unit,
             bind (if is_empty summary
                   then bind (say EmptySummaryWarning) (fun _ => ret FALLBACK)
                   else ret summary) k st1
             = k emitted
                 (if is_empty summary
                  then snd (say EmptySummaryWarning st1) else st1)).
  { intros k. subst emitted. destruct (is_empty summary); reflexivity. }
  rewrite E. set (st1' := if is_empty summary then _ else st1).
  assert (Hout' : st_out st1' = st_out st1).
  { subst st1'. destruct (is_empty summary); reflexivity. }
  unfold bind at 1. unfold say at 1. cbn [fst snd].
  unfold bind at 1.
  match goal with
  | |- context [(if ?c then say ?d else ret tt) ?s] =>
      assert (E2 : exists s', (if c then say d else ret tt) s = (Done tt, s')
                              /\ st_out s' = st_out st1)
        by (destruct c; eexists; split; try reflexivity; exact Hout')
  end.
  destruct E2 as (s2 & -> & Ho2).
  unfold bind at 1. unfold print at 1. cbn [fst snd].
  unfold bind at 1.
  match goal with
  | |- context [unload_ollama_models w ?h ?s] =>
      destruct (unload_returns w h s Hh) as (s3 & -> & Ho3)
  end.
  eexists. split; [reflexivity|].
  rewrite Ho3. cbn [st_out]. rewrite Ho2. reflexivity.
Qed.

(** Every run of the orchestrator ends by an exit, with status 0 or 1.
    With status 0 it has printed exactly one line, which is not empty and
    does not begin with "[Error" (the summary, or the reuse sentinel); with
    status 1 it has printed nothing, or one line that begins with
    "[Error". *)
Theorem main_exit_and_output (w : world) (a : args) (cache : option (Q * pystr)) :
  let r := run_main w a cache in
  (exit_status r = Some 0%Z
   /\ exists line, st_out (snd r) = [line] /\ line <> []
                   /\ startswith ERROR_PREFIX line = false)
  \/ (exit_status r = Some 1%Z
      /\ (st_out (snd r) = []
          \/ exists line, st_out (snd r) = [line]
                          /\ startswith ERROR_PREFIX line = true)).
Proof.
  intros r. subst r. unfold run_main, main, exit_status.
  destruct (summarize w a (init_state cache)) as [[summary|code] st1] eqn:E.
  - rewrite (bind_step _ _ _ _ _ _ _ E).
    destruct (summarize_done _ _ _ _ _ E) as (Hh & (raw & Hraw) & Hout).
    assert (Hstrip : strip summary = summary)
      by (rewrite Hraw; apply strip_clean_text).
    destruct (emit_summary_run w a summary st1 Hh Hstrip) as (st2 & -> & Ho).
    cbn [fst snd]. rewrite Ho, Hout. cbn [init_state st_out app].
    set (emitted := if is_empty summary then FALLBACK else summary).
    assert (Hne : emitted <> []).
    { subst emitted. destruct summary; simpl; discriminate. }
    destruct (startswith ERROR_PREFIX emitted) eqn:S; simpl.
    + right. split; [reflexivity|]. right. exists emitted. split; [reflexivity | exact S].
    + left. split; [reflexivity|]. exists emitted. repeat split; assumption.
  - unfold bind. rewrite E. cbn [fst snd].
    destruct (summarize_exits _ _ _ _ _ E) as [[-> Ho]|[-> Ho]].
    + right. split; [reflexivity|]. left. exact Ho.
    + left. split; [reflexivity|]. exists REPEATED. rewrite Ho.
      repeat split. discriminate.
Qed.

(** ** The model check *)

Lemma str_eqb_refl s : str_eqb s s = true.
Proof.
  induction s as [|c s IH]; simpl; [reflexivity|].
  unfold chr_eqb. rewrite N.eqb_refl. exact IH.
Qed.

Lemma listed_iff model listed :
  existsb (fun m => str_eqb m model) listed = true <-> In model listed.
Proof.
  rewrite existsb_exists. split.
  - intros (m & Hin & E). apply BenchFacts.str_eqb_eq in E. subst m. exact Hin.
  - intros Hin. exists model. split; [exact Hin | apply str_eqb_refl].
Qed.

(** When the server answers but the model asked for is not among the
    names it lists (the comparison is exact), or the second listing fails,
    the run ends with status 1 after the two listings: nothing is printed,
    fetched, unloaded, generated or cached. *)
Theorem unlisted_model_aborts
        (w : world) (a : args) (cache : option (Q * pystr)) (listed0 : list pystr) :
  is_empty (arg_host a) = false ->
  w_tags w 0 (arg_host a) = Some listed0 ->
  match w_tags w 1 (arg_host a) with
  | Some listed1 => ~ In (ollama_model a) listed1
  | None => True
  end ->
  let r := run_main w a cache in
  exit_status r = Some 1%Z
  /\ st_trace (snd r) = [GetTags (arg_host a); GetTags (arg_host a)]
  /\ st_out (snd r) = []
  /\ st_cache (snd r) = cache.
Proof.
  intros Hh H0 H1 r. subst r.
  unfold run_main, main, summarize, check_ollama_server, check_model_available,
    validate_ollama_host, init_state, exit_status.
  unfold bind, say, print, request, sys_exit, ret.
  cbn [fst snd st_cache st_reqs st_reads st_trace st_out st_err].
  rewrite Hh. cbn. rewrite H0. cbn.
  destruct (w_tags w 1 (arg_host a)) as [listed1|]; cbn.
  - destruct (existsb (fun m => str_eqb m (ollama_model a)) listed1) eqn:E.
    + apply listed_iff in E. contradiction.
    + cbn. repeat split.
  - repeat split.
Qed.

Lemma unlisted_model_aborts_witness :
  let w := steady_world 0 [py "Qwen3:1.7b"; py "qwen3:1.7b-q4"] None None in
  exit_status (run_main w (sample_args None) None) = Some 1%Z
  /\ st_trace (snd (run_main w (sample_args None) None))
     = [GetTags (py "localhost:11434"); GetTags (py "localhost:11434")].
Proof.
  assert (H : match w_tags (steady_world 0 [py "Qwen3:1.7b"; py "qwen3:1.7b-q4"]
                              None None) 1 (arg_host (sample_args None)) with
              | Some listed1 => ~ In (ollama_model (sample_args None)) listed1
              | None => True
              end).
  { simpl. intros [E|[E|[]]]; discriminate. }
  pose proof (unlisted_model_aborts
                (steady_world 0 [py "Qwen3:1.7b"; py "qwen3:1.7b-q4"] None None)
                (sample_args None) None _ eq_refl eq_refl H) as K.
  split; [exact (proj1 K) | exact (proj1 (proj2 K))].
Defined.

(** ** An empty host *)

(** With an empty host address the run stops with status 1 before any
    request is made: the trace is empty, nothing is printed and the cache is
    not touched. *)
Theorem empty_host_sends_nothing
        (w : world) (a : args) (cache : option (Q * pystr)) :
  arg_host a = [] ->
  let r := run_main w a cache in
  exit_status r = Some 1%Z
  /\ st_trace (snd r) = []
  /\ st_out (snd r) = []
  /\ st_cache (snd r) = cache
  /\ In (HostMissing (py "check_ollama_server")) (st_err (snd r)).
Proof.
  intros Hh r. subst r.
  unfold run_main, main, summarize, check_ollama_server, validate_ollama_host,
    init_state, exit_status.
  unfold bind, say, sys_exit, ret. rewrite Hh. cbn.
  repeat split. right. left. reflexivity.
Qed.

Lemma empty_host_sends_nothing_witness :
  let a := {| arg_host := []; arg_url := py "https://example.org/news";
              arg_model := None; arg_length := None; arg_repeated := None |} in
  exit_status (run_main (steady_world 0 [] None None) a None) = Some 1%Z
  /\ st_trace (snd (run_main (steady_world 0 [] None None) a None)) = [].
Proof.
  pose proof (empty_host_sends_nothing (steady_world 0 [] None None)
                {| arg_host := []; arg_url := py "https://example.org/news";
                   arg_model := None; arg_length := None; arg_repeated := None |}
                None eq_refl) as K.
  split; [exact (proj1 K) | exact (proj1 (proj2 K))].
Defined.

(** ** The content fetcher and the cache *)

(** Whatever the cache holds and the web answers, the fetcher prints
    nothing; when it returns a text the cache file holds exactly that text;
    when it fails it exits with status 1 and leaves the cache file as it
    was, without returning the old text. *)
Theorem fetch_keeps_cache_consistent (w : world) (url : pystr) (st : pstate) :
  let r := fetch_article_content w url st in
  st_out (snd r) = st_out st
  /\ match fst r with
     | Done text => exists mtime, st_cache (snd r) = Some (mtime, text)
     | Exited code => code = 1%Z /\ st_cache (snd r) = st_cache st
     end.
Proof.
  intros r. subst r.
  unfold fetch_article_content, fetch_new_content.
  unfold bind, say, request, sys_exit, ret, clock, cache_stat,
    cache_read_text, cache_write_text.
  cbn [fst snd st_cache st_reqs st_reads st_trace st_out st_err].
  destruct (st_cache st) as [[mtime cached]|] eqn:Ec;
    cbn [fst snd st_cache st_reqs st_reads st_trace st_out st_err].
  - destruct (Qltb (cache_age_hours (w_time w (st_reads st)) mtime) 24);
      cbn [fst snd st_cache st_reqs st_reads st_trace st_out st_err].
    + split; [reflexivity|]. exists mtime. exact Ec.
    + destruct (w_page w (st_reqs st) url); cbn.
      * split; [reflexivity|]. eexists. reflexivity.
      * repeat split. exact Ec.
  - destruct (w_page w (st_reqs st) url); cbn.
    + split; [reflexivity|]. eexists. reflexivity.
    + repeat split. exact Ec.
Qed.

Lemma strip_collapse_normal t : normal (strip (collapse false t)).
Proof.
  split; [apply strip_starts_clean|].
  apply spaced_inner with (b := false); [|apply strip_no_trailing].
  destruct (strip_infix (collapse false t)) as (a & b & E).
  pose proof (collapse_spaced t false) as S. rewrite E in S.
  apply spaced_suffix in S. apply spaced_prefix in S. exact S.
Qed.

(** Without a cache file, the fetcher asks the web once.  On an answer
    it stores and returns the page text with every whitespace run turned
    into one space and none at either end; on a failure it exits with
    status 1 and creates no cache file. *)
Theorem first_fetch_stores_normalized_text (w : world) (url : pystr) (st : pstate) :
  st_cache st = None ->
  let r := fetch_article_content w url st in
  match w_page w (st_reqs st) url with
  | Some page =>
      let text := strip (sub re_spaces [SPACE] page) in
      fst r = Done text
      /\ normal text
      /\ st_cache (snd r) = Some (w_time w (st_reads st), text)
      /\ st_trace (snd r) = st_trace st ++ [HttpGet url; CacheWrite text]
  | None =>
      fst r = Exited 1%Z
      /\ st_cache (snd r) = None
      /\ st_trace (snd r) = st_trace st ++ [HttpGet url]
  end.
Proof.
  intros Hc r. subst r.
  unfold fetch_article_content, fetch_new_content.
  unfold bind, say, request, sys_exit, ret, clock, cache_stat, cache_write_text.
  cbn [fst snd st_cache st_reqs st_reads st_trace st_out st_err].
  rewrite Hc. cbn [fst snd st_cache st_reqs st_reads st_trace st_out st_err].
  destruct (w_page w (st_reqs st) url) as [page|];
    cbn [fst snd st_cache st_reqs st_reads st_trace st_out st_err].
  - repeat split.
    + apply strip_starts_clean.
    + unfold sub. rewrite (proj1 (sub_spaces_collapse _ None)).
      apply strip_collapse_normal.
    + rewrite <- app_assoc. reflexivity.
  - repeat split. exact Hc.
Qed.

Lemma first_fetch_stores_normalized_text_witness :
  let w := steady_world 5 [] (Some (py "  Breaking:   rates" ++ [NL] ++ py "rise ")) None in
  fst (fetch_article_content w (py "u") (init_state None))
  = Done (py "Breaking: rates rise")
  /\ st_cache (snd (fetch_article_content w (py "u") (init_state None)))
     = Some (5%Q, py "Breaking: rates rise").
Proof.
  pose proof (first_fetch_stores_normalized_text
                (steady_world 5 [] (Some (py "  Breaking:   rates" ++ [NL] ++ py "rise ")) None)
                (py "u") (init_state None) eq_refl) as K.
  cbv zeta in K. cbn [steady_world w_page] in K.
  split; [exact (proj1 K) | exact (proj1 (proj2 (proj2 K)))].
Defined.

(** ** Unloading *)

Lemma unload_posts_app tr1 tr2 :
  unload_posts (tr1 ++ tr2) = unload_posts tr1 ++ unload_posts tr2.
Proof. unfold unload_posts. apply flat_map_app. Qed.

Lemma unload_each_posts w host models :
  forall errors st,
    exists tr,
      st_trace (snd (unload_each w host models errors st)) = st_trace st ++ tr
      /\ unload_posts tr = models
      /\ st_cache (snd (unload_each w host models errors st)) = st_cache st.
Proof.
  induction models as [|m models IH]; intros errors st; simpl.
  - exists []. rewrite app_nil_r. repeat split.
  - assert (Step : forall e s front,
               st_trace s = st_trace st ++ front ->
               unload_posts front = [m] ->
               st_cache s = st_cache st ->
               exists tr,
                 st_trace (snd (unload_each w host models e s)) = st_trace st ++ tr
                 /\ unload_posts tr = m :: models
                 /\ st_cache (snd (unload_each w host models e s)) = st_cache st).
    { intros e s front Ht Hp Hc.
      destruct (IH e s) as (tr & Ht' & Hp' & Hc').
      exists (front ++ tr). split; [|split].
      - rewrite Ht', Ht, app_assoc. reflexivity.
      - rewrite unload_posts_app, Hp, Hp'. reflexivity.
      - rewrite Hc'. exact Hc. }
    unfold bind, request, say.
    cbn [fst snd st_cache st_reqs st_reads st_trace st_out st_err].
    destruct (w_unload w (st_reqs st) host m);
      cbn [fst snd st_cache st_reqs st_reads st_trace st_out st_err].
    + destruct (w_ps w (S (st_reqs st)) host) as [still|];
        cbn [fst snd st_cache st_reqs st_reads st_trace st_out st_err].
      * destruct (existsb (fun m0 => str_eqb m0 m) still);
          cbn [fst snd st_cache st_reqs st_reads st_trace st_out st_err];
          apply (Step _ _ [PostUnload host m; GetPs host]);
          cbn [st_trace st_cache]; try reflexivity;
          rewrite <- app_assoc; reflexivity.
      * apply (Step _ _ [PostUnload host m; GetPs host]);
          cbn [st_trace st_cache]; try reflexivity.
        rewrite <- app_assoc. reflexivity.
    + apply (Step _ _ [PostUnload host m]); reflexivity.
Qed.

Lemma unload_effects w host st models :
  is_empty host = false ->
  w_ps w (st_reqs st) host = Some models ->
  exists tr st',
    unload_ollama_models w host st = (Done tt, st')
    /\ st_trace st' = (st_trace st ++ [GetPs host]) ++ tr
    /\ unload_posts tr = models
    /\ st_cache st' = st_cache st.
Proof.
  intros Hh Hps. unfold unload_ollama_models.
  rewrite (bind_step _ _ _ _ _ _ _ (validate_ok host _ st Hh)).
  unfold bind at 1 2. unfold say at 1, request at 1.
  cbn [fst snd st_cache st_reqs st_reads st_trace st_out st_err].
  rewrite Hps. destruct (is_empty models) eqn:Em.
  - destruct models; [|discriminate]. exists []. eexists. unfold say.
    split; [reflexivity|].
    cbn [st_cache st_trace]. rewrite app_nil_r. repeat split.
  - unfold bind at 1. unfold say at 1.
    cbn [fst snd st_cache st_reqs st_reads st_trace st_out st_err].
    unfold bind at 1.
    match goal with
    | |- context [unload_each w host models ?e ?s] =>
        destruct (unload_each_posts w host models e s) as (tr & Ht & Hp & Hc);
        destruct (unload_each_returns w host models e s) as (n & s1 & En)
    end.
    rewrite En in *. cbn [fst snd st_trace st_cache] in Ht, Hc.
    exists tr.
    destruct (0 <? n)%nat; unfold say; eexists; (split; [reflexivity|]);
      cbn [st_trace st_cache]; repeat split; assumption.
Qed.

(** Unloading never stops a run that has a host: whatever the server
    answers, every resident model it listed gets one unload request, in the
    order listed (a failed unload does not stop the loop), and neither the
    cache file nor standard output is touched. *)
Theorem unload_asks_every_resident_model
        (w : world) (host : pystr) (st : pstate) (models : list pystr) :
  is_empty host = false ->
  w_ps w (st_reqs st) host = Some models ->
  let r := unload_ollama_models w host st in
  fst r = Done tt
  /\ unload_posts (st_trace (snd r)) = unload_posts (st_trace st) ++ models
  /\ st_cache (snd r) = st_cache st
  /\ st_out (snd r) = st_out st.
Proof.
  intros Hh Hps r. subst r.
  destruct (unload_effects w host st models Hh Hps) as (tr & st' & E & Ht & Hp & Hc).
  pose proof (silent_unload w host _ _ _ E) as Ho.
  rewrite E. cbn [fst snd].
  repeat split; try assumption.
  rewrite Ht, !unload_posts_app, Hp. simpl. rewrite app_nil_r. reflexivity.
Qed.

Lemma unload_asks_every_resident_model_witness :
  let w := {| w_time := fun _ => 0%Q;
              w_tags := fun _ _ => None;
              w_ps := fun n _ => match n with
                                 | O => Some [py "llama3"; py "qwen3:1.7b"]
                                 | _ => None
                                 end;
              w_unload := fun _ _ _ => false;
              w_generate := fun _ _ _ _ => None;
              w_page := fun _ _ => None |} in
  fst (unload_ollama_models w (py "h:1") (init_state None)) = Done tt
  /\ unload_posts (st_trace (snd (unload_ollama_models w (py "h:1") (init_state None))))
     = [py "llama3"; py "qwen3:1.7b"].
Proof.
  pose proof (unload_asks_every_resident_model
                {| w_time := fun _ => 0%Q;
                   w_tags := fun _ _ => None;
                   w_ps := fun n _ => match n with
                                      | O => Some [py "llama3"; py "qwen3:1.7b"]
                                      | _ => None
                                      end;
                   w_unload := fun _ _ _ => false;
                   w_generate := fun _ _ _ _ => None;
                   w_page := fun _ _ => None |}
                (py "h:1") (init_state None) [py "llama3"; py "qwen3:1.7b"]
                eq_refl eq_refl) as K.
  split; [exact (proj1 K) | exact (proj1 (proj2 K))].
Defined.

(** ** The override: cached text is processed again *)

Lemma advances_refl st : advances st st [] 0 0.
Proof.
  unfold advances. rewrite app_nil_r, !Nat.add_0_r. repeat split.
Qed.

Lemma advances_trans st1 st2 st3 tr1 tr2 q1 q2 r1 r2 :
  advances st1 st2 tr1 q1 r1 -> advances st2 st3 tr2 q2 r2 ->
  advances st1 st3 (tr1 ++ tr2) (q1 + q2) (r1 + r2).
Proof.
  unfold advances. intros (A1 & A2 & A3 & A4 & A5) (B1 & B2 & B3 & B4 & B5).
  repeat split; try congruence.
  - rewrite B1, A1, app_assoc. reflexivity.
  - lia.
  - lia.
Qed.

Lemma unload_each_frame w host models :
  forall errors st,
    exists n tr q st',
      unload_each w host models errors st = (Done n, st')
      /\ advances st st' tr q 0
      /\ forallb is_unload tr = true.
Proof.
  induction models as [|m models IH]; intros errors st; simpl.
  - exists errors, [], 0, st. split; [reflexivity|].
    split; [apply advances_refl | reflexivity].
  - assert (Step : forall e s front q0,
               advances st s front q0 0 -> forallb is_unload front = true ->
               exists n tr q st',
                 unload_each w host models e s = (Done n, st')
                 /\ advances st st' tr q 0 /\ forallb is_unload tr = true).
    { intros e s front q0 Ha Hf.
      destruct (IH e s) as (n & tr & q & st' & E & Ha' & Hf').
      exists n, (front ++ tr), (q0 + q), st'. split; [exact E|].
      split; [exact (advances_trans _ _ _ _ _ _ _ _ _ Ha Ha')|].
      rewrite forallb_app, Hf, Hf'. reflexivity. }
    unfold bind, request, say.
    cbn [fst snd st_cache st_reqs st_reads st_trace st_out st_err].
    destruct (w_unload w (st_reqs st) host m);
      cbn [fst snd st_cache st_reqs st_reads st_trace st_out st_err].
    + destruct (w_ps w (S (st_reqs st)) host) as [still|];
        cbn [fst snd st_cache st_reqs st_reads st_trace st_out st_err].
      * destruct (existsb (fun m0 => str_eqb m0 m) still);
          cbn [fst snd st_cache st_reqs st_reads st_trace st_out st_err];
          apply (Step _ _ [PostUnload host m; GetPs host] 2);
          try reflexivity; unfold advances;
          cbn [st_cache st_reqs st_reads st_trace st_out st_err];
          rewrite <- app_assoc; repeat split; lia.
      * apply (Step _ _ [PostUnload host m; GetPs host] 2);
          try reflexivity; unfold advances;
          cbn [st_cache st_reqs st_reads st_trace st_out st_err];
          rewrite <- app_assoc; repeat split; lia.
    + apply (Step _ _ [PostUnload host m] 1);
        try reflexivity; unfold advances;
        cbn [st_cache st_reqs st_reads st_trace st_out st_err];
        repeat split; lia.
Qed.

Lemma unload_frame w host st :
  is_empty host = false ->
  exists tr q st',
    unload_ollama_models w host st = (Done tt, st')
    /\ advances st st' tr q 0
    /\ forallb is_unload tr = true.
Proof.
  intros Hh. unfold unload_ollama_models.
  rewrite (bind_step _ _ _ _ _ _ _ (validate_ok host _ st Hh)).
  unfold bind at 1 2. unfold say at 1, request at 1.
  cbn [fst snd st_cache st_reqs st_reads st_trace st_out st_err].
  destruct (w_ps w (st_reqs st) host) as [models|].
  - destruct (is_empty models).
    + exists [GetPs host], 1. eexists. unfold say. split; [reflexivity|].
      split; [|reflexivity]. unfold advances.
      cbn [st_cache st_reqs st_reads st_trace st_out st_err].
      repeat split; lia.
    + unfold bind at 1. unfold say at 1.
      cbn [fst snd st_cache st_reqs st_reads st_trace st_out st_err].
      unfold bind at 1.
      match goal with
      | |- context [unload_each w host models ?e ?s] =>
          destruct (unload_each_frame w host models e s)
            as (n & tr & q & s1 & En & Ha & Hf)
      end.
      rewrite En.
      exists ([GetPs host] ++ tr), (1 + q).
      assert (Ha0 : advances st s1 ([GetPs host] ++ tr) (1 + q) 0).
      { refine (advances_trans st _ s1 [GetPs host] tr 1 q 0 0 _ Ha).
        unfold advances.
        cbn [st_cache st_reqs st_reads st_trace st_out st_err].
        repeat split; lia. }
      destruct (0 <? n)%nat; unfold say; eexists; (split; [reflexivity|]);
        (split; [|cbn [app forallb is_unload]; exact Hf]);
        unfold advances in *;
        cbn [st_cache st_reqs st_reads st_trace st_out st_err];
        exact Ha0.
  - exists [GetPs host], 1. eexists. unfold say. split; [reflexivity|].
    split; [|reflexivity]. unfold advances.
    cbn [st_cache st_reqs st_reads st_trace st_out st_err].
    repeat split; lia.
Qed.

Lemma besides_unloading_app tr1 tr2 :
  besides_unloading (tr1 ++ tr2) = besides_unloading tr1 ++ besides_unloading tr2.
Proof. unfold besides_unloading. apply filter_app. Qed.

Lemma besides_unloading_none tr :
  forallb is_unload tr = true -> besides_unloading tr = [].
Proof.
  unfold besides_unloading. induction tr as [|e tr IH]; simpl; [reflexivity|].
  intros H. apply andb_true_iff in H as [H1 H2]. rewrite H1. simpl. auto.
Qed.

Lemma emit_summary_frame w a summary st1 :
  is_empty (arg_host a) = false ->
  exists code tr st2,
    emit_summary w a summary st1 = (Exited code, st2)
    /\ st_trace st2 = st_trace st1 ++ tr
    /\ forallb is_unload tr = true
    /\ st_cache st2 = st_cache st1.
Proof.
  intros Hh. unfold emit_summary.
  set (c0 := is_empty summary || is_empty (strip summary)).
  assert (E : exists emitted s,
             (if c0 then say EmptySummaryWarning ;; ret FALLBACK else ret summary) st1
             = (Done emitted, s)
             /\ st_trace s = st_trace st1 /\ st_cache s = st_cache st1).
  { destruct c0; do 2 eexists; split; try reflexivity; split; reflexivity. }
  destruct E as (emitted & s & E & Ht & Hc).
  rewrite (bind_step _ _ _ _ _ _ _ E).
  unfold bind at 1. unfold say at 1. cbn [fst snd].
  unfold bind at 1.
  match goal with
  | |- context [(if ?c then say ?d else ret tt) ?s0] =>
      assert (E2 : exists s', (if c then say d else ret tt) s0 = (Done tt, s')
                              /\ st_trace s' = st_trace st1
                              /\ st_cache s' = st_cache st1)
        by (destruct c; eexists; split; try reflexivity; split; assumption)
  end.
  destruct E2 as (s2 & -> & Ht2 & Hc2).
  unfold bind at 1. unfold print at 1. cbn [fst snd].
  unfold bind at 1.
  match goal with
  | |- context [unload_ollama_models w ?h ?s0] =>
      destruct (unload_frame w h s0 Hh) as (tr & q & s3 & -> & Ha & Hf)
  end.
  destruct Ha as (A1 & _ & _ & A4 & _).
  cbn [st_trace st_cache] in A1, A4.
  eexists. exists tr. eexists. split; [reflexivity|].
  repeat split; congruence.
Qed.

Lemma say_advances d st :
  exists st', say d st = (Done tt, st') /\ advances st st' [] 0 0.
Proof.
  eexists. split; [reflexivity|]. unfold advances. cbn.
  rewrite app_nil_r, !Nat.add_0_r. repeat split.
Qed.

Lemma check_server_ok w host st listed :
  is_empty host = false ->
  w_tags w (st_reqs st) host = Some listed ->
  exists st', check_ollama_server w host st = (Done tt, st')
              /\ advances st st' [GetTags host] 1 0.
Proof.
  intros Hh Ht. unfold check_ollama_server.
  rewrite (bind_step _ _ _ _ _ _ _ (validate_ok host _ st Hh)).
  unfold bind, say, request.
  cbn [fst snd st_cache st_reqs st_reads st_trace st_out st_err].
  rewrite Ht. eexists. split; [reflexivity|]. unfold advances.
  cbn [st_cache st_reqs st_reads st_trace st_out st_err]. repeat split; lia.
Qed.

Lemma check_model_ok w host model st listed :
  is_empty host = false ->
  w_tags w (st_reqs st) host = Some listed ->
  In model listed ->
  exists st', check_model_available w host model st = (Done tt, st')
              /\ advances st st' [GetTags host] 1 0.
Proof.
  intros Hh Ht Hin. apply listed_iff in Hin. unfold check_model_available.
  rewrite (bind_step _ _ _ _ _ _ _ (validate_ok host _ st Hh)).
  unfold bind, say, request.
  cbn [fst snd st_cache st_reqs st_reads st_trace st_out st_err].
  rewrite Ht, Hin. eexists. split; [reflexivity|]. unfold advances.
  cbn [st_cache st_reqs st_reads st_trace st_out st_err]. repeat split; lia.
Qed.

Lemma check_repeated_override w st :
  exists st', check_repeated_content w REPEATED st = (Done None, st')
              /\ advances st st' [] 0 0.
Proof.
  unfold check_repeated_content. rewrite str_eqb_refl.
  destruct (say_advances SkippingRepeatCheck st) as (s & E & A).
  exists s. split; [|exact A].
  rewrite (bind_step _ _ _ _ _ _ _ E). reflexivity.
Qed.

Lemma fetch_fresh w url st mtime text :
  st_cache st = Some (mtime, text) ->
  Qltb (cache_age_hours (w_time w (st_reads st)) mtime) 24 = true ->
  exists st', fetch_article_content w url st = (Done text, st')
              /\ advances st st' [CacheRead] 0 1.
Proof.
  intros Hc Hage. unfold fetch_article_content.
  unfold bind, cache_stat, clock, say, cache_read_text.
  cbn [fst snd st_cache st_reqs st_reads st_trace st_out st_err].
  rewrite Hc. cbn [fst snd st_cache st_reqs st_reads st_trace st_out st_err].
  rewrite Hage. eexists. split; [reflexivity|]. unfold advances.
  cbn [st_cache st_reqs st_reads st_trace st_out st_err]. repeat split; lia.
Qed.

Lemma generate_frame w host model prompt content st :
  is_empty host = false ->
  exists res st',
    generate_summary w host model prompt content st = (res, st')
    /\ advances st st' [PostGenerate host model (prompt ++ [NL; NL] ++ content)] 1 0.
Proof.
  intros Hh. unfold generate_summary.
  rewrite (bind_step _ _ _ _ _ _ _ (validate_ok host _ st Hh)).
  unfold bind, say, request, ret, sys_exit.
  cbn [fst snd st_cache st_reqs st_reads st_trace st_out st_err].
  match goal with
  | |- context [w_generate w ?n ?h ?m ?p] =>
      destruct (w_generate w n h m p) as [[[|c0 raw]|]|]
  end;
    do 2 eexists; (split; [reflexivity|]); unfold advances;
    cbn [st_cache st_reqs st_reads st_trace st_out st_err]; repeat split; lia.
Qed.

(** With the override set, a fresh cache entry does not end the run:
    after the two listings the orchestrator unloads, takes the text from
    the cache without a web request, and asks for a summary of exactly
    that text under the prompt for the target length; the cache file is
    left as it was. *)
Theorem override_reprocesses_cached_text
        (w : world) (a : args) (mtime : Q) (text : pystr)
        (listed0 listed1 : list pystr) :
  is_empty (arg_host a) = false ->
  w_tags w 0 (arg_host a) = Some listed0 ->
  w_tags w 1 (arg_host a) = Some listed1 ->
  In (ollama_model a) listed1 ->
  allow_repeated a = REPEATED ->
  (cache_age_hours (w_time w 0) mtime < 24)%Q ->
  let r := run_main w a (Some (mtime, text)) in
  besides_unloading (st_trace (snd r))
  = [GetTags (arg_host a); GetTags (arg_host a); CacheRead;
     PostGenerate (arg_host a) (ollama_model a)
       (summary_prompt (summary_length a) ++ [NL; NL] ++ text)]
  /\ st_cache (snd r) = Some (mtime, text).
Proof.
  intros Hh H0 H1 Hin Hrep Hage r. subst r.
  apply Qltb_lt in Hage.
  set (request_event :=
         PostGenerate (arg_host a) (ollama_model a)
           (summary_prompt (summary_length a) ++ [NL; NL] ++ text)).
  set (st0 := init_state (Some (mtime, text))).
  assert (S : exists res tr st1,
             summarize w a st0 = (res, st1)
             /\ st_trace st1
                = [GetTags (arg_host a); GetTags (arg_host a)]
                  ++ tr ++ [CacheRead; request_event]
             /\ forallb is_unload tr = true
             /\ st_cache st1 = Some (mtime, text)).
  { unfold summarize. rewrite Hrep.
    destruct (say_advances (UsingSettings (arg_host a) (ollama_model a)
                              (summary_length a) REPEATED) st0)
      as (s1 & E1 & (T1 & Q1 & R1 & C1 & _)).
    rewrite (bind_step _ _ _ _ _ _ _ E1).
    assert (H0' : w_tags w (st_reqs s1) (arg_host a) = Some listed0)
      by (rewrite Q1; exact H0).
    destruct (check_server_ok w _ s1 listed0 Hh H0')
      as (s2 & E2 & (T2 & Q2 & R2 & C2 & _)).
    rewrite (bind_step _ _ _ _ _ _ _ E2).
    assert (H1' : w_tags w (st_reqs s2) (arg_host a) = Some listed1)
      by (rewrite Q2, Q1; exact H1).
    destruct (check_model_ok w _ _ s2 listed1 Hh H1' Hin)
      as (s3 & E3 & (T3 & Q3 & R3 & C3 & _)).
    rewrite (bind_step _ _ _ _ _ _ _ E3).
    unfold get_cache_file.
    destruct (say_advances CacheFileIs s3) as (s4 & E4 & (T4 & Q4 & R4 & C4 & _)).
    rewrite (bind_step _ _ _ _ _ _ _ E4).
    destruct (check_repeated_override w s4) as (s5 & E5 & (T5 & Q5 & R5 & C5 & _)).
    rewrite (bind_step _ _ _ _ _ _ _ E5).
    destruct (unload_frame w _ s5 Hh) as (tr & q & s6 & E6 & (T6 & Q6 & R6 & C6 & _) & Hf).
    rewrite (bind_step _ _ _ _ _ _ _ E6).
    assert (C0 : st_cache st0 = Some (mtime, text)) by reflexivity.
    assert (Hc6 : st_cache s6 = Some (mtime, text)) by congruence.
    assert (Hr6 : st_reads s6 = 0).
    { rewrite R6, R5, R4, R3, R2, R1. reflexivity. }
    assert (Hage6 : Qltb (cache_age_hours (w_time w (st_reads s6)) mtime) 24 = true)
      by (rewrite Hr6; exact Hage).
    destruct (fetch_fresh w (arg_url a) s6 mtime text Hc6 Hage6)
      as (s7 & E7 & (T7 & Q7 & R7 & C7 & _)).
    rewrite (bind_step _ _ _ _ _ _ _ E7).
    destruct (generate_frame w (arg_host a) (ollama_model a)
                (summary_prompt (summary_length a)) text s7 Hh)
      as (res & s8 & E8 & (T8 & Q8 & R8 & C8 & _)).
    exists res, tr, s8. split; [exact E8|].
    split; [|split; [exact Hf | congruence]].
    rewrite T8, T7, T6, T5, T4, T3, T2, T1. subst st0. cbn [init_state st_trace].
    rewrite !app_nil_r. rewrite <- !app_assoc. reflexivity. }
  destruct S as (res & tr & st1 & E & Ht & Hf & Hc).
  assert (B : besides_unloading (st_trace st1)
              = [GetTags (arg_host a); GetTags (arg_host a); CacheRead; request_event]).
  { rewrite Ht, !besides_unloading_app, (besides_unloading_none tr Hf).
    reflexivity. }
  unfold run_main, main. fold st0. unfold bind. rewrite E.
  destruct res as [summary|code]; cbn [fst snd].
  - destruct (emit_summary_frame w a summary st1 Hh)
      as (code & tr2 & st2 & -> & Ht2 & Hf2 & Hc2).
    cbn [fst snd]. split; [|congruence].
    rewrite Ht2, besides_unloading_app, (besides_unloading_none tr2 Hf2), B.
    reflexivity.
  - split; assumption.
Qed.

Lemma override_reprocesses_cached_text_witness :
  let w := steady_world 3600 [py "qwen3:1.7b"] None
             (Some (Some (py "Rates rise again."))) in
  let r := run_main w (sample_args (Some REPEATED)) (Some (0%Q, py "cached text")) in
  besides_unloading (st_trace (snd r))
  = [GetTags (py "localhost:11434"); GetTags (py "localhost:11434"); CacheRead;
     PostGenerate (py "localhost:11434") (py "qwen3:1.7b")
       (summary_prompt 257 ++ [NL; NL] ++ py "cached text")]
  /\ st_cache (snd r) = Some (0%Q, py "cached text").
Proof.
  assert (Hin : In (ollama_model (sample_args (Some REPEATED))) [py "qwen3:1.7b"])
    by (left; reflexivity).
  exact (override_reprocesses_cached_text
           (steady_world 3600 [py "qwen3:1.7b"] None
              (Some (Some (py "Rates rise again."))))
           (sample_args (Some REPEATED)) 0%Q (py "cached text")
           [py "qwen3:1.7b"] [py "qwen3:1.7b"]
           eq_refl eq_refl eq_refl Hin eq_refl eq_refl).
Defined.

End OrchestratorMore.

(* ===================================================================== *)
(** * Further properties of the benchmark driver *)
(* ===================================================================== *)

Module BenchMore.
Import CleanSpec MoreSpec CleanerFacts Bench Numeric BenchFacts.

(** ** Reading the lists of models and URLs *)

Lemma split_on_nonempty sep s : split_on sep s <> [].
Proof.
  destruct s as [|c s]; simpl; [discriminate|].
  destruct (chr_eqb c sep); [discriminate|].
  destruct (split_on sep s); discriminate.
Qed.

Lemma join_cons_char sep c w ws :
  join sep ((c :: w) :: ws) = c :: join sep (w :: ws).
Proof. destruct ws; reflexivity. Qed.

Lemma join_split sep s : join [sep] (split_on sep s) = s.
Proof.
  induction s as [|c s IH]; [reflexivity|]. cbn [split_on].
  destruct (chr_eqb c sep) eqn:E.
  - apply N.eqb_eq in E. subst c.
    destruct (split_on sep s) as [|w ws] eqn:Es.
    + exfalso. exact (split_on_nonempty sep s Es).
    + rewrite <- IH. reflexivity.
  - destruct (split_on sep s) as [|w ws] eqn:Es.
    + exfalso. exact (split_on_nonempty sep s Es).
    + rewrite join_cons_char. f_equal. exact IH.
Qed.

Lemma split_pieces_no_sep sep s :
  Forall (fun piece => ~ In sep piece) (split_on sep s).
Proof.
  induction s as [|c s IH]; simpl.
  - constructor; [intros [] | constructor].
  - destruct (chr_eqb c sep) eqn:E.
    + constructor; [intros [] | exact IH].
    + destruct (split_on sep s) as [|w ws]; [repeat constructor|].
      * intros [H|[]]. subst c. unfold chr_eqb in E.
        rewrite N.eqb_refl in E. discriminate.
      * inversion IH; subst. constructor; [|assumption].
        intros [H|H]; [|contradiction]. subst c. unfold chr_eqb in E.
        rewrite N.eqb_refl in E. discriminate.
Qed.

(** A list given as an option is cut at every comma and nowhere else:
    there is always at least one entry (the empty text gives one empty
    entry), no entry holds a comma, and joining the entries with commas
    gives the option back. *)
Theorem comma_list_round_trip (arg : pystr) :
  parse_list (FromArg arg) <> []
  /\ Forall (fun entry => ~ In 44%N entry) (parse_list (FromArg arg))
  /\ join [44%N] (parse_list (FromArg arg)) = arg.
Proof.
  simpl. split; [apply split_on_nonempty|].
  split; [apply split_pieces_no_sep | apply join_split].
Qed.

Lemma strip_idempotent s : strip (strip s) = strip s.
Proof. apply strip_fixed; [apply strip_starts_clean | apply strip_no_trailing]. Qed.

(** The entries read from a file are the lines that are not blank and
    do not begin with [#], with the whitespace at both ends removed: no
    entry is empty and none begins or ends with whitespace. *)
Theorem file_entries_are_stripped (lines : list pystr) :
  Forall (fun entry => entry <> [] /\ strip entry = entry
                       /\ no_leading_space entry /\ no_trailing_space entry)
    (parse_list (FromFile lines))
  /\ forall entry,
       In entry (parse_list (FromFile lines))
       <-> exists line, In line lines /\ entry = strip line
                        /\ strip line <> []
                        /\ startswith (py "#") line = false.
Proof.
  assert (Hin : forall entry,
             In entry (parse_list (FromFile lines))
             <-> exists line, In line lines /\ entry = strip line
                              /\ strip line <> []
                              /\ startswith (py "#") line = false).
  { intros entry. simpl. rewrite in_map_iff. split.
    - intros (line & E & H). apply filter_In in H. destruct H as [Hl Hc].
      apply andb_true_iff in Hc. destruct Hc as [H1 H2].
      apply negb_true_iff in H1, H2.
      exists line. repeat split; auto.
      intros Z. rewrite Z in H1. discriminate.
    - intros (line & Hl & E & Hne & Hc). exists line. split; [auto|].
      apply filter_In. split; [exact Hl|].
      rewrite Hc. destruct (strip line); [contradiction | reflexivity]. }
  split; [|exact Hin].
  apply Forall_forall. intros entry H. apply Hin in H.
  destruct H as (line & _ & -> & Hne & _).
  repeat split.
  - exact Hne.
  - apply strip_idempotent.
  - intros c s' E. pose proof (strip_starts_clean line) as S.
    rewrite E in S. exact S.
  - apply strip_no_trailing.
Qed.

(** With a runnable script and at least one model left, a sweep whose
    URLs come from the option always runs: the check for an empty URL list
    cannot fail, since the option always gives at least one entry. *)
Theorem url_option_always_sweeps (w : bench_world) (a : bench_args) (arg : pystr) :
  script_exists w = true -> script_executable w = true ->
  selected_models a <> [] ->
  b_urls a = FromArg arg ->
  main w a
  = Completed (sweep_urls w a (split_on 44%N arg) (selected_models a))
      (summary_view (rows (sweep_urls w a (split_on 44%N arg) (selected_models a)))).
Proof.
  intros He Hx Hm Hu. unfold main. rewrite He, Hx, Hu. simpl.
  destruct (selected_models a); [contradiction|]. simpl.
  pose proof (split_on_nonempty 44%N arg).
  destruct (split_on 44%N arg); [contradiction | reflexivity].
Qed.

Lemma url_option_always_sweeps_witness :
  let a := {| b_host := py "h"; b_max_length := 257%Z;
              b_models := FromArg (py "m1"); b_urls := FromArg [];
              b_runs := 1%Z |} in
  List.map cmd_url (runs_started (main (scripted_world []) a)) = [[]].
Proof.
  assert (Hm : selected_models
                 {| b_host := py "h"; b_max_length := 257%Z;
                    b_models := FromArg (py "m1"); b_urls := FromArg [];
                    b_runs := 1%Z |} <> []) by (vm_compute; discriminate).
  cbv zeta.
  rewrite (url_option_always_sweeps (scripted_world [])
             {| b_host := py "h"; b_max_length := 257%Z;
                b_models := FromArg (py "m1"); b_urls := FromArg [];
                b_runs := 1%Z |} [] eq_refl eq_refl Hm eq_refl).
  vm_compute. reflexivity.
Defined.

(** ** The rows of the report *)

Lemma run_pair_keys w a url model cache :
  forall todo run sw results,
    List.map row_key (rows (fst (run_pair w a url model cache todo run sw results)))
    = List.map row_key (rows sw)
      ++ List.map (fun i => (url, model, S (run + i))) (seq 0 todo).
Proof.
  induction todo as [|todo IH]; intros run sw results; simpl.
  - symmetry. apply app_nil_r.
  - rewrite IH. cbn [rows]. rewrite map_app, <- app_assoc. f_equal.
    cbn [List.map app]. unfold row_key at 1. cbn [make_row c_url c_model c_run].
    rewrite Nat.add_0_r. f_equal.
    rewrite <- seq_shift, map_map. apply map_ext. intros i.
    rewrite Nat.add_succ_r. reflexivity.
Qed.

Lemma run_pair_rows_keep (P : row -> Prop) w a url model cache :
  (forall run p, P (make_row a url model run cache (run_article3_script p))) ->
  forall todo run sw results,
    Forall P (rows sw) ->
    Forall P (rows (fst (run_pair w a url model cache todo run sw results))).
Proof.
  intros HP. induction todo as [|todo IH]; intros run sw results H; simpl.
  - exact H.
  - apply IH. cbn [rows]. apply Forall_app. split; [exact H|].
    constructor; [apply HP | constructor].
Qed.

Lemma sweep_models_rows w a url (P : row -> Prop) :
  (forall model run cache p,
      P (make_row a url model run cache (run_article3_script p))) ->
  forall models sw,
    Forall P (rows sw) ->
    Forall P (rows (sweep_models w a url models sw))
    /\ List.map row_key (rows (sweep_models w a url models sw))
       = List.map row_key (rows sw)
         ++ flat_map
              (fun model =>
                 List.map (fun i => (url, model, S i))
                   (seq 0 (Z.to_nat (b_runs a))))
              models.
Proof.
  intros HP. unfold sweep_models.
  induction models as [|m models IH]; intros sw H; simpl.
  - split; [exact H | symmetry; apply app_nil_r].
  - pose proof (run_pair_rows_keep P w a url m (cache_age w url)
                  (fun run p => HP m run (cache_age w url) p)
                  (Z.to_nat (b_runs a)) 0 sw [] H) as Hk.
    pose proof (run_pair_keys w a url m (cache_age w url)
                  (Z.to_nat (b_runs a)) 0 sw []) as Hr.
    destruct (run_pair w a url m (cache_age w url) (Z.to_nat (b_runs a)) 0 sw [])
      as [sw' results].
    cbn [fst] in Hk, Hr.
    match goal with
    | |- context [fold_left ?f models ?s] =>
        destruct (IH s Hk) as [IH1 IH2]
    end.
    split; [exact IH1|].
    rewrite IH2. cbn [rows]. rewrite Hr, <- app_assoc. reflexivity.
Qed.

Lemma sweep_urls_rows w a models (P : row -> Prop) :
  (forall url model run cache p,
      P (make_row a url model run cache (run_article3_script p))) ->
  forall urls sw,
    Forall P (rows sw) ->
    let out := fold_left (fun sw url => sweep_models w a url models sw) urls sw in
    Forall P (rows out)
    /\ List.map row_key (rows out)
       = List.map row_key (rows sw) ++ planned_keys a urls models.
Proof.
  intros HP. induction urls as [|u urls IH]; intros sw H; simpl.
  - split; [exact H | symmetry; apply app_nil_r].
  - destruct (sweep_models_rows w a u P (HP u) models sw H) as [H1 H2].
    destruct (IH _ H1) as [H3 H4].
    split; [exact H3|].
    rewrite H4, H2, <- app_assoc. reflexivity.
Qed.

(** The report of a completed sweep has exactly one row for every
    (url, model, run) of the plan, in the order of the sweep: URL by URL,
    model by model, the runs numbered from 1 to the configured count. *)
Theorem report_has_one_row_per_planned_run
        (w : bench_world) (a : bench_args) (sw : sweep)
        (view : list (pystr * pystr * Q * nat)) :
  main w a = Completed sw view ->
  List.map row_key (rows sw)
  = planned_keys a (parse_list (b_urls a)) (selected_models a).
Proof.
  unfold main. intros H.
  destruct (negb (script_exists w)); [discriminate|].
  destruct (negb (script_executable w)); [discriminate|].
  destruct (Processor.is_empty (selected_models a)); [discriminate|].
  destruct (Processor.is_empty (parse_list (b_urls a))); [discriminate|].
  inversion H; subst sw view. clear H.
  exact (proj2 (sweep_urls_rows w a (selected_models a) (fun _ => True)
                  (fun _ _ _ _ _ => I) (parse_list (b_urls a)) empty_sweep
                  (Forall_nil _))).
Qed.

Lemma report_has_one_row_per_planned_run_witness :
  List.map row_key
    (rows_written (main (scripted_world [TimeoutExpired])
                        (sample_bench (py "m1,x-embedding,m2") 2)))
  = [(py "https://example.org/news", py "m1", 1);
     (py "https://example.org/news", py "m1", 2);
     (py "https://example.org/news", py "m2", 1);
     (py "https://example.org/news", py "m2", 2)].
Proof.
  assert (H : exists sw view,
             main (scripted_world [TimeoutExpired])
                  (sample_bench (py "m1,x-embedding,m2") 2)
             = Completed sw view).
  { eexists. eexists. vm_compute. reflexivity. }
  destruct H as (sw & view & H).
  rewrite H. cbn [rows_written].
  rewrite (report_has_one_row_per_planned_run _ _ _ _ H).
  vm_compute. reflexivity.
Defined.

Lemma summary_excerpt_length s : List.length (summary_excerpt s) <= 103.
Proof.
  unfold summary_excerpt. destruct s as [[|c x]|]; simpl or_empty; try (simpl; lia).
  destruct (100 <? List.length (c :: x)) eqn:E.
  - rewrite length_app. pose proof (firstn_le_length 100 (c :: x)).
    change (List.length (py "...")) with 3. lia.
  - apply Nat.ltb_ge in E. lia.
Qed.

Lemma make_row_ok a url model run cache p :
  row_ok a (make_row a url model run cache (run_article3_script p)).
Proof.
  unfold row_ok, make_row.
  cbn [c_target_length c_run c_summary c_success c_error c_length_match
       c_summary_length].
  split; [reflexivity|]. split; [lia|].
  split; [apply summary_excerpt_length|].
  destruct p as [rc out err t| |msg t]; simpl.
  - destruct (rc =? 0)%Z; simpl.
    + split; reflexivity.
    + repeat split. discriminate.
  - repeat split. discriminate.
  - repeat split. discriminate.
Qed.

(** In every row written, the columns agree: the target is the
    configured length and the excerpt has at most 103 characters; a
    successful row has no error text and its length-match flag tells whether
    the summary fits the target; a failed row has length 0, no length match,
    no summary and an error text. *)
Theorem report_rows_are_consistent (w : bench_world) (a : bench_args) :
  Forall (row_ok a) (rows_written (main w a)).
Proof.
  unfold main.
  destruct (negb (script_exists w)); [constructor|].
  destruct (negb (script_executable w)); [constructor|].
  destruct (Processor.is_empty (selected_models a)); [constructor|].
  destruct (Processor.is_empty (parse_list (b_urls a))); [constructor|].
  cbn [rows_written].
  exact (proj1 (sweep_urls_rows w a (selected_models a) (row_ok a)
                  (make_row_ok a) (parse_list (b_urls a)) empty_sweep
                  (Forall_nil _))).
Qed.

(** ** The statistic of a pair whose runs all succeed *)

Lemma filter_all (A : Type) (p : A -> bool) l :
  forallb p l = true -> filter p l = l.
Proof.
  induction l as [|x l IH]; simpl; [reflexivity|].
  intros H. apply andb_true_iff in H as [H1 H2].
  rewrite H1, (IH H2). reflexivity.
Qed.

Lemma last_result_in results r :
  last_result results = Some r -> In r results.
Proof.
  unfold last_result. destruct (rev results) as [|x l] eqn:E; [discriminate|].
  intros H. inversion H; subst x.
  apply in_rev. rewrite E. left. reflexivity.
Qed.

Lemma pair_line_follows_last_run (float : Type) (np_mean np_std : list Q -> float)
      (a : bench_args) (results : list run_result) :
  pair_line np_mean np_std a results
  = if (0 <? List.length (filter success results))%nat then
      match last_result results with
      | Some result =>
          let times := if success result then List.map time results else [] in
          if negb (Processor.is_empty times)
          then Some {| line_mean := np_mean times;
                       line_std := if (1 <? List.length times)%nat
                                   then Some (np_std times) else None;
                       line_successful := List.length (filter success results);
                       line_total := b_runs a |}
          else None
      | None => None
      end
    else None.
Proof.
  unfold pair_line.
  destruct (0 <? List.length (filter success results))%nat; [|reflexivity].
  destruct (last_result results) as [result|]; [|reflexivity].
  rewrite successful_times_all_or_none. reflexivity.
Qed.

(** The statistic with exact mean and variance is the one of
    [pair_line] at these two functions. *)
Lemma pair_statistics_exact (a : bench_args) (results : list run_result) :
  pair_statistics a results
  = option_map exact_stats (pair_line mean variance a results).
Proof.
  rewrite BenchProperties.pair_statistics_follow_last_run,
    pair_line_follows_last_run.
  destruct (0 <? List.length (filter success results))%nat; [|reflexivity].
  destruct (last_result results) as [result|]; [|reflexivity].
  cbv zeta.
  destruct (negb (Processor.is_empty
                    (if success result then List.map time results else [])));
    [|reflexivity].
  unfold exact_stats. cbn [option_map line_mean line_std line_successful line_total].
  destruct (1 <? List.length (if success result then List.map time results else []))%nat;
    reflexivity.
Qed.

(** When every run of a pair succeeds, a line is printed for the pair:
    [np.mean] and [np.std] are given the times of all its runs, in order,
    which are then those of the successful runs, and all runs are counted
    as successful.  This holds whatever the two functions compute. *)
Theorem all_successful_runs_statistic
      (float : Type) (np_mean np_std : list Q -> float)
      (a : bench_args) (results : list run_result) :
  results <> [] -> forallb success results = true ->
  pair_line np_mean np_std a results
  = Some {| line_mean := np_mean (successful_times_spec results);
            line_std := if (1 <? List.length results)%nat
                        then Some (np_std (successful_times_spec results))
                        else None;
            line_successful := List.length results;
            line_total := b_runs a |}
  /\ successful_times_spec results = List.map time results.
Proof.
  intros Hne Hall.
  assert (Hspec : successful_times_spec results = List.map time results).
  { unfold successful_times_spec. rewrite (filter_all _ success results Hall).
    reflexivity. }
  split; [|exact Hspec].
  rewrite pair_line_follows_last_run, Hspec.
  rewrite (filter_all _ success results Hall).
  destruct results as [|r0 rest] eqn:Er; [contradiction|]. rewrite <- Er in *.
  assert (Hlen : (0 <? List.length results)%nat = true)
    by (rewrite Er; reflexivity).
  rewrite Hlen.
  destruct (last_result results) as [r|] eqn:El.
  - assert (Hs : success r = true).
    { rewrite forallb_forall in Hall. apply Hall, last_result_in, El. }
    rewrite Hs. cbv zeta. rewrite length_map.
    destruct (List.map time results) eqn:Em.
    + rewrite Er in Em. discriminate.
    + reflexivity.
  - unfold last_result in El. destruct (rev results) eqn:E; [|discriminate].
    apply (f_equal (@rev run_result)) in E. rewrite rev_involutive in E.
    rewrite E in Er. discriminate.
Qed.

Lemma all_successful_runs_statistic_witness :
  pair_line NpMean NpStd (sample_bench (py "m1") 3)
    (List.map run_article3_script
       [Returned 0 (py "a") [] (1 # 10)%Q; Returned 0 (py "b") [] (2 # 10)%Q;
        Returned 0 (py "c") [] (3 # 10)%Q])
  = Some {| line_mean := NpMean [(1 # 10)%Q; (2 # 10)%Q; (3 # 10)%Q];
            line_std := Some (NpStd [(1 # 10)%Q; (2 # 10)%Q; (3 # 10)%Q]);
            line_successful := 3; line_total := 3%Z |}.
Proof.
  rewrite (proj1 (all_successful_runs_statistic np_call NpMean NpStd
                    (sample_bench (py "m1") 3)
                    (List.map run_article3_script
                       [Returned 0 (py "a") [] (1 # 10)%Q;
                        Returned 0 (py "b") [] (2 # 10)%Q;
                        Returned 0 (py "c") [] (3 # 10)%Q])
                    ltac:(discriminate) eq_refl)).
  reflexivity.
Defined.

(** ** The final view *)

Lemma key_eqb_sym k1 k2 : key_eqb k1 k2 = key_eqb k2 k1.
Proof.
  destruct (key_eqb k1 k2) eqn:E1.
  - apply key_eqb_eq in E1. subst. symmetry. apply key_eqb_refl.
  - destruct (key_eqb k2 k1) eqn:E2; [|reflexivity].
    apply key_eqb_eq in E2. subst. rewrite key_eqb_refl in E1. discriminate.
Qed.

Lemma lookup_group_add key t groups k :
  lookup_times k (group_add key t groups)
  = if key_eqb key k then lookup_times k groups ++ [t] else lookup_times k groups.
Proof.
  induction groups as [|[k' ts] rest IH]; simpl.
  - destruct (key_eqb key k); reflexivity.
  - destruct (key_eqb k' key) eqn:E; simpl.
    + apply key_eqb_eq in E. subst k'. destruct (key_eqb key k); reflexivity.
    + rewrite IH. destruct (key_eqb k' k) eqn:E1; [|reflexivity].
      apply key_eqb_eq in E1. subst k'.
      rewrite key_eqb_sym, E. reflexivity.
Qed.

Lemma model_stats_lookup_from rs k :
  forall groups,
    lookup_times k
      (fold_left
         (fun groups r =>
            if c_success r
            then group_add (c_model r, c_url r) (c_time r) groups
            else groups)
         rs groups)
    = lookup_times k groups ++ times_of k rs.
Proof.
  unfold times_of. induction rs as [|r rs IH]; intros groups; simpl.
  - symmetry. apply app_nil_r.
  - rewrite IH. destruct (c_success r); simpl.
    + rewrite lookup_group_add.
      destruct (key_eqb (c_model r, c_url r) k); simpl.
      * rewrite <- app_assoc. reflexivity.
      * reflexivity.
    + reflexivity.
Qed.

Lemma model_stats_lookup rs k : lookup_times k (model_stats rs) = times_of k rs.
Proof. exact (model_stats_lookup_from rs k []). Qed.

Lemma lookup_of_member groups k ts :
  NoDup (List.map fst groups) -> In (k, ts) groups -> lookup_times k groups = ts.
Proof.
  induction groups as [|[k' ts'] rest IH]; simpl; [tauto|].
  intros Hnd [E|Hin].
  - inversion E; subst. rewrite key_eqb_refl. reflexivity.
  - inversion Hnd as [|? ? Hnot Hrest]; subst.
    destruct (key_eqb k' k) eqn:E.
    + apply key_eqb_eq in E. subst k'. exfalso. apply Hnot.
      apply in_map_iff. exists (k, ts). split; [reflexivity | exact Hin].
    + apply IH; assumption.
Qed.

Lemma member_of_lookup groups k :
  lookup_times k groups <> [] -> In (k, lookup_times k groups) groups.
Proof.
  induction groups as [|[k' ts'] rest IH]; simpl; [tauto|].
  destruct (key_eqb k' k) eqn:E; intros H.
  - apply key_eqb_eq in E. subst k'. left. reflexivity.
  - right. apply IH, H.
Qed.

Lemma summary_lines_keys (float : Type) (np_mean : list Q -> float) rs :
  NoDup (List.map (fun line => fst (fst line)) (summary_lines np_mean rs)).
Proof.
  unfold summary_lines. rewrite map_map. simpl.
  apply NoDup_map_filter.
  apply (model_stats_from_keys (List.map read_back rs) []). constructor.
Qed.

(** A text without CR is read back as it was written. *)
Lemma universal_newlines_without_CR s :
  ~ In CR s -> universal_newlines false s = s.
Proof.
  induction s as [|c s IH]; intros H; [reflexivity|].
  cbn [universal_newlines].
  destruct (chr_eqb c CR) eqn:E.
  - exfalso. apply H. left. apply N.eqb_eq in E. exact E.
  - rewrite andb_false_r. f_equal. apply IH. intros Hin. apply H. right. exact Hin.
Qed.

Lemma times_read_back_without_CR key rs :
  no_carriage_return rs -> times_read_back key rs = times_of key rs.
Proof.
  unfold times_read_back, times_of, no_carriage_return.
  induction rs as [|r rs IH]; intros H; [reflexivity|].
  inversion H as [|? ? [Hm Hu] Hrest]; subst.
  cbn [List.map filter]. cbn [read_back c_success c_model c_url].
  rewrite (universal_newlines_without_CR _ Hm),
    (universal_newlines_without_CR _ Hu).
  destruct (c_success r && key_eqb (c_model r, c_url r) key).
  - cbn [List.map]. cbn [read_back c_time]. f_equal. apply IH, Hrest.
  - apply IH, Hrest.
Qed.

(** The final view has one line for each (model, url) pair, as the
    report gives it back, that has a successful row, and no other line:
    on the line, [np.mean] is given the times written for the successful
    rows of the pair, in order, and their number is printed.  The pairs
    are those of the rows written when no model name and no URL holds a
    carriage return. *)
Theorem final_view_lines (float : Type) (np_mean : list Q -> float)
      (rs : list row) :
  NoDup (List.map (fun line => fst (fst line)) (summary_lines np_mean rs))
  /\ (forall model url avg n,
        In (model, url, avg, n) (summary_lines np_mean rs)
        <-> times_read_back (model, url) rs <> []
            /\ avg = np_mean (times_read_back (model, url) rs)
            /\ n = List.length (times_read_back (model, url) rs))
  /\ (no_carriage_return rs ->
      forall key, times_read_back key rs = times_of key rs).
Proof.
  split; [apply summary_lines_keys|]. split.
  - assert (Hnd : NoDup (List.map fst (model_stats (List.map read_back rs))))
      by (apply (model_stats_from_keys (List.map read_back rs) []); constructor).
    intros model url avg n. unfold summary_lines, times_read_back.
    rewrite in_map_iff. split.
    + intros ([k ts] & E & Hin). simpl in E. inversion E; subst.
      apply filter_In in Hin. destruct Hin as [Hin Hne]. simpl in Hne.
      rewrite <- (model_stats_lookup (List.map read_back rs) (model, url)).
      rewrite (lookup_of_member _ _ _ Hnd Hin).
      repeat split. intros Z. rewrite Z in Hne. discriminate.
    + intros (Hne & -> & ->).
      rewrite <- (model_stats_lookup (List.map read_back rs) (model, url)) in *.
      exists ((model, url),
              lookup_times (model, url) (model_stats (List.map read_back rs))).
      split; [reflexivity|]. apply filter_In. split.
      * apply member_of_lookup, Hne.
      * simpl.
        destruct (lookup_times (model, url) (model_stats (List.map read_back rs)));
          [contradiction | reflexivity].
  - intros H key. apply times_read_back_without_CR, H.
Qed.

Lemma final_view_lines_witness :
  let rs := rows_written
              (main (scripted_world [Returned 0 (py "s") [] (1 # 3)%Q;
                                     TimeoutExpired])
                    (sample_bench (py "m1,m2") 2)) in
  no_carriage_return rs
  /\ times_read_back (py "m1", py "https://example.org/news") rs = [(33 # 100)%Q]
  /\ times_read_back (py "m2", py "https://example.org/news") rs = [1%Q; 1%Q].
Proof.
  assert (H : no_carriage_return
                (rows_written
                   (main (scripted_world [Returned 0 (py "s") [] (1 # 3)%Q;
                                          TimeoutExpired])
                         (sample_bench (py "m1,m2") 2)))).
  { vm_compute. repeat constructor; intros F; vm_compute in F;
      intuition discriminate. }
  cbv zeta. split; [exact H|].
  rewrite !(proj2 (proj2 (final_view_lines np_call NpMean _)) H).
  vm_compute. split; reflexivity.
Defined.

(** A carriage return in a model name comes back as a newline: two
    models that differ in this only share one line of the final view. *)
Lemma carriage_return_merges_pairs :
  let a := {| b_host := py "h"; b_max_length := 257%Z;
              b_models := FromArg (py "m" ++ [CR] ++ py ",m" ++ [NL]);
              b_urls := FromArg (py "u"); b_runs := 1%Z |} in
  let rs := rows_written (main (scripted_world []) a) in
  List.map c_model rs = [py "m" ++ [CR]; py "m" ++ [NL]]
  /\ summary_lines NpMean rs = [(py "m" ++ [NL], py "u", NpMean [1%Q; 1%Q], 2)].
Proof. vm_compute. split; reflexivity. Qed.

(** ** The command line of every run *)

(** Every run of a sweep is started with the configured host and
    target length and with the flag REPEATED, so that the orchestrator
    never stops at its cache check. *)
Theorem every_run_forces_reuse (w : bench_world) (a : bench_args) :
  Forall (fun c => cmd_flag c = Processor.REPEATED
                   /\ cmd_host c = b_host a
                   /\ cmd_length c = str_of_Z (b_max_length a)
                   /\ In (cmd_url c) (parse_list (b_urls a))
                   /\ In (cmd_model c) (selected_models a))
    (runs_started (main w a)).
Proof.
  unfold main.
  destruct (negb (script_exists w)); [constructor|].
  destruct (negb (script_executable w)); [constructor|].
  destruct (Processor.is_empty (selected_models a)); [constructor|].
  destruct (Processor.is_empty (parse_list (b_urls a))); [constructor|].
  cbn [runs_started].
  rewrite (proj1 (sweep_urls_spec w a (parse_list (b_urls a)) (selected_models a))).
  apply Forall_forall. intros c Hc. unfold planned_commands in Hc.
  apply in_flat_map in Hc. destruct Hc as (u & Hu & Hc).
  apply in_flat_map in Hc. destruct Hc as (m & Hm & Hc).
  apply repeat_spec in Hc. subst c. repeat split; assumption.
Qed.

End BenchMore.
